(** * Taint propagation aspects of the IAST taint-tracking engine

    A shallow embedding of
      ddtrace/appsec/_iast/_taint_tracking/Aspects/AspectOperatorAdd.cpp
      ddtrace/appsec/_iast/_taint_tracking/Aspects/AspectStr.cpp
    together with the properties the specification states about them.

    Layout: Python values and the interpreter interface, the taint data
    model (TaintRange, TaintedObject, TaintRangeMap) with explicit
    addresses so that aliasing is visible, a state-and-exception monad for
    the C++ control flow, the helpers the two files call, the aspects
    themselves, and then the theorems. *)

From stdpp Require Import gmap strings list fin_maps pretty.
From Stdlib Require Import ZArith Strings.Byte.

(* ===================================================================== *)
(** ** Python values as the aspects see them *)
(* ===================================================================== *)

(** What a [PyObject*] points to.  Only the kinds the two aspects
    distinguish are spelled out: [str], [bytes], [bytearray]; an integer
    stands for the non-text values and [PyCallable] for the original
    function handed to the str aspect. *)
Inductive PyValue :=
| PyUnicode (s : string)
| PyBytes (b : list byte)
| PyByteArray (b : list byte)
| PyLong (n : Z)
| PyNoneValue
| PyCallable (name : string).

(** A [PyObject*]: the identity (address) of the object and its value.
    Pointer comparison is comparison of [ob_id]. *)
Record PyObject := mkPyObject { ob_id : nat; ob_val : PyValue }.

Inductive PyExcType :=
| PyExc_ValueError
| PyExc_TypeError
| PyExc_LookupError
| PyExc_UnicodeDecodeError
| PyExc_BytesWarning.

(** The interpreter's error indicator. *)
Record PyErr := mkPyErr { err_type : PyExcType; err_msg : string }.

(** Result of a C-API call: an object, or NULL with the error indicator
    set to the given error. *)
Inductive PyResult :=
| PyOk (o : PyObject)
| PyFail (e : PyErr).

Definition PyUnicode_Check (o : PyObject) : bool :=
  match ob_val o with PyUnicode _ => true | _ => false end.

Definition PyBytes_Check (o : PyObject) : bool :=
  match ob_val o with PyBytes _ => true | _ => false end.

Definition PyByteArray_Check (o : PyObject) : bool :=
  match ob_val o with PyByteArray _ => true | _ => false end.

(** Pointer equality of two possibly-null object pointers. *)
Definition same_object (a b : option PyObject) : bool :=
  match a, b with
  | Some x, Some y => Nat.eqb (ob_id x) (ob_id y)
  | None, None => true
  | _, _ => false
  end.

(** The CPython entry points the aspects call, and the one helper that
    reads hidden flags of the string object.  They belong to the
    interpreter, not to this repository, so the development is parametric
    in them. *)
Class PyRuntime := {
  PyNumber_Add : PyObject → PyObject → PyResult;
  PyNumber_InPlaceAdd : PyObject → PyObject → PyResult;
  PyObject_Str : PyObject → PyResult;
  PyUnicode_Decode : list byte → string → string → PyResult;
  PyUnicode_Find : PyObject → PyObject → Z → Z → Z → Z;
  PyUnicode_FromString : string → PyObject;
  PyObject_CallFunction : PyObject → list PyObject → PyResult;
  Py_None : PyObject;
  is_notinterned_notfasttainted_unicode : PyObject → bool
}.

(* ===================================================================== *)
(** ** Taint data model *)
(* ===================================================================== *)

(** Taint-source descriptor: name and category. *)
Record Source := mkSource { src_name : string; src_origin : nat }.

(** One tainted span.  The fields keep their C++ names inside the module
    so that [length] stays the list length elsewhere. *)
Module TR.
Record t := mk { start : Z; length : Z; source : Source }.

(** [range->length = n] *)
Definition set_length (n : Z) (r : t) : t :=
  {| start := start r; length := n; source := source r |}.

(** A copy of [r] moved [offset] positions to the right. *)
Definition shift (offset : Z) (r : t) : t :=
  {| start := (start r + offset)%Z; length := length r; source := source r |}.

(** A copy of [r] moved by [offset] whose length is [new_length]. *)
Definition shift_resize (offset new_length : Z) (r : t) : t :=
  {| start := (start r + offset)%Z; length := new_length; source := source r |}.
End TR.

(** Addresses of heap-allocated TaintRange and TaintedObject instances
    ([TaintRangePtr], [TaintedObjectPtr]). *)
Abbreviation addr := nat (only parsing).

(** C++ exceptions, as the three catch clauses tell them apart. *)
Inductive cpp_exception :=
| error_already_set (what : string)
| std_exception (what : string)
| unknown_exception.

(** The state the aspects run in.
    - [taint_ranges]: the TaintRange instances, addressed by index;
    - [tainted_objects]: the TaintedObject instances, each the ordered
      list of the addresses of its ranges ([TaintRangeRefs]);
    - [tainting_map]: [initializer->get_tainting_map()], null or the
      identity-keyed table of TaintedObject pointers;
    - [next_id]: the next fresh object identity;
    - [py_err]: the interpreter's error indicator;
    - [iast_log]: what [iast_taint_log_error] has received, newest first;
    - [fault]: fault injection, [Some (n, e)] makes the helper call
      number [n] from now throw [e];
    - [released]: the identities of the objects whose reference the
      aspect has given up ([Py_DecRef], [Py_DECREF]), newest first. *)
Record State := mkState {
  taint_ranges : list TR.t;
  tainted_objects : list (list addr);
  tainting_map : option (gmap nat addr);
  next_id : nat;
  py_err : option PyErr;
  iast_log : list string;
  fault : option (nat * cpp_exception);
  released : list nat
}.

Definition with_taint_ranges (h : list TR.t) (st : State) : State :=
  mkState h (tainted_objects st) (tainting_map st) (next_id st)
          (py_err st) (iast_log st) (fault st) (released st).

Definition with_tainted_objects (h : list (list addr)) (st : State) : State :=
  mkState (taint_ranges st) h (tainting_map st) (next_id st)
          (py_err st) (iast_log st) (fault st) (released st).

Definition with_tainting_map (m : option (gmap nat addr)) (st : State) : State :=
  mkState (taint_ranges st) (tainted_objects st) m (next_id st)
          (py_err st) (iast_log st) (fault st) (released st).

Definition with_next_id (n : nat) (st : State) : State :=
  mkState (taint_ranges st) (tainted_objects st) (tainting_map st) n
          (py_err st) (iast_log st) (fault st) (released st).

Definition with_py_err (e : option PyErr) (st : State) : State :=
  mkState (taint_ranges st) (tainted_objects st) (tainting_map st) (next_id st)
          e (iast_log st) (fault st) (released st).

Definition with_iast_log (l : list string) (st : State) : State :=
  mkState (taint_ranges st) (tainted_objects st) (tainting_map st) (next_id st)
          (py_err st) l (fault st) (released st).

Definition with_fault (f : option (nat * cpp_exception)) (st : State) : State :=
  mkState (taint_ranges st) (tainted_objects st) (tainting_map st) (next_id st)
          (py_err st) (iast_log st) f (released st).

Definition with_released (l : list nat) (st : State) : State :=
  mkState (taint_ranges st) (tainted_objects st) (tainting_map st) (next_id st)
          (py_err st) (iast_log st) (fault st) l.

(** [tainted_object->get_ranges()]: the range references of the
    TaintedObject at [p]. *)
Definition to_ranges (st : State) (p : addr) : list addr :=
  default [] (tainted_objects st !! p).

(** The TaintRange values a list of references points to. *)
Definition range_values (st : State) (rs : list addr) : list TR.t :=
  omap (λ r, taint_ranges st !! r) rs.

(** The taint record of an object, by value: the ranges of the
    TaintedObject its identity is mapped to, if any. *)
Definition taint_record (st : State) (o : PyObject) : option (list TR.t) :=
  match tainting_map st with
  | Some m => (λ p, range_values st (to_ranges st p)) <$> m !! ob_id o
  | None => None
  end.

(** The TaintedObject pointer an object's identity is mapped to. *)
Definition taint_entry (st : State) (o : PyObject) : option addr :=
  match tainting_map st with
  | Some m => m !! ob_id o
  | None => None
  end.

(* ===================================================================== *)
(** ** State and exception monad *)
(* ===================================================================== *)

(** A computation returns, throws a C++ exception, or ends the process
    ([Crash]: a null pointer is dereferenced). *)
Inductive outcome (A : Type) :=
| Ret (a : A)
| Throw (e : cpp_exception)
| Crash.
Arguments Ret {A} a.
Arguments Throw {A} e.
Arguments Crash {A}.

Definition M (A : Type) : Type := State → outcome A * State.

#[global] Instance M_ret : MRet M := λ A a st, (Ret a, st).

#[global] Instance M_bind : MBind M := λ A B f m st,
  match m st with
  | (Ret a, st') => f a st'
  | (Throw e, st') => (Throw e, st')
  | (Crash, st') => (Crash, st')
  end.

Definition gets {A} (f : State → A) : M A := λ st, (Ret (f st), st).

Definition modify (f : State → State) : M unit := λ st, (Ret (), f st).

(** [try { body } catch (e) { handler e }] *)
Definition try_catch {A} (body : M A) (handler : cpp_exception → M A) : M A :=
  λ st,
    match body st with
    | (Ret a, st') => (Ret a, st')
    | (Throw e, st') => handler e st'
    | (Crash, st') => (Crash, st')
    end.

(** One step of a helper that may throw: the scheduled fault fires when
    its countdown reaches zero. *)
Definition tick : M unit := λ st,
  match fault st with
  | Some (0, e) => (Throw e, with_fault None st)
  | Some (S n, e) => (Ret (), with_fault (Some (n, e)) st)
  | None => (Ret (), st)
  end.

(** A C-API call: NULL comes back with the error indicator set. *)
Definition py_call (r : PyResult) : M (option PyObject) :=
  match r with
  | PyOk o => mret (Some o)
  | PyFail e => modify (with_py_err (Some e));; mret None
  end.

(** [py::set_error(type, msg)]: sets the interpreter's error indicator. *)
Definition set_error (ty : PyExcType) (msg : string) : M unit :=
  modify (with_py_err (Some (mkPyErr ty msg))).

Definition PyErr_Occurred : M bool := gets (λ st, bool_decide (is_Some (py_err st))).

Definition PyErr_Clear : M unit := modify (with_py_err None).

(** [Py_DecRef(o)]: the reference is given up; a null pointer is
    ignored. *)
Definition Py_DecRef (o : option PyObject) : M unit :=
  match o with
  | Some o => modify (λ st, with_released (ob_id o :: released st) st)
  | None => mret ()
  end.

(** [Py_DECREF(o)]: the macro reads the object's reference count without
    a null check. *)
Definition Py_DECREF (o : option PyObject) : M unit :=
  match o with
  | Some o => modify (λ st, with_released (ob_id o :: released st) st)
  | None => λ st, (Crash, st)
  end.

(** Modelled from the spec: [iast_taint_log_error] is defined outside
    the two aspect files. It hands the message to the external
    diagnostic sink. *)
Definition iast_taint_log_error (msg : string) : M unit :=
  modify (λ st, with_iast_log (msg :: iast_log st) st).

(** [e.what()] *)
Definition what (e : cpp_exception) : string :=
  match e with
  | error_already_set w => w
  | std_exception w => w
  | unknown_exception => ""
  end.

(* ===================================================================== *)
(** ** Helpers the aspects call *)
(* ===================================================================== *)

(** Modelled from the spec: [get_pyobject_size] is defined outside the
    two aspect files. It is the length of a text-like value in its own
    units (characters for [str], bytes for [bytes] and [bytearray]), 0
    for anything else. *)
Definition get_pyobject_size (o : PyObject) : nat :=
  match ob_val o with
  | PyUnicode s => String.length s
  | PyBytes b => length b
  | PyByteArray b => length b
  | _ => 0
  end.

(** Modelled from the spec: [is_text] is defined outside the two aspect
    files. The text-like values are [str], [bytes] and [bytearray]. *)
Definition is_text (o : PyObject) : bool :=
  PyUnicode_Check o || PyBytes_Check o || PyByteArray_Check o.

(** Modelled from the spec: [args_are_text_and_same_type] is defined
    outside the two aspect files. Both operands are text-like and of the
    same type. *)
Definition args_are_text_and_same_type (a b : PyObject) : bool :=
  match ob_val a, ob_val b with
  | PyUnicode _, PyUnicode _ => true
  | PyBytes _, PyBytes _ => true
  | PyByteArray _, PyByteArray _ => true
  | _, _ => false
  end.

(** [not tx_map or tx_map->empty()] *)
Definition no_tainting_map (tx_map : option (gmap nat addr)) : bool :=
  match tx_map with
  | None => true
  | Some m => bool_decide (m = ∅)
  end.

(** Modelled from the spec: the initializer is defined outside the two
    aspect files. [get_tainting_map] hands out the active TaintRangeMap,
    null when tainting is disabled. *)
Definition get_tainting_map : M (option (gmap nat addr)) :=
  tick;; gets tainting_map.

(** Modelled from the spec: [get_tainted_object] is defined outside the
    two aspect files. It is the map's [get(identity) -> optional
    TaintedObject]; a disabled map reports not tainted. *)
Definition get_tainted_object (o : PyObject) : M (option addr) :=
  tick;; gets (λ st, taint_entry st o).

(** Modelled from the spec: [set_tainted_object] is defined outside the
    two aspect files. It is the map's [set(identity, TaintedObject)]:
    the entry of the object's identity now holds the given TaintedObject
    pointer, replacing any previous association; a null object or a
    disabled map makes it a no-op. *)
Definition set_tainted_object (o : option PyObject) (p : addr) : M unit :=
  tick;;
  match o with
  | Some o =>
      modify (λ st, with_tainting_map (<[ob_id o := p]> <$> tainting_map st) st)
  | None => mret ()
  end.

(** Modelled from the spec: [new_pyobject_id] is defined outside the two
    aspect files. The result is re-keyed to an identity of its own and
    its visible content is unchanged: a new object with the same value. *)
Definition new_pyobject_id (o : option PyObject) : M (option PyObject) :=
  tick;;
  match o with
  | Some o =>
      id ← gets next_id;
      modify (with_next_id (S id));;
      mret (Some (mkPyObject id (ob_val o)))
  | None => mret None
  end.

(** New TaintRange instances holding the given values; their addresses
    in order. *)
Definition alloc_taint_ranges (vs : list TR.t) : M (list addr) := λ st,
  (Ret (seq (length (taint_ranges st)) (length vs)),
   with_taint_ranges (taint_ranges st ++ vs) st).

(** A new TaintedObject holding the given range references. *)
Definition alloc_tainted_object (rs : list addr) : M addr := λ st,
  (Ret (length (tainted_objects st)),
   with_tainted_objects (tainted_objects st ++ [rs]) st).

(** Modelled from the spec: [allocate_tainted_object_copy] is defined
    outside the two aspect files. It builds a new TaintedObject by
    copying the given one's ranges as they are, or starting empty if
    there is none; copied ranges are new TaintRange instances that share
    the source. *)
Definition allocate_tainted_object_copy (from : option addr) : M addr :=
  tick;;
  vs ← gets (λ st, match from with
                    | Some p => range_values st (to_ranges st p)
                    | None => []
                    end);
  rs ← alloc_taint_ranges vs;
  alloc_tainted_object rs.

Section Aspects.
Context `{RT : PyRuntime}.

(** The range cap of a TaintedObject and the message of the arity check;
    both constants are declared outside the two aspect files. *)
Variable TAINT_RANGE_LIMIT : nat.
Variable MSG_ERROR_N_PARAMS : string.

(** Modelled from the spec: [TaintedObject::add_ranges_shifted] is
    defined outside the two aspect files. It appends a copy of every
    range of [other] with its start increased by [offset] (new instances
    sharing the source) and respects the cap, truncating from the end of
    the combined sequence. *)
Definition add_ranges_shifted (self other : addr) (offset : Z) : M unit :=
  tick;;
  vs ← gets (λ st, TR.shift offset <$> range_values st (to_ranges st other));
  rs ← alloc_taint_ranges vs;
  modify (λ st,
    with_tainted_objects
      (<[self := take TAINT_RANGE_LIMIT (to_ranges st self ++ rs)]> (tainted_objects st)) st).

(* ===================================================================== *)
(** ** AspectOperatorAdd.cpp *)
(* ===================================================================== *)

(** [len_text_to_add == 0 and len_candidate_text > 0] *)
Definition empty_right_fast_path (candidate_text text_to_add : PyObject) : bool :=
  (get_pyobject_size text_to_add =? 0) && (0 <? get_pyobject_size candidate_text).

(** [len_text_to_add > 0 and len_candidate_text == 0 and text_to_add == result_o] *)
Definition empty_left_fast_path
    (result_o : option PyObject) (candidate_text text_to_add : PyObject) : bool :=
  (0 <? get_pyobject_size text_to_add) && (get_pyobject_size candidate_text =? 0)
  && same_object (Some text_to_add) result_o.

Definition add_aspect (result_o : option PyObject) (candidate_text text_to_add : PyObject)
  : M (option PyObject) :=
  let len_candidate_text := get_pyobject_size candidate_text in
  if empty_right_fast_path candidate_text text_to_add then
    mret (Some candidate_text)
  else if empty_left_fast_path result_o candidate_text text_to_add then
    mret (Some text_to_add)
  else
    to_candidate_text ← get_tainted_object candidate_text;
    at_limit ← gets (λ st, match to_candidate_text with
                           | Some p => TAINT_RANGE_LIMIT <=? length (to_ranges st p)
                           | None => false
                           end);
    match to_candidate_text, at_limit with
    | Some p, true =>
        res_new_id ← new_pyobject_id result_o;
        Py_DecRef result_o;;
        set_tainted_object res_new_id p;;
        mret res_new_id
    | _, _ =>
        to_text_to_add ← get_tainted_object text_to_add;
        match to_candidate_text, to_text_to_add with
        | None, None => mret result_o
        | Some p, None =>
            res_new_id ← new_pyobject_id result_o;
            Py_DecRef result_o;;
            set_tainted_object res_new_id p;;
            mret res_new_id
        | _, Some q =>
            tainted ← allocate_tainted_object_copy to_candidate_text;
            add_ranges_shifted tainted q (Z.of_nat len_candidate_text);;
            set_tainted_object result_o tainted;;
            mret result_o
        end
    end.

(** The message the catch clauses log, for the aspect called [name]. *)
Definition aspect_error_message (name : string) (e : cpp_exception) : string :=
  match e with
  | error_already_set _ => "IAST propagation error in " +:+ name +:+ ". " +:+ what e
  | std_exception _ => "IAST propagation error in " +:+ name +:+ ". " +:+ what e
  | unknown_exception => "Unkown IAST propagation error in " +:+ name +:+ ". "
  end.

Definition api_add_aspect (args : list PyObject) : M (option PyObject) :=
  match args with
  | [candidate_text; text_to_add] =>
      result_o ← py_call (PyNumber_Add candidate_text text_to_add);
      try_catch
        (tx_map ← get_tainting_map;
         if no_tainting_map tx_map then mret result_o
         else if negb (args_are_text_and_same_type candidate_text text_to_add) then
           mret result_o
         else if is_notinterned_notfasttainted_unicode candidate_text
                 && is_notinterned_notfasttainted_unicode text_to_add then
           mret result_o
         else add_aspect result_o candidate_text text_to_add)
        (λ e, iast_taint_log_error (aspect_error_message "add_aspect" e);; mret result_o)
  | _ => set_error PyExc_ValueError MSG_ERROR_N_PARAMS;; mret None
  end.

(** What a pointer refers to once the operation has produced [result_o]:
    an operand that the operation updated in place is the result itself,
    so a pointer to it now reads the result's value. *)
Definition pointee_after (result_o : option PyObject) (o : PyObject) : PyObject :=
  match result_o with
  | Some r => if ob_id o =? ob_id r then r else o
  | None => o
  end.

(** The gates look at the type of the operands and at the flags of a
    [str], which an update in place does not change; [add_aspect]
    measures the operands, and does so after the operation. *)
Definition api_add_inplace_aspect (args : list PyObject) : M (option PyObject) :=
  match args with
  | [candidate_text; text_to_add] =>
      result_o ← py_call (PyNumber_InPlaceAdd candidate_text text_to_add);
      try_catch
        (tx_map ← get_tainting_map;
         if no_tainting_map tx_map then mret result_o
         else if negb (args_are_text_and_same_type candidate_text text_to_add) then
           mret result_o
         else if is_notinterned_notfasttainted_unicode candidate_text
                 && is_notinterned_notfasttainted_unicode text_to_add then
           mret result_o
         else add_aspect result_o (pointee_after result_o candidate_text)
                (pointee_after result_o text_to_add))
        (λ e, iast_taint_log_error (aspect_error_message "add_aspect" e);; mret result_o)
  | _ => set_error PyExc_ValueError MSG_ERROR_N_PARAMS;; mret None
  end.

(* ===================================================================== *)
(** ** AspectStr.cpp *)
(* ===================================================================== *)

(** Modelled from the spec: [get_ranges] is defined outside the two
    aspect files. It hands out the range references held by the object's
    TaintedObject (none when the object has no entry) and an error flag,
    raised when there is no map to look into. *)
Definition get_ranges (o : PyObject) : M (list addr * bool) :=
  tick;;
  gets (λ st, match tainting_map st with
              | Some m => (match m !! ob_id o with
                           | Some p => to_ranges st p
                           | None => []
                           end, false)
              | None => ([], true)
              end).

(** Modelled from the spec: [set_ranges] is defined outside the two
    aspect files. It copies the given ranges onto the object: a new
    TaintedObject holding new TaintRange instances with the same values
    becomes the entry of the object's identity. An empty list leaves the
    map alone. *)
Definition set_ranges (o : PyObject) (ranges : list addr) : M unit :=
  tick;;
  if bool_decide (ranges = []) then mret ()
  else
    vs ← gets (λ st, range_values st ranges);
    rs ← alloc_taint_ranges vs;
    p ← alloc_tainted_object rs;
    modify (λ st, with_tainting_map (<[ob_id o := p]> <$> tainting_map st) st).

(** Modelled from the spec: [copy_and_shift_ranges_from_strings] is
    defined outside the two aspect files. It copies the ranges of [from]
    onto [to], shifted by [offset] and with lengths adjusted to
    [new_length]. *)
Definition copy_and_shift_ranges_from_strings
    (from to : PyObject) (offset new_length : Z) : M unit :=
  '(ranges, ranges_error) ← get_ranges from;
  if (ranges_error : bool) || bool_decide (ranges = []) then mret ()
  else
    vs ← gets (λ st, TR.shift_resize offset new_length <$> range_values st ranges);
    rs ← alloc_taint_ranges vs;
    p ← alloc_tainted_object rs;
    modify (λ st, with_tainting_map (<[ob_id to := p]> <$> tainting_map st) st).

(** Modelled from the spec: the macro [TRY_CATCH_ASPECT] is defined
    outside the two aspect files. A fault in the block is caught at the
    aspect boundary and logged, then the cleanup and the return
    expression run; the shape and the messages are those of the catch
    clauses written out in AspectOperatorAdd.cpp. *)
Definition TRY_CATCH_ASPECT {A} (name : string) (return_result : M A)
    (cleanup : M unit) (body : M A) : M A :=
  try_catch body
    (λ e, iast_taint_log_error (aspect_error_message name e);;
          cleanup;; return_result).

(** [PyUnicode_GetLength]: the length of a [str], or -1 with TypeError
    set for anything else. *)
Definition PyUnicode_GetLength (o : PyObject) : M Z :=
  match ob_val o with
  | PyUnicode s => mret (Z.of_nat (String.length s))
  | _ => set_error PyExc_TypeError "bad argument type for built-in operation";;
         mret (-1)%Z
  end.

(** [PyUnicode_AsUTF8] of a [str]. *)
Definition PyUnicode_AsUTF8 (o : option PyObject) : string :=
  match ob_val <$> o with
  | Some (PyUnicode s) => s
  | _ => ""
  end.

(** [PyBytes_AsStringAndSize]: the buffer of a [bytes] object, or -1
    (here [None]) with TypeError set. *)
Definition PyBytes_AsStringAndSize (o : PyObject) : M (option (list byte)) :=
  match ob_val o with
  | PyBytes b => mret (Some b)
  | _ => set_error PyExc_TypeError "expected bytes";; mret None
  end.

(** [PyObject_Length] of a conversion result. *)
Definition PyObject_Length (o : PyObject) : Z :=
  match ob_val o with
  | PyUnicode _ | PyBytes _ | PyByteArray _ => Z.of_nat (get_pyobject_size o)
  | _ => (-1)%Z
  end.

(** Modelled from the spec: [has_pyerr] is defined outside the two
    aspect files. It tells whether the interpreter's error indicator is
    set. *)
Definition has_pyerr : M bool := PyErr_Occurred.

(** [throw e] *)
Definition throw {A} (e : cpp_exception) : M A := λ st, (Throw e, st).

(** [args[i]]; the calling convention provides [nargs] positional
    entries followed by one entry per keyword name. *)
Definition arg_at (args : list PyObject) (i : nat) : PyObject :=
  default Py_None (args !! i).

Definition set_lengthupdated_ranges
    (result : PyObject) (result_len : Z) (ranges : list addr) : M unit :=
  tx_map ← gets tainting_map;
  if no_tainting_map tx_map then mret ()
  else
    let copy_ranges := ranges in
    modify (λ st,
      with_taint_ranges
        (foldl (λ h range, alter (TR.set_length result_len) range h)
               (taint_ranges st) copy_ranges) st);;
    set_ranges result copy_ranges.

Definition call_original_function
    (orig_function text : PyObject) (pyo_encoding pyo_errors : option PyObject)
  : M (option PyObject) :=
  let arg_errors := default (PyUnicode_FromString "strict") pyo_errors in
  py_call (PyObject_CallFunction orig_function
             (text :: option_list pyo_encoding ++ [arg_errors])).

(** The keyword loop of [get_args], from keyword number [i] on. *)
Fixpoint get_args_keywords (args : list PyObject) (nargs : nat)
    (kwnames : list string) (i : nat)
    (effective_args : Z) (pyo_encoding pyo_errors : option PyObject)
  : Z * option PyObject * option PyObject :=
  match kwnames with
  | [] => (effective_args, pyo_encoding, pyo_errors)
  | key :: rest =>
      if (3 <? effective_args)%Z then
        (effective_args, pyo_encoding, pyo_errors)
      else
        let value := args !! (nargs + i) in
        if String.eqb key "encoding" then
          get_args_keywords args nargs rest (S i) (effective_args + 1)%Z value pyo_errors
        else if String.eqb key "errors" then
          get_args_keywords args nargs rest (S i) (effective_args + 1)%Z pyo_encoding value
        else
          get_args_keywords args nargs rest (S i) effective_args pyo_encoding pyo_errors
  end.

Definition get_args (args : list PyObject) (nargs : nat) (kwnames : option (list string))
  : Z * PyObject * PyObject * option PyObject * option PyObject :=
  let orig_function := arg_at args 0 in
  let text := arg_at args 2 in
  let '(pyo_encoding, effective_args) :=
    if 3 <? nargs then (args !! 3, 2%Z) else (None, 1%Z) in
  let '(pyo_errors, effective_args) :=
    if 4 <? nargs then (args !! 4, 3%Z) else (None, effective_args) in
  let '(effective_args, pyo_encoding, pyo_errors) :=
    match kwnames with
    | Some names =>
        get_args_keywords args nargs names 0 effective_args pyo_encoding pyo_errors
    | None => (effective_args, pyo_encoding, pyo_errors)
    end in
  (effective_args, orig_function, text, pyo_encoding, pyo_errors).

(** [p != nullptr and PyUnicode_GetLength(p) > 0] *)
Definition has_nonempty (p : option PyObject) : M bool :=
  match p with
  | Some o => n ← PyUnicode_GetLength o; mret (0 <? n)%Z
  | None => mret false
  end.

(** The taint propagation block at the end of [api_str_aspect]. *)
Definition str_aspect_propagation (text result_o : PyObject) : M (option PyObject) :=
  TRY_CATCH_ASPECT "str_aspect" (mret (Some result_o)) (mret ())
    (tx_map ← get_tainting_map;
     if no_tainting_map tx_map then mret (Some result_o)
     else
       '(ranges, ranges_error) ← get_ranges text;
       if (ranges_error : bool) || bool_decide (ranges = []) then mret (Some result_o)
       else if PyUnicode_Check text then
         set_ranges result_o ranges;;
         mret (Some result_o)
       else
         let len_result_o := PyObject_Length result_o in
         check_offset ← py_call (PyObject_Str text);
         match check_offset with
         | None =>
             PyErr_Clear;;
             set_lengthupdated_ranges result_o len_result_o ranges
         | Some check_offset =>
             let offset := PyUnicode_Find result_o check_offset 0 len_result_o 1 in
             if (offset =? -1)%Z then
               PyErr_Clear;;
               set_lengthupdated_ranges result_o len_result_o ranges
             else
               copy_and_shift_ranges_from_strings text result_o offset len_result_o
         end;;
         Py_DECREF check_offset;;
         mret (Some result_o)).

Definition api_str_aspect (args : list PyObject) (nargs : nat)
    (kwnames : option (list string)) : M (option PyObject) :=
  if (nargs <? 3) || (5 <? nargs) then
    set_error PyExc_ValueError MSG_ERROR_N_PARAMS;; mret None
  else
    let '(effective_args, orig_function, text, pyo_encoding, pyo_errors) :=
      get_args args nargs kwnames in
    if (3 <? effective_args)%Z then
      let error_msg :=
        "str() takes at most 3 arguments (" +:+ pretty effective_args +:+ " given)" in
      set_error PyExc_TypeError error_msg;; mret None
    else
      has_encoding ← has_nonempty pyo_encoding;
      has_errors ← has_nonempty pyo_errors;
      if (has_encoding : bool) && negb (PyByteArray_Check text) && negb (PyBytes_Check text) then
        call_original_function orig_function text pyo_encoding pyo_errors
      else if negb (is_text text) then
        py_call (PyObject_Str text)
      else if negb has_encoding && negb has_errors then
        result_o ← py_call (PyObject_Str text);
        match result_o with
        | None => mret None
        | Some result_o => str_aspect_propagation text result_o
        end
      else
        raw ← match ob_val text with
              | PyByteArray b => mret (Some b)
              | _ => PyBytes_AsStringAndSize text
              end;
        match raw with
        | None =>
            failed ← has_pyerr;
            if (failed : bool) then mret None else throw (error_already_set "")
        | Some text_raw_bytes =>
            let encoding := if (has_encoding : bool) then PyUnicode_AsUTF8 pyo_encoding else "utf-8" in
            let errors := if (has_errors : bool) then PyUnicode_AsUTF8 pyo_errors else "strict" in
            result_o ← py_call (PyUnicode_Decode text_raw_bytes encoding errors);
            occurred ← PyErr_Occurred;
            if (occurred : bool) then mret None
            else
              match result_o with
              | None => mret (Some Py_None)
              | Some result_o => str_aspect_propagation text result_o
              end
        end.

End Aspects.

(* ===================================================================== *)
(** ** A small interpreter instance, to run the aspects on concrete inputs *)
(* ===================================================================== *)

(** The interpreter interface instantiated on ASCII data: addition
    concatenates text of one type and adds integers, [str] of a value is
    its display form, decoding accepts ASCII bytes under the usual codec
    names.  New objects get an identity above those of the operands. *)
Module Interp.

Definition fresh_id (a b : PyObject) : nat := S (Nat.max (ob_id a) (ob_id b)).

Definition add_values (a b : PyObject) : PyResult :=
  match ob_val a, ob_val b with
  | PyUnicode s, PyUnicode t =>
      if String.eqb s "" then PyOk b
      else if String.eqb t "" then PyOk a
      else PyOk (mkPyObject (fresh_id a b) (PyUnicode (s +:+ t)))
  | PyBytes s, PyBytes t =>
      match s, t with
      | [], _ => PyOk b
      | _, [] => PyOk a
      | _, _ => PyOk (mkPyObject (fresh_id a b) (PyBytes (s ++ t)))
      end
  | PyByteArray s, PyByteArray t =>
      PyOk (mkPyObject (fresh_id a b) (PyByteArray (s ++ t)))
  | PyLong m, PyLong n => PyOk (mkPyObject (fresh_id a b) (PyLong (m + n)))
  | _, _ => PyFail (mkPyErr PyExc_TypeError "unsupported operand type(s) for +")
  end.

Definition inplace_add_values (a b : PyObject) : PyResult :=
  match ob_val a, ob_val b with
  | PyByteArray s, PyByteArray t => PyOk (mkPyObject (ob_id a) (PyByteArray (s ++ t)))
  | _, _ => add_values a b
  end.

Definition str_of (o : PyObject) : PyResult :=
  match ob_val o with
  | PyUnicode _ => PyOk o
  | PyBytes b =>
      PyOk (mkPyObject (S (ob_id o)) (PyUnicode ("b'" +:+ String.string_of_list_byte b +:+ "'")))
  | PyByteArray b =>
      PyOk (mkPyObject (S (ob_id o))
              (PyUnicode ("bytearray(b'" +:+ String.string_of_list_byte b +:+ "')")))
  | PyLong n => PyOk (mkPyObject (S (ob_id o)) (PyUnicode (pretty n)))
  | PyNoneValue => PyOk (mkPyObject (S (ob_id o)) (PyUnicode "None"))
  | PyCallable name => PyOk (mkPyObject (S (ob_id o)) (PyUnicode name))
  end.

Definition is_ascii_byte (b : byte) : bool := (Byte.to_nat b <? 128)%nat.

Definition known_codec (encoding : string) : bool :=
  String.eqb encoding "utf-8" || String.eqb encoding "ascii".

Definition decode (raw : list byte) (encoding errors : string) : PyResult :=
  if negb (known_codec encoding) then
    PyFail (mkPyErr PyExc_LookupError ("unknown encoding: " +:+ encoding))
  else if forallb is_ascii_byte raw then
    PyOk (mkPyObject 900 (PyUnicode (String.string_of_list_byte raw)))
  else if String.eqb errors "ignore" then
    PyOk (mkPyObject 900 (PyUnicode (String.string_of_list_byte (filter is_ascii_byte raw))))
  else
    PyFail (mkPyErr PyExc_UnicodeDecodeError "invalid start byte").

Definition find (s sub : PyObject) (start stop direction : Z) : Z :=
  match ob_val s, ob_val sub with
  | PyUnicode s, PyUnicode sub =>
      match String.index (Z.to_nat start) sub s with
      | Some i => Z.of_nat i
      | None => (-1)%Z
      end
  | _, _ => (-2)%Z
  end.

(** The built-in [str] called with a value, an encoding and an error
    mode. *)
Definition call_function (f : PyObject) (args : list PyObject) : PyResult :=
  match args with
  | [text; encoding; errors] =>
      match ob_val text, ob_val encoding, ob_val errors with
      | PyBytes b, PyUnicode enc, PyUnicode err => decode b enc err
      | PyByteArray b, PyUnicode enc, PyUnicode err => decode b enc err
      | PyUnicode _, _, _ =>
          PyFail (mkPyErr PyExc_TypeError "decoding str is not supported")
      | _, _, _ =>
          PyFail (mkPyErr PyExc_TypeError "decoding to str: need a bytes-like object")
      end
  | _ => PyFail (mkPyErr PyExc_TypeError "bad call")
  end.

#[export] Instance runtime : PyRuntime := {|
  PyNumber_Add := add_values;
  PyNumber_InPlaceAdd := inplace_add_values;
  PyObject_Str := str_of;
  PyUnicode_Decode := decode;
  PyUnicode_Find := find;
  PyUnicode_FromString := λ s, mkPyObject 901 (PyUnicode s);
  PyObject_CallFunction := call_function;
  Py_None := mkPyObject 0 PyNoneValue;
  is_notinterned_notfasttainted_unicode := λ _, false
|}.

(** The same interpreter started with [-bb]: [str] of a [bytes] or
    [bytearray] value raises BytesWarning. *)
Definition str_of_bb (o : PyObject) : PyResult :=
  match ob_val o with
  | PyBytes _ | PyByteArray _ =>
      PyFail (mkPyErr PyExc_BytesWarning "str() on a bytes instance")
  | _ => str_of o
  end.

Definition runtime_bb : PyRuntime := {|
  PyNumber_Add := add_values;
  PyNumber_InPlaceAdd := inplace_add_values;
  PyObject_Str := str_of_bb;
  PyUnicode_Decode := decode;
  PyUnicode_Find := find;
  PyUnicode_FromString := λ s, mkPyObject 901 (PyUnicode s);
  PyObject_CallFunction := call_function;
  Py_None := mkPyObject 0 PyNoneValue;
  is_notinterned_notfasttainted_unicode := λ _, false
|}.

End Interp.

(* ===================================================================== *)
(** ** Well-formed states and reference definitions used in statements *)
(* ===================================================================== *)

(** No dangling references: every map entry points to an allocated
    TaintedObject and every range reference held by a TaintedObject
    points to an allocated TaintRange. *)
Definition heap_valid (st : State) : Prop :=
  match tainting_map st with
  | Some m => map_Forall (λ _ p, p < length (tainted_objects st)) m
  | None => True
  end
  ∧ Forall (Forall (λ r, r < length (taint_ranges st))) (tainted_objects st).

(** The data-model invariant on the ranges of one value (specification,
    section 3 and glossary): a taint range is a span within the value,
    its start is not negative, and a range of length 0 is dropped on
    creation, so a TaintedObject holds none.  [range_within o r]: the
    range [r] is such a span of [o]. *)
Definition range_within (o : PyObject) (r : TR.t) : bool :=
  (0 <=? TR.start r)%Z && (0 <? TR.length r)%Z
  && (TR.start r + TR.length r <=? Z.of_nat (get_pyobject_size o))%Z.

(** Every range held by the TaintedObject of [o], if it has one, is a
    span of [o]. *)
Definition ranges_within_value (st : State) (o : PyObject) : bool :=
  match taint_entry st o with
  | Some p =>
      forallb (λ r, match taint_ranges st !! r with
                    | Some v => range_within o v
                    | None => false
                    end) (to_ranges st p)
  | None => true
  end.

(** What steps 2 to 5 of the add propagation (specification, section 4.2)
    make of the operands' records: the record the result is given, or
    [None] when the result is given no entry. [L] are the left operand's
    ranges and [R] the right operand's, shifted by the left operand's
    length. *)
Definition add_propagation_record (limit : nat) (st : State) (a b : PyObject)
  : option (list TR.t) :=
  let L := default [] (taint_record st a) in
  let R := TR.shift (Z.of_nat (get_pyobject_size a))
             <$> default [] (taint_record st b) in
  match taint_entry st a, taint_entry st b with
  | None, None => None
  | Some p, None => Some L
  | Some p, Some _ =>
      if limit <=? length (to_ranges st p) then Some L
      else Some (take limit (L ++ R))
  | None, Some _ => Some (take limit (L ++ R))
  end.

(** The pointer a C-API call hands back: NULL on failure. *)
Definition result_pointer (r : PyResult) : option PyObject :=
  match r with
  | PyOk o => Some o
  | PyFail _ => None
  end.

(* ===================================================================== *)
(** ** The un-instrumented [str], for comparison *)
(* ===================================================================== *)

Section Reference.
Context `{RT : PyRuntime}.

(** The un-instrumented conversion of a value, in the words of the
    specification: with neither an encoding nor an error-handling
    argument it is the plain stringification; the presence of either
    one, even with an empty encoding name, selects decode-from-bytes
    semantics, under which a value that is not byte-like makes the
    operation raise its natural error and a byte-like one is decoded,
    with utf-8 and strict standing in for what is absent or empty. *)
Definition uninstrumented_str (text : PyObject) (encoding errors : option string)
  : PyResult :=
  let or_default (d : string) (o : option string) : string :=
    match o with
    | Some s => if String.eqb s "" then d else s
    | None => d
    end in
  match encoding, errors with
  | None, None => PyObject_Str text
  | _, _ =>
      match ob_val text with
      | PyBytes b => PyUnicode_Decode b (or_default "utf-8" encoding) (or_default "strict" errors)
      | PyByteArray b => PyUnicode_Decode b (or_default "utf-8" encoding) (or_default "strict" errors)
      | PyUnicode _ => PyFail (mkPyErr PyExc_TypeError "decoding str is not supported")
      | _ => PyFail (mkPyErr PyExc_TypeError "decoding to str: need a bytes-like object")
      end
  end.

End Reference.

(** An optional argument of [str] as the call gives it: absent, or a
    non-empty [str] object holding the name. *)
Definition str_argument (o : option PyObject) (name : option string) : Prop :=
  match o, name with
  | None, None => True
  | Some o, Some s => ob_val o = PyUnicode s ∧ s ≠ ""
  | _, _ => False
  end.

(** The keyword names [get_args] acts on; it passes over any other
    (AspectStr.cpp:57-66). *)
Definition is_str_keyword (key : string) : bool :=
  String.eqb key "encoding" || String.eqb key "errors".

(** A call of the str aspect in the vectorcall convention: the positional
    arguments, followed by the values of the keyword arguments in the
    order of their names. *)
Definition call_args (positional : list PyObject) (keywords : list (string * PyObject))
  : list PyObject :=
  positional ++ keywords.*2.

Definition call_kwnames (keywords : list (string * PyObject)) : option (list string) :=
  Some keywords.*1.

(** The keyword arguments of a call that [str] knows. *)
Definition str_keywords (keywords : list (string * PyObject))
  : list (string * PyObject) :=
  filter (λ kv, is_str_keyword kv.1) keywords.

(** How many arguments a call of the str aspect passes on to [str]: the
    positional ones after the function and the flag, and the keyword
    ones. *)
Definition arguments_given (nargs : nat) (kwnames : option (list string)) : nat :=
  (nargs - 2) + length (default [] kwnames).

(** The arity failure of the un-instrumented [str], in the message
    format the aspect reproduces; [given] is the number of arguments of
    the call. *)
Definition str_arity_error (given : nat) : PyErr :=
  mkPyErr PyExc_TypeError
    ("str() takes at most 3 arguments (" +:+ pretty (Z.of_nat given) +:+ " given)").

(* ===================================================================== *)
(** ** Concrete inputs *)
(* ===================================================================== *)

Module Ex.

Definition src1 : Source := mkSource "src1" 0.
Definition src2 : Source := mkSource "src2" 1.

Definition A : PyObject := mkPyObject 1 (PyUnicode "abc").
Definition B : PyObject := mkPyObject 2 (PyUnicode "de").
Definition AB : PyObject := mkPyObject 3 (PyUnicode "abcde").

(** [A] carries [(0,3,src1)] and [B] carries [(0,2,src2)]. *)
Definition st_both : State :=
  mkState [TR.mk 0 3 src1; TR.mk 0 2 src2] [[0]; [1]]
          (Some (<[1 := 0]> (<[2 := 1]> ∅))) 10 None [] None [].

(** [A] carries [(0,3,src1)] and [B] carries [(0,1,src2)] and [(1,1,src2)]. *)
Definition st_two_right : State :=
  mkState [TR.mk 0 3 src1; TR.mk 0 1 src2; TR.mk 1 1 src2] [[0]; [1; 2]]
          (Some (<[1 := 0]> (<[2 := 1]> ∅))) 10 None [] None [].

(** Only [A] is tainted, with [(0,3,src1)]. *)
Definition st_left_only : State :=
  mkState [TR.mk 0 3 src1] [[0]] (Some (<[1 := 0]> ∅)) 10 None [] None [].

(** An empty and a one-byte [bytearray]; the second is tainted. *)
Definition BA0 : PyObject := mkPyObject 5 (PyByteArray []).
Definition BA1 : PyObject := mkPyObject 6 (PyByteArray ["x"%byte]).
Definition BA01 : PyObject := mkPyObject 7 (PyByteArray ["x"%byte]).

Definition st_bytearray : State :=
  mkState [TR.mk 0 1 src2] [[0]] (Some (<[6 := 0]> ∅)) 10 None [] None [].

(** A two-byte [bytearray], and the state in which it carries
    [(0,2,src1)] and [BA1] carries [(0,1,src2)]. *)
Definition BA2 : PyObject := mkPyObject 8 (PyByteArray ["y"%byte; "z"%byte]).

Definition st_bytearrays : State :=
  mkState [TR.mk 0 1 src2; TR.mk 0 2 src1] [[0]; [1]]
          (Some (<[6 := 0]> (<[8 := 1]> ∅))) 10 None [] None [].

(** Arguments of calls to the str aspect. *)
Definition str_fn : PyObject := mkPyObject 20 (PyCallable "str").
Definition flag : PyObject := mkPyObject 21 (PyLong 0).
Definition five : PyObject := mkPyObject 22 (PyLong 5).
Definition strict : PyObject := mkPyObject 24 (PyUnicode "strict").
Definition utf8 : PyObject := mkPyObject 25 (PyUnicode "utf-8").
Definition raw_ab : PyObject := mkPyObject 26 (PyBytes ["a"%byte; "b"%byte]).

Definition ignore : PyObject := mkPyObject 27 (PyUnicode "ignore").
Definition raw_ff : PyObject := mkPyObject 28 (PyBytes ["255"%byte]).

(** The message of the arity check of the aspect entry points. *)
Definition msg_n_params : string := "invalid number of parameters".

(** The first byte of [raw_ab] is tainted: [(0,1,src1)]. *)
Definition st_bytes : State :=
  mkState [TR.mk 0 1 src1] [[0]] (Some (<[26 := 0]> ∅)) 10 None [] None [].

(** [st_both] with a fault scheduled for the second helper call. *)
Definition st_faulty : State :=
  with_fault (Some (1, std_exception "boom")) st_both.

(** [st_left_only] with a fault scheduled for the fifth helper call: in
    [A + B] that is the store of the result's entry. *)
Definition st_store_fails : State :=
  with_fault (Some (4, std_exception "boom")) st_left_only.

(** [raw_ff] carries [(0,1,src1)]. *)
Definition st_ff : State :=
  mkState [TR.mk 0 1 src1] [[0]] (Some (<[28 := 0]> ∅)) 10 None [] None [].

(** An empty [str]. *)
Definition E : PyObject := mkPyObject 900 (PyUnicode "").

End Ex.

(* ===================================================================== *)
(** ** How computations treat the scheduled fault *)
(* ===================================================================== *)

(** [m] never throws, and touches neither the fault schedule nor the
    log; its results satisfy [P]. *)
Definition silent {A} (P : A → Prop) (m : M A) : Prop :=
  ∀ st, ∃ a st',
    m st = (Ret a, st') ∧ P a
    ∧ fault st' = fault st ∧ iast_log st' = iast_log st.

(** [m] throws only when the scheduled fault fires, and then the taint
    map is as it was on entry; it does not log; its results satisfy [P]
    and are reached only without the fault having fired; it ends the
    process only if [C] holds, and not after the fault has fired. *)
Definition final_unless (C : Prop) {A} (P : A → Prop) (m : M A) : Prop :=
  ∀ st,
    match m st with
    | (Ret a, st') =>
        P a ∧ iast_log st' = iast_log st
        ∧ match fault st' with
          | None => fault st = None
          | Some (_, e) => ∃ n, fault st = Some (n, e)
          end
    | (Throw e, st') =>
        iast_log st' = iast_log st
        ∧ tainting_map st' = tainting_map st
        ∧ fault st' = None
        ∧ ∃ n, fault st = Some (n, e)
    | (Crash, st') =>
        C ∧ match fault st' with
            | None => fault st = None
            | Some (_, e) => ∃ n, fault st = Some (n, e)
            end
    end.

(** The same of a computation that never ends the process. *)
Definition final {A} (P : A → Prop) (m : M A) : Prop := final_unless False P m.

(** [PyObject_Str] fails on a value that is not a [str]: the case in
    which the propagation block of the str aspect holds a null
    [check_offset] when it reaches [Py_DECREF(check_offset)]. *)
Definition null_check_offset `{RT : PyRuntime} (text : PyObject) : Prop :=
  PyUnicode_Check text = false ∧ ∃ err, PyObject_Str text = PyFail err.

(** [m] leaves the taint map as it is. *)
Definition keeps_map {A} (m : M A) : Prop :=
  ∀ st, tainting_map (m st).2 = tainting_map st.

(** [m] neither consults nor changes the fault schedule, and leaves the
    log and the taint map alone: run under another schedule it does the
    same. *)
Definition plain {A} (m : M A) : Prop :=
  ∀ st,
    (∀ f, m (with_fault f st) = ((m st).1, with_fault f (m st).2))
    ∧ iast_log (m st).2 = iast_log st
    ∧ tainting_map (m st).2 = tainting_map st.

(** A fault that fires inside [m] is contained: [m] still returns a
    pointer to an object, the fault has been logged under the aspect's
    name, and the taint map is as it was. *)
Definition contained (name : string) (m : M (option PyObject)) : Prop :=
  ∀ st n e,
    fault st = Some (n, e) →
    fault (m st).2 = None →
    (∃ r, (m st).1 = Ret (Some r))
    ∧ iast_log (m st).2 = aspect_error_message name e :: iast_log st
    ∧ tainting_map (m st).2 = tainting_map st.

(* ===================================================================== *)
(** ** What a computation leaves alone *)
(* ===================================================================== *)

(** [st'] has the taint map, the TaintedObjects and the TaintRanges of
    [st]. *)
Definition taint_same (st' st : State) : Prop :=
  tainting_map st' = tainting_map st
  ∧ tainted_objects st' = tainted_objects st
  ∧ taint_ranges st' = taint_ranges st.

(** Started with a taint map that satisfies [C], [m] leaves the map and
    both heaps as they are. *)
Definition frame_when (C : option (gmap nat addr) → Prop) {A} (m : M A) : Prop :=
  ∀ st, C (tainting_map st) → taint_same (m st).2 st.

(** [m] always returns: it lets no exception out and does not end the
    process. *)
Definition returns {A} (m : M A) : Prop :=
  ∀ st, ∃ a, (m st).1 = Ret a.

(** The outcome [o] is the value [a], or it is the end of the process
    and then [C] holds. *)
Definition ret_unless {A} (C : Prop) (a : A) (o : outcome A) : Prop :=
  o = Ret a ∨ (o = Crash ∧ C).

(** [m] lets no exception out, and ends the process only if [C] holds. *)
Definition returns_unless (C : Prop) {A} (m : M A) : Prop :=
  ∀ st, (∃ a, (m st).1 = Ret a) ∨ ((m st).1 = Crash ∧ C).

(* ===================================================================== *)
(** * The profile uploader

    A shallow embedding of
      ddtrace/internal/datadog/profiling/dd_wrapper/src/uploader.cpp
    The calls into libdatadog and the mutex operations are recorded in
    order, so that what is dropped, cancelled and sent, and when, can be
    read off the record. *)
(* ===================================================================== *)

Module Uploader.

(** Handles of libdatadog objects. *)
Inductive ddog_Error := mk_ddog_Error (message : string).
Inductive ddog_prof_Exporter_Request := mk_Request (id : nat).

(** [ddog_prof_EncodedProfile] *)
Record ddog_prof_EncodedProfile := mk_EncodedProfile {
  buffer : list byte;
  start : Z;
  end_ : Z;
  endpoints_stats : nat;
}.

(** [ddog_prof_Exporter_File] *)
Record ddog_prof_Exporter_File := mk_File {
  name : string;
  file : list byte;
}.

Inductive ddog_prof_Profile_SerializeResult :=
| SERIALIZE_RESULT_OK (ok : ddog_prof_EncodedProfile)
| SERIALIZE_RESULT_ERR (err : ddog_Error).

Inductive ddog_prof_Exporter_Request_BuildResult :=
| REQUEST_BUILD_RESULT_OK (ok : ddog_prof_Exporter_Request)
| REQUEST_BUILD_RESULT_ERR (err : ddog_Error).

Inductive ddog_prof_Exporter_SendResult :=
| SEND_RESULT_HTTP_RESPONSE (code : nat)
| SEND_RESULT_ERR (err : ddog_Error).

(** What libdatadog answers.  [err_to_msg] comes from
    libdatadog_helpers.hpp, which is not among the sources; it is taken
    as given like the library itself. *)
Class Libdatadog := {
  ddog_prof_Profile : Type;
  ddog_prof_Profile_serialize : ddog_prof_Profile → ddog_prof_Profile_SerializeResult;
  ddog_prof_Exporter_Request_build :
    nat → Z → Z → list ddog_prof_Exporter_File → list ddog_prof_Exporter_File → nat →
    ddog_prof_Exporter_Request_BuildResult;
  ddog_prof_Exporter_send :
    nat → ddog_prof_Exporter_Request → option nat → ddog_prof_Exporter_SendResult;
  err_to_msg : ddog_Error → string → string;
}.

(** What the operating system answers: the process id, and for an
    [ofstream] on a file
    - [ofstream_open]: whether opening fails, with the text of
      [strerror(errno)] if it does;
    - [ofstream_write]: whether the stream is in a failed state right
      after [out.write], with the text of [strerror(errno)] if it is;
      the bytes written may still sit in the stream's buffer then;
    - [ofstream_close]: the bytes the file holds once the stream's
      destructor has flushed and closed it: the bytes written if nothing
      fails, and whatever got through otherwise.
    [upload_seq_modulus] is the number of values of the type of
    [upload_seq]; the counter is declared in uploader.hpp, which is not
    among the sources. *)
Class System := {
  getpid : Z;
  ofstream_open : string → option string;
  ofstream_write : string → list byte → option string;
  ofstream_close : string → list byte → list byte;
  upload_seq_modulus : N;
}.

(** The calls that change something outside the uploader, in the order
    they are made. *)
Inductive call :=
| Profile_serialize
| EncodedProfile_drop (encoded : ddog_prof_EncodedProfile)
| Exporter_Request_build (exporter : nat) (files : list ddog_prof_Exporter_File)
| Exporter_send (exporter : nat) (req : ddog_prof_Exporter_Request) (cancel : option nat)
| Exporter_Request_drop (req : ddog_prof_Exporter_Request)
| Error_drop (err : ddog_Error)
| CancellationToken_new (token : nat)
| CancellationToken_clone (token clone : nat)
| CancellationToken_cancel (token : nat)
| CancellationToken_drop (token : nat)
| mutex_lock
| mutex_unlock.

(** The members of the uploader at hand ([output_filename],
    [ddog_exporter], [errmsg]), the members shared by all uploaders
    ([upload_seq], [upload_lock], [cancel]), and the world around them:
    the files written, the lines sent to [std::cerr], the calls made
    and the next unused token handle. *)
Record State := mkState {
  output_filename : string;
  ddog_exporter : nat;
  errmsg : string;
  upload_seq : N;
  upload_lock : bool;
  cancel : option nat;
  files : gmap string (list byte);
  cerr : list string;
  calls : list call;
  next_token : nat;
}.

Definition with_uploader (f : string) (e : nat) (m : string) (st : State) : State :=
  mkState f e m (upload_seq st) (upload_lock st) (cancel st)
          (files st) (cerr st) (calls st) (next_token st).

Definition with_errmsg (m : string) (st : State) : State :=
  mkState (output_filename st) (ddog_exporter st) m (upload_seq st) (upload_lock st)
          (cancel st) (files st) (cerr st) (calls st) (next_token st).

Definition with_upload_seq (n : N) (st : State) : State :=
  mkState (output_filename st) (ddog_exporter st) (errmsg st) n (upload_lock st)
          (cancel st) (files st) (cerr st) (calls st) (next_token st).

Definition with_upload_lock (b : bool) (st : State) : State :=
  mkState (output_filename st) (ddog_exporter st) (errmsg st) (upload_seq st) b
          (cancel st) (files st) (cerr st) (calls st) (next_token st).

Definition with_cancel (c : option nat) (st : State) : State :=
  mkState (output_filename st) (ddog_exporter st) (errmsg st) (upload_seq st)
          (upload_lock st) c (files st) (cerr st) (calls st) (next_token st).

Definition with_files (fs : gmap string (list byte)) (st : State) : State :=
  mkState (output_filename st) (ddog_exporter st) (errmsg st) (upload_seq st)
          (upload_lock st) (cancel st) fs (cerr st) (calls st) (next_token st).

Definition with_cerr (l : list string) (st : State) : State :=
  mkState (output_filename st) (ddog_exporter st) (errmsg st) (upload_seq st)
          (upload_lock st) (cancel st) (files st) l (calls st) (next_token st).

Definition with_calls (l : list call) (st : State) : State :=
  mkState (output_filename st) (ddog_exporter st) (errmsg st) (upload_seq st)
          (upload_lock st) (cancel st) (files st) (cerr st) l (next_token st).

Definition with_next_token (n : nat) (st : State) : State :=
  mkState (output_filename st) (ddog_exporter st) (errmsg st) (upload_seq st)
          (upload_lock st) (cancel st) (files st) (cerr st) (calls st) n.

(** A computation returns, waits for the mutex for good ([Blocked]: it
    is held and nothing in the computation releases it), or has no
    defined behaviour ([Undefined]: unlocking a mutex that is not
    held). *)
Inductive outcome (A : Type) :=
| Ret (a : A)
| Blocked
| Undefined.
Arguments Ret {A} a.
Arguments Blocked {A}.
Arguments Undefined {A}.

Definition M (A : Type) : Type := State → outcome A * State.

#[local] Instance M_ret : MRet M := λ A a st, (Ret a, st).

#[local] Instance M_bind : MBind M := λ A B f m st,
  match m st with
  | (Ret a, st') => f a st'
  | (Blocked, st') => (Blocked, st')
  | (Undefined, st') => (Undefined, st')
  end.

Definition gets {A} (f : State → A) : M A := λ st, (Ret (f st), st).

Definition modify (f : State → State) : M unit := λ st, (Ret (), f st).

(** One more call on the record. *)
Definition log (c : call) : M unit :=
  modify (λ st, with_calls (calls st ++ [c]) st).

(** [std::cerr << line << std::endl] *)
Definition cerr_endl (line : string) : M unit :=
  modify (λ st, with_cerr (cerr st ++ [line]) st).

(** [upload_lock.lock()] *)
Definition lock : M unit := λ st,
  if upload_lock st then (Blocked, st)
  else (Ret (), with_upload_lock true (with_calls (calls st ++ [mutex_lock]) st)).

(** [upload_lock.unlock()] *)
Definition unlock : M unit := λ st,
  if upload_lock st
  then (Ret (), with_upload_lock false (with_calls (calls st ++ [mutex_unlock]) st))
  else (Undefined, st).

Definition DdogCancellationTokenDeleter (ptr : option nat) : M unit :=
  match ptr with
  | Some token =>
      log (CancellationToken_cancel token);;
      log (CancellationToken_drop token)
  | None => mret ()
  end.

(** [cancel.reset(ptr)]: the new pointer is stored, then the deleter
    runs on the old one. *)
Definition cancel_reset (ptr : option nat) : M unit :=
  old ← gets cancel;
  modify (with_cancel ptr);;
  DdogCancellationTokenDeleter old.

Definition ddog_CancellationToken_new : M nat :=
  token ← gets next_token;
  modify (with_next_token (S token));;
  log (CancellationToken_new token);;
  mret token.

Definition ddog_CancellationToken_clone (ptr : option nat) : M (option nat) :=
  match ptr with
  | Some token =>
      clone ← gets next_token;
      modify (with_next_token (S clone));;
      log (CancellationToken_clone token clone);;
      mret (Some clone)
  | None => mret None
  end.

Section Uploader.
Context `{LD : Libdatadog} `{OS : System}.

(** [Uploader::Uploader] *)
Definition Uploader (_output_filename : string) (_ddog_exporter : nat) : M unit :=
  modify (with_uploader _output_filename _ddog_exporter "");;
  modify (λ st, with_upload_seq ((upload_seq st + 1) mod upload_seq_modulus)%N st).

(** [<output_filename>.<process_id>.<sequence_number>] *)
Definition export_filename (st : State) : string :=
  output_filename st +:+ "." +:+ pretty getpid +:+ "." +:+ pretty (upload_seq st).

Definition export_to_file (encoded : ddog_prof_EncodedProfile) : M bool :=
  filename ← gets export_filename;
  match ofstream_open filename with
  | Some err =>
      cerr_endl ("Error opening output file " +:+ filename +:+ ": " +:+ err);;
      mret false
  | None =>
      modify (λ st, with_files (<[filename := []]> (files st)) st);;
      ret ← match ofstream_write filename (buffer encoded) with
            | Some err =>
                cerr_endl
                  ("Error writing to output file " +:+ filename +:+ ": " +:+ err);;
                mret false
            | None => mret true
            end;
      (* [out] goes out of scope: flush and close, the outcome unchecked *)
      modify (λ st,
        with_files
          (<[filename := ofstream_close filename (buffer encoded)]> (files st)) st);;
      mret ret
  end.

Definition cancel_inflight : M unit := cancel_reset None.

(** What [upload] does with an error of libdatadog. *)
Definition report_error (err : ddog_Error) (context : string) : M unit :=
  modify (with_errmsg (err_to_msg err context));;
  msg ← gets errmsg;
  cerr_endl msg;;
  log (Error_drop err).

Definition upload (profile : ddog_prof_Profile) : M bool :=
  log Profile_serialize;;
  match ddog_prof_Profile_serialize profile with
  | SERIALIZE_RESULT_ERR err =>
      report_error err "Error serializing pprof";;
      mret false
  | SERIALIZE_RESULT_OK encoded =>
      to_file ← gets (λ st, negb (String.eqb (output_filename st) ""));
      if (to_file : bool) then
        ret ← export_to_file encoded;
        log (EncodedProfile_drop encoded);;
        mret ret
      else
        exporter ← gets ddog_exporter;
        let file := mk_File "auto.pprof" (buffer encoded) in
        log (Exporter_Request_build exporter [file]);;
        let build_res :=
          ddog_prof_Exporter_Request_build exporter (start encoded) (end_ encoded)
            [] [file] (endpoints_stats encoded) in
        log (EncodedProfile_drop encoded);;
        match build_res with
        | REQUEST_BUILD_RESULT_ERR err =>
            report_error err "Error building request";;
            mret false
        | REQUEST_BUILD_RESULT_OK req =>
            cancel_inflight;;
            token ← ddog_CancellationToken_new;
            cancel_reset (Some token);;
            current ← gets cancel;
            cancel_for_request ← ddog_CancellationToken_clone current;
            lock;;
            log (Exporter_send exporter req cancel_for_request);;
            sent ← match ddog_prof_Exporter_send exporter req cancel_for_request with
                   | SEND_RESULT_ERR err =>
                       report_error err "Error uploading";;
                       mret false
                   | SEND_RESULT_HTTP_RESPONSE _ =>
                       log (Exporter_Request_drop req);;
                       mret true
                   end;
            unlock;;
            DdogCancellationTokenDeleter cancel_for_request;;
            mret sent
        end
  end.

Definition prefork : M unit :=
  lock;;
  cancel_inflight.

Definition postfork_parent : M unit := unlock.

Definition postfork_child : M unit := unlock.

End Uploader.

(** The calls on the record of [st'] that were not yet on the record of
    [st]. *)
Definition new_calls (st st' : State) : list call :=
  drop (length (calls st)) (calls st').

Definition is_EncodedProfile_drop (c : call) : bool :=
  match c with EncodedProfile_drop _ => true | _ => false end.

Definition is_Error_drop (c : call) : bool :=
  match c with Error_drop _ => true | _ => false end.

Definition is_Exporter_send (c : call) : bool :=
  match c with Exporter_send _ _ _ => true | _ => false end.

(** Concrete answers, to run the uploader: every profile serializes to
    its own bytes, a request with an empty file fails to build, sending
    succeeds unless the exporter is number 0, and the only file that
    cannot be opened is the one under [/proc]. *)
Module Ex.

#[export] Instance libdatadog : Libdatadog := {|
  ddog_prof_Profile := list byte;
  ddog_prof_Profile_serialize p := SERIALIZE_RESULT_OK (mk_EncodedProfile p 0 60 0);
  ddog_prof_Exporter_Request_build exporter start end_ compressed files stats :=
    match files with
    | [mk_File _ (_ :: _)] => REQUEST_BUILD_RESULT_OK (mk_Request 1)
    | _ => REQUEST_BUILD_RESULT_ERR (mk_ddog_Error "empty profile")
    end;
  ddog_prof_Exporter_send exporter req cancel :=
    match exporter with
    | 0 => SEND_RESULT_ERR (mk_ddog_Error "connection refused")
    | _ => SEND_RESULT_HTTP_RESPONSE 200
    end;
  err_to_msg err context :=
    match err with mk_ddog_Error m => context +:+ ": " +:+ m end;
|}.

#[export] Instance system : System := {|
  getpid := 4242;
  ofstream_open f :=
    if String.prefix "/proc" f then Some "Permission denied" else None;
  ofstream_write f b := None;
  ofstream_close f b := b;
  upload_seq_modulus := 2 ^ 64;
|}.

(** The same system with a full disk: the bytes written fit the
    stream's buffer, so the stream reports no failure, and none of them
    reaches the file when the stream is closed. *)
Definition system_full : System := {|
  getpid := 4242;
  ofstream_open f :=
    if String.prefix "/proc" f then Some "Permission denied" else None;
  ofstream_write f b := None;
  ofstream_close f b := [];
  upload_seq_modulus := 2 ^ 64;
|}.

Definition profile : list byte := ["p"%byte; "b"%byte].

(** A process in which nothing was uploaded yet. *)
Definition st0 : State := mkState "" 0 "" 0 false None ∅ [] [] 0.

(** An uploader that exports to files, just built. *)
Definition st_file : State := (Uploader "out/profile" 7 st0).2.

(** An uploader that sends to the backend, just built, with the token of
    an earlier upload still held. *)
Definition st_send : State := with_cancel (Some 0) (with_next_token 1 (Uploader "" 7 st0).2).

End Ex.

End Uploader.


(* ===================================================================== *)
(** ** Running the helpers when no fault is scheduled *)
(* ===================================================================== *)

Lemma tick_no_fault st : fault st = None → tick st = (Ret (), st).
Proof. intros H. unfold tick. by rewrite H. Qed.

Lemma get_tainting_map_no_fault st :
  fault st = None → get_tainting_map st = (Ret (tainting_map st), st).
Proof. intros H. unfold get_tainting_map, mbind, M_bind. by rewrite tick_no_fault. Qed.

Lemma get_tainted_object_no_fault o st :
  fault st = None → get_tainted_object o st = (Ret (taint_entry st o), st).
Proof. intros H. unfold get_tainted_object, mbind, M_bind. by rewrite tick_no_fault. Qed.

Lemma new_pyobject_id_no_fault o st :
  fault st = None →
  new_pyobject_id (Some o) st
  = (Ret (Some (mkPyObject (next_id st) (ob_val o))), with_next_id (S (next_id st)) st).
Proof. intros H. unfold new_pyobject_id, mbind, M_bind. by rewrite tick_no_fault. Qed.

Lemma set_tainted_object_no_fault o p st :
  fault st = None →
  set_tainted_object (Some o) p st
  = (Ret (), with_tainting_map (<[ob_id o := p]> <$> tainting_map st) st).
Proof. intros H. unfold set_tainted_object, mbind, M_bind. by rewrite tick_no_fault. Qed.

Lemma allocate_tainted_object_copy_no_fault from st :
  fault st = None →
  let vs := match from with
            | Some p => range_values st (to_ranges st p)
            | None => []
            end in
  allocate_tainted_object_copy from st
  = (Ret (length (tainted_objects st)),
     with_tainted_objects
       (tainted_objects st ++ [seq (length (taint_ranges st)) (length vs)])
       (with_taint_ranges (taint_ranges st ++ vs) st)).
Proof.
  intros H vs. unfold allocate_tainted_object_copy, mbind, M_bind.
  by rewrite tick_no_fault.
Qed.

Lemma add_ranges_shifted_no_fault limit self other off st :
  fault st = None →
  let vs := TR.shift off <$> range_values st (to_ranges st other) in
  add_ranges_shifted limit self other off st
  = (Ret (),
     with_tainted_objects
       (<[self := take limit (to_ranges st self
                              ++ seq (length (taint_ranges st)) (length vs))]>
          (tainted_objects st))
       (with_taint_ranges (taint_ranges st ++ vs) st)).
Proof.
  intros H vs. unfold add_ranges_shifted, mbind, M_bind.
  by rewrite tick_no_fault.
Qed.

Lemma get_ranges_no_fault o st m :
  fault st = None → tainting_map st = Some m →
  get_ranges o st
  = (Ret (match m !! ob_id o with Some p => to_ranges st p | None => [] end, false), st).
Proof.
  intros H Hm. unfold get_ranges, mbind, M_bind, gets.
  by rewrite tick_no_fault, Hm.
Qed.

Lemma set_ranges_no_fault o ranges st :
  fault st = None → ranges ≠ [] →
  let vs := range_values st ranges in
  set_ranges o ranges st
  = (Ret (),
     with_tainting_map (<[ob_id o := length (tainted_objects st)]> <$> tainting_map st)
       (with_tainted_objects
          (tainted_objects st ++ [seq (length (taint_ranges st)) (length vs)])
          (with_taint_ranges (taint_ranges st ++ vs) st))).
Proof.
  intros H Hne vs. unfold set_ranges, mbind, M_bind.
  rewrite tick_no_fault by done. by rewrite bool_decide_eq_false_2.
Qed.

(* ===================================================================== *)
(** ** The heap of TaintRange instances *)
(* ===================================================================== *)

(** Reading back newly allocated instances gives the allocated values. *)
Lemma omap_lookup_fresh (h vs : list TR.t) (n : nat) :
  omap (λ r, (h ++ vs) !! r) (take n (seq (length h) (length vs))) = take n vs.
Proof.
  revert h n. induction vs as [|v vs IH]; intros h n.
  - simpl. by rewrite !take_nil.
  - destruct n as [|n]; [done|]. simpl.
    rewrite list_lookup_middle by done. simpl. f_equal.
    specialize (IH (h ++ [v]) n). rewrite length_app in IH. simpl in IH.
    rewrite Nat.add_1_r, <- app_assoc in IH. exact IH.
Qed.

Lemma omap_lookup_fresh_all (h vs : list TR.t) :
  omap (λ r, (h ++ vs) !! r) (seq (length h) (length vs)) = vs.
Proof.
  pose proof (omap_lookup_fresh h vs (length vs)) as H.
  rewrite !take_ge in H by (rewrite ?length_seq; lia). exact H.
Qed.

(** Allocation leaves the instances already there in place. *)
Lemma omap_lookup_old (h vs : list TR.t) (rs : list nat) :
  Forall (λ r, r < length h) rs →
  omap (λ r, (h ++ vs) !! r) rs = omap (λ r, h !! r) rs.
Proof.
  induction 1 as [|r rs Hr _ IH]; [done|]. simpl.
  rewrite lookup_app_l by done. destruct (h !! r); [f_equal|]; exact IH.
Qed.

Lemma heap_valid_entry st o q :
  heap_valid st → taint_entry st o = Some q →
  q < length (tainted_objects st)
  ∧ Forall (λ r, r < length (taint_ranges st)) (to_ranges st q).
Proof.
  intros [Hm Ht] Hq. unfold taint_entry in Hq.
  destruct (tainting_map st) as [m|]; [|done].
  assert (Hlt : q < length (tainted_objects st)) by (by eapply Hm).
  split; [done|]. unfold to_ranges.
  destruct (tainted_objects st !! q) as [rs|] eqn:E; [|by constructor].
  simpl. eapply Forall_lookup_1 in Ht; eauto.
Qed.

Lemma taint_record_entry st o :
  taint_record st o = (λ p, range_values st (to_ranges st p)) <$> taint_entry st o.
Proof. unfold taint_record, taint_entry. by destruct (tainting_map st). Qed.

Lemma take_seq_ge (a n limit : nat) :
  Forall (λ r, a ≤ r) (take limit (seq a n)).
Proof.
  apply Forall_take, Forall_forall. intros r Hr.
  apply list_elem_of_In, in_seq in Hr. lia.
Qed.

(* ===================================================================== *)
(** ** add_aspect, path by path *)
(* ===================================================================== *)

Section AddAspect.
Context `{RT : PyRuntime}.
Variable limit : nat.

Ltac mstep := unfold mbind at 1; unfold M_bind.

(** Right operand empty, left not: the left operand comes back and the
    state is untouched. *)
Lemma add_aspect_empty_right result_o a b st :
  empty_right_fast_path a b = true →
  add_aspect limit result_o a b st = (Ret (Some a), st).
Proof. intros H. unfold add_aspect. by rewrite H. Qed.

(** Left operand empty, right not, and the addition handed back the right
    operand itself: the right operand comes back, state untouched. *)
Lemma add_aspect_empty_left result_o a b st :
  empty_right_fast_path a b = false →
  empty_left_fast_path result_o a b = true →
  add_aspect limit result_o a b st = (Ret (Some b), st).
Proof. intros H1 H2. unfold add_aspect. by rewrite H1, H2. Qed.

(** Left saturated, or only left tainted: the result is re-keyed to a new
    identity whose entry is the left operand's TaintedObject itself. *)
Lemma add_aspect_reuse_left result_o a b st p :
  fault st = None →
  empty_right_fast_path a b = false →
  empty_left_fast_path (Some result_o) a b = false →
  taint_entry st a = Some p →
  limit ≤ length (to_ranges st p) ∨ taint_entry st b = None →
  add_aspect limit (Some result_o) a b st
  = (Ret (Some (mkPyObject (next_id st) (ob_val result_o))),
     with_tainting_map (<[next_id st := p]> <$> tainting_map st)
       (with_released (ob_id result_o :: released st)
          (with_next_id (S (next_id st)) st))).
Proof.
  intros Hf H1 H2 Ha Hcase. unfold add_aspect. rewrite H1, H2.
  mstep. rewrite get_tainted_object_no_fault by done. rewrite Ha.
  mstep. unfold gets at 1.
  destruct (limit <=? length (to_ranges st p)) eqn:Hlim.
  - mstep. rewrite new_pyobject_id_no_fault by done.
    mstep. unfold Py_DecRef, modify at 1.
    mstep. by rewrite set_tainted_object_no_fault by done.
  - destruct Hcase as [Hle|Hb]; [apply Nat.leb_le in Hle; congruence|].
    mstep. rewrite get_tainted_object_no_fault by done. rewrite Hb.
    mstep. rewrite new_pyobject_id_no_fault by done.
    mstep. unfold Py_DecRef, modify at 1.
    mstep. by rewrite set_tainted_object_no_fault by done.
Qed.

(** Neither operand tainted: the result comes back, state untouched. *)
Lemma add_aspect_untainted result_o a b st :
  fault st = None →
  empty_right_fast_path a b = false →
  empty_left_fast_path result_o a b = false →
  taint_entry st a = None → taint_entry st b = None →
  add_aspect limit result_o a b st = (Ret result_o, st).
Proof.
  intros Hf H1 H2 Ha Hb. unfold add_aspect. rewrite H1, H2.
  mstep. rewrite get_tainted_object_no_fault by done. rewrite Ha.
  mstep. unfold gets at 1.
  mstep. rewrite get_tainted_object_no_fault by done. by rewrite Hb.
Qed.

(** The last branch: copy the left ranges, append the shifted right ones
    under the cap, and key the new TaintedObject by the result. *)
Lemma add_aspect_combine_run result_o (to_a : option nat) q off st :
  fault st = None →
  let L := match to_a with
           | Some p => range_values st (to_ranges st p)
           | None => []
           end in
  let R := TR.shift off <$> range_values st (to_ranges st q) in
  q < length (tainted_objects st) →
  Forall (λ r, r < length (taint_ranges st)) (to_ranges st q) →
  ∃ st',
    (tainted ← allocate_tainted_object_copy to_a;
     add_ranges_shifted limit tainted q off;;
     set_tainted_object (Some result_o) tainted;;
     mret (Some result_o)) st = (Ret (Some result_o), st')
    ∧ tainting_map st'
      = <[ob_id result_o := length (tainted_objects st)]> <$> tainting_map st
    ∧ to_ranges st' (length (tainted_objects st))
      = take limit (seq (length (taint_ranges st)) (length (L ++ R)))
    ∧ taint_ranges st' = taint_ranges st ++ (L ++ R).
Proof.
  intros Hf L R Hq Hqr.
  mstep. rewrite allocate_tainted_object_copy_no_fault by done. fold L.
  mstep. rewrite add_ranges_shifted_no_fault by done.
  mstep. rewrite set_tainted_object_no_fault by done.
  eexists. split; [reflexivity|].
  assert (HR : TR.shift off <$> range_values
                 (with_tainted_objects
                    (tainted_objects st ++ [seq (length (taint_ranges st)) (length L)])
                    (with_taint_ranges (taint_ranges st ++ L) st))
                 (to_ranges
                    (with_tainted_objects
                       (tainted_objects st ++ [seq (length (taint_ranges st)) (length L)])
                       (with_taint_ranges (taint_ranges st ++ L) st)) q) = R).
  { unfold R, range_values, to_ranges. simpl.
    rewrite lookup_app_l by done. f_equal. by apply omap_lookup_old. }
  rewrite HR. simpl. split; [done|]. split.
  - unfold to_ranges. simpl.
    rewrite list_lookup_insert_eq by (rewrite length_app; simpl; lia).
    simpl. rewrite list_lookup_middle by done. simpl.
    by rewrite !length_app, seq_app.
  - by rewrite app_assoc.
Qed.

(** Right operand tainted, left below the cap, no fast path: what the
    result's entry holds afterwards. *)
Lemma add_aspect_combine result_o a b st q :
  fault st = None → heap_valid st →
  empty_right_fast_path a b = false →
  empty_left_fast_path (Some result_o) a b = false →
  taint_entry st b = Some q →
  (∀ p, taint_entry st a = Some p → length (to_ranges st p) < limit) →
  let L := default [] (taint_record st a) in
  let R := TR.shift (Z.of_nat (get_pyobject_size a))
             <$> range_values st (to_ranges st q) in
  ∃ st',
    add_aspect limit (Some result_o) a b st = (Ret (Some result_o), st')
    ∧ taint_entry st' result_o = Some (length (tainted_objects st))
    ∧ to_ranges st' (length (tainted_objects st))
      = take limit (seq (length (taint_ranges st)) (length (L ++ R)))
    ∧ taint_record st' result_o = Some (take limit (L ++ R)).
Proof.
  intros Hf Hv Hfr Hfl Hb Ha L R.
  destruct (heap_valid_entry _ _ _ Hv Hb) as [Hq Hqr].
  destruct (add_aspect_combine_run result_o (taint_entry st a) q
              (Z.of_nat (get_pyobject_size a)) st Hf Hq Hqr)
    as (st' & Hrun & Hmap & Hto & Hrs).
  assert (HL : match taint_entry st a with
               | Some p => range_values st (to_ranges st p)
               | None => []
               end = L).
  { unfold L. rewrite taint_record_entry. by destruct (taint_entry st a). }
  rewrite HL in Hto, Hrs. fold R in Hto, Hrs.
  assert (Hentry : taint_entry st' result_o = Some (length (tainted_objects st))).
  { unfold taint_entry in *. rewrite Hmap.
    destruct (tainting_map st) as [m|]; [|done]. simpl. by rewrite lookup_insert_eq. }
  exists st'. split; [|split; [done|split; [done|]]].
  - unfold add_aspect. rewrite Hfr, Hfl.
    mstep. rewrite get_tainted_object_no_fault by done.
    mstep. unfold gets at 1.
    destruct (taint_entry st a) as [p|] eqn:E.
    + specialize (Ha p eq_refl). apply Nat.leb_gt in Ha. rewrite Ha.
      mstep. rewrite get_tainted_object_no_fault by done. rewrite Hb. exact Hrun.
    + mstep. rewrite get_tainted_object_no_fault by done. rewrite Hb. exact Hrun.
  - rewrite taint_record_entry, Hentry. simpl. f_equal.
    rewrite Hto. unfold range_values. rewrite Hrs.
    by rewrite omap_lookup_fresh.
Qed.

End AddAspect.

(* ===================================================================== *)
(** ** Concatenation: the result's taint record *)
(* ===================================================================== *)

(** When the combined sequence is longer than the cap, the result does
    not hold all of it, whatever the cap is. *)
Lemma add_aspect_combine_truncates limit result_o a b st q :
  fault st = None → heap_valid st →
  empty_right_fast_path a b = false →
  empty_left_fast_path (Some result_o) a b = false →
  taint_entry st b = Some q →
  (∀ p, taint_entry st a = Some p → length (to_ranges st p) < limit) →
  let all := default [] (taint_record st a)
             ++ (TR.shift (Z.of_nat (get_pyobject_size a))
                   <$> range_values st (to_ranges st q)) in
  limit < length all →
  taint_record (add_aspect limit (Some result_o) a b st).2 result_o ≠ Some all.
Proof.
  intros Hf Hv H1 H2 Hb Ha all Hlen.
  destruct (add_aspect_combine limit result_o a b st q Hf Hv H1 H2 Hb Ha)
    as (st' & Hrun & _ & _ & Hrec).
  rewrite Hrun. simpl. rewrite Hrec. fold all. intros [= Heq].
  apply (f_equal length) in Heq. rewrite length_take in Heq. lia.
Qed.

(** C1 (as amended).  For every concatenation that takes neither
    empty-operand fast path, where the right operand is tainted and the
    left operand is untainted or holds fewer than TAINT_RANGE_LIMIT
    ranges, the result's taint record is the first TAINT_RANGE_LIMIT
    ranges of: the left operand's ranges in their original order followed
    by the right operand's ranges, each with its start increased by the
    left operand's length. *)
Theorem add_aspect_concat_ranges (limit : nat) (result_o a b : PyObject)
    (st : State) (q : nat) :
  fault st = None → heap_valid st →
  empty_right_fast_path a b = false →
  empty_left_fast_path (Some result_o) a b = false →
  taint_entry st b = Some q →
  (∀ p, taint_entry st a = Some p → length (to_ranges st p) < limit) →
  ∃ st',
    add_aspect limit (Some result_o) a b st = (Ret (Some result_o), st')
    ∧ taint_record st' result_o
      = Some (take limit
                (default [] (taint_record st a)
                 ++ (TR.shift (Z.of_nat (get_pyobject_size a))
                       <$> default [] (taint_record st b)))).
Proof.
  intros Hf Hv H1 H2 Hb Ha.
  destruct (add_aspect_combine limit result_o a b st q Hf Hv H1 H2 Hb Ha)
    as (st' & Hrun & _ & _ & Hrec).
  exists st'. split; [done|]. rewrite Hrec.
  by rewrite (taint_record_entry st b), Hb.
Qed.

(** The example of the specification: A of length 3 with [(0,3,src1)]
    and B with [(0,2,src2)] give [(0,3,src1), (3,2,src2)]. *)
Lemma add_aspect_concat_ranges_witness :
  ∃ st',
    add_aspect 100 (Some Ex.AB) Ex.A Ex.B Ex.st_both = (Ret (Some Ex.AB), st')
    ∧ taint_record st' Ex.AB = Some [TR.mk 0 3 Ex.src1; TR.mk 3 2 Ex.src2].
Proof.
  destruct (add_aspect_concat_ranges 100 Ex.AB Ex.A Ex.B Ex.st_both 1)
    as (st' & H1 & H2).
  - reflexivity.
  - split; [|repeat constructor].
    apply map_Forall_insert_2; [simpl; lia|].
    apply map_Forall_insert_2; [simpl; lia|]. apply map_Forall_empty.
  - reflexivity.
  - reflexivity.
  - vm_compute. reflexivity.
  - intros p Hp. vm_compute in Hp. injection Hp as <-. vm_compute. lia.
  - exists st'. split; [exact H1|]. rewrite H2. vm_compute. reflexivity.
Defined.

(** C1 fails as stated: with a cap of 2, a left operand holding one range
    (below the cap) and a right operand holding two, the result holds two
    ranges, not the three of the full concatenation. *)
Lemma add_aspect_concat_ranges_counterexample :
  fault Ex.st_two_right = None
  ∧ taint_entry Ex.st_two_right Ex.A = Some 0
  ∧ length (to_ranges Ex.st_two_right 0) < 2
  ∧ taint_entry Ex.st_two_right Ex.B = Some 1
  ∧ (add_aspect 2 (Some Ex.AB) Ex.A Ex.B Ex.st_two_right).1 = Ret (Some Ex.AB)
  ∧ taint_record (add_aspect 2 (Some Ex.AB) Ex.A Ex.B Ex.st_two_right).2 Ex.AB
    = Some [TR.mk 0 3 Ex.src1; TR.mk 3 1 Ex.src2]
  ∧ default [] (taint_record Ex.st_two_right Ex.A)
    ++ (TR.shift 3 <$> default [] (taint_record Ex.st_two_right Ex.B))
    = [TR.mk 0 3 Ex.src1; TR.mk 3 1 Ex.src2; TR.mk 4 1 Ex.src2].
Proof. vm_compute. repeat split; try reflexivity; lia. Qed.

(** A value that holds a range within itself is not empty. *)
Lemma ranges_within_value_nonempty (st : State) (o : PyObject) (p : nat) :
  ranges_within_value st o = true →
  taint_entry st o = Some p →
  0 < length (to_ranges st p) →
  0 < get_pyobject_size o.
Proof.
  unfold ranges_within_value. intros Hin Hp Hlen. rewrite Hp in Hin.
  destruct (to_ranges st p) as [|r rs]; [simpl in Hlen; lia|].
  simpl in Hin. apply andb_true_iff in Hin as [Hr _].
  destruct (taint_ranges st !! r) as [v|]; [|done].
  unfold range_within in Hr.
  apply andb_true_iff in Hr as [Hr Hend]. apply andb_true_iff in Hr as [Hstart Hpos].
  apply Z.leb_le in Hstart, Hend. apply Z.ltb_lt in Hpos. lia.
Qed.

(** C2.  For every concatenation where the left operand's TaintedObject
    holds TAINT_RANGE_LIMIT ranges (or more), the result's taint record
    is exactly the left operand's ranges, whatever the taint of the right
    operand. The cap is positive and the left operand's ranges lie
    within it, as the data model has it: the left operand is then not
    empty, so the fast path for an empty left operand does not come
    before the look-up of the left operand's TaintedObject. What is
    returned is the left operand itself when the right operand is empty,
    and otherwise the result of the concatenation re-keyed to a new
    identity, whose entry is the left operand's TaintedObject. *)
Theorem add_aspect_saturated_left (limit : nat) (result_o a b : PyObject)
    (st : State) (p : nat) :
  fault st = None →
  0 < limit →
  ranges_within_value st a = true →
  taint_entry st a = Some p →
  limit ≤ length (to_ranges st p) →
  ∃ r st',
    add_aspect limit (Some result_o) a b st = (Ret (Some r), st')
    ∧ taint_record st' r = taint_record st a
    ∧ taint_record st a = Some (range_values st (to_ranges st p))
    ∧ (if empty_right_fast_path a b then r = a ∧ st' = st
       else r = mkPyObject (next_id st) (ob_val result_o)
            ∧ taint_entry st' r = Some p).
Proof.
  intros Hf Hpos Hin Ha Hlim.
  assert (Hsize : 0 < get_pyobject_size a).
  { apply (ranges_within_value_nonempty st a p); [done..|lia]. }
  assert (H2 : empty_left_fast_path (Some result_o) a b = false).
  { unfold empty_left_fast_path.
    destruct (get_pyobject_size a) as [|n]; [lia|]. simpl.
    by rewrite andb_false_r. }
  assert (Hrec : taint_record st a = Some (range_values st (to_ranges st p))).
  { by rewrite taint_record_entry, Ha. }
  destruct (empty_right_fast_path a b) eqn:H1.
  - exists a, st. by rewrite add_aspect_empty_right.
  - eexists _, _. split; [by apply add_aspect_reuse_left; eauto|].
    split; [|split; [done|split; [done|]]].
    + rewrite Hrec, taint_record_entry. unfold taint_entry in *.
      simpl. destruct (tainting_map st); [|done]. simpl. by rewrite lookup_insert_eq.
    + unfold taint_entry in *. simpl.
      destruct (tainting_map st); [|done]. simpl. by rewrite lookup_insert_eq.
Qed.

Lemma add_aspect_saturated_left_witness :
  ∃ r st',
    add_aspect 1 (Some Ex.AB) Ex.A Ex.B Ex.st_both = (Ret (Some r), st')
    ∧ taint_record st' r = Some [TR.mk 0 3 Ex.src1]
    ∧ r = mkPyObject 10 (PyUnicode "abcde").
Proof.
  destruct (add_aspect_saturated_left 1 Ex.AB Ex.A Ex.B Ex.st_both 0)
    as (r & st' & H1 & H2 & H3 & H4 & _).
  - reflexivity.
  - lia.
  - reflexivity.
  - reflexivity.
  - vm_compute. lia.
  - exists r, st'. split; [exact H1|].
    split; [rewrite H2, H3; vm_compute; reflexivity | exact H4].
Defined.

(** A range shifted by nothing is the range. *)
Lemma TR_shift_0 (r : TR.t) : TR.shift 0 r = r.
Proof. destruct r as [s l src]. unfold TR.shift. simpl. by rewrite Z.add_0_r. Qed.

(** The record of the object [add_aspect] hands out when it re-keys the
    result to the left operand's TaintedObject. *)
Lemma taint_record_reuse_left (st : State) (result_o a : PyObject) (p : nat) :
  taint_entry st a = Some p →
  taint_record
    (with_tainting_map (<[next_id st := p]> <$> tainting_map st)
       (with_released (ob_id result_o :: released st)
          (with_next_id (S (next_id st)) st)))
    (mkPyObject (next_id st) (ob_val result_o))
  = taint_record st a.
Proof.
  intros Ha. rewrite !taint_record_entry, Ha. unfold taint_entry in *. simpl.
  destruct (tainting_map st); [|done]. simpl. by rewrite lookup_insert_eq.
Qed.

(** C3 (as amended).  With the right operand empty and the left one not,
    the left operand is returned and nothing else happens; with the left
    operand empty, the right one not, and the real concatenation having
    returned the right operand itself, the right operand is returned and
    nothing else happens.  With the left operand empty, the right one
    not, and the real concatenation having returned another object, no
    fast path is taken: the propagation steps run, it is that object (or
    its re-keyed copy) that is returned, and its record is the one those
    steps give.  And for a tainted A and an empty B (A non-empty or B
    without a taint entry) the result's ranges equal A's ranges; if A is
    empty too, what is returned is the result of the concatenation
    re-keyed to a new identity. *)
Theorem add_aspect_empty_operand (limit : nat) (result_o a b : PyObject) (st : State) :
  (get_pyobject_size b = 0 → 0 < get_pyobject_size a →
   add_aspect limit (Some result_o) a b st = (Ret (Some a), st))
  ∧ (get_pyobject_size a = 0 → 0 < get_pyobject_size b →
     ob_id b = ob_id result_o →
     add_aspect limit (Some result_o) a b st = (Ret (Some b), st))
  ∧ (get_pyobject_size a = 0 → 0 < get_pyobject_size b →
     ob_id b ≠ ob_id result_o →
     fault st = None → heap_valid st →
     ∃ r st',
       add_aspect limit (Some result_o) a b st = (Ret (Some r), st')
       ∧ ob_val r = ob_val result_o
       ∧ (r = result_o ∨ ob_id r = next_id st)
       ∧ match add_propagation_record limit st a b with
         | Some ranges => taint_record st' r = Some ranges
         | None => r = result_o ∧ st' = st
         end)
  ∧ (fault st = None → get_pyobject_size b = 0 →
     is_Some (taint_entry st a) →
     0 < get_pyobject_size a ∨ taint_entry st b = None →
     ∃ r st',
       add_aspect limit (Some result_o) a b st = (Ret (Some r), st')
       ∧ taint_record st' r = taint_record st a
       ∧ (get_pyobject_size a = 0 → r = mkPyObject (next_id st) (ob_val result_o))).
Proof.
  split; [|split; [|split]].
  - intros Hb Ha. apply add_aspect_empty_right.
    unfold empty_right_fast_path. rewrite Hb. simpl. by apply Nat.ltb_lt.
  - intros Ha Hb Hid. apply add_aspect_empty_left.
    + unfold empty_right_fast_path. rewrite Ha.
      by rewrite andb_false_r.
    + unfold empty_left_fast_path, same_object.
      rewrite Ha, Hid, !Nat.eqb_refl, !andb_true_r. by apply Nat.ltb_lt.
  - intros Ha Hb Hid Hf Hv.
    assert (H1 : empty_right_fast_path a b = false).
    { unfold empty_right_fast_path. rewrite Ha. by rewrite andb_false_r. }
    assert (H2 : empty_left_fast_path (Some result_o) a b = false).
    { unfold empty_left_fast_path, same_object.
      apply Nat.eqb_neq in Hid. rewrite Hid. by rewrite andb_false_r. }
    unfold add_propagation_record.
    destruct (taint_entry st a) as [p|] eqn:Hta;
      destruct (taint_entry st b) as [q|] eqn:Htb.
    + destruct (limit <=? length (to_ranges st p)) eqn:Hlim.
      * apply Nat.leb_le in Hlim.
        eexists _, _. split; [by apply add_aspect_reuse_left; eauto|].
        split; [done|]. split; [by right|].
        rewrite (taint_record_reuse_left st result_o a p Hta).
        by rewrite taint_record_entry, Hta.
      * apply Nat.leb_gt in Hlim.
        destruct (add_aspect_combine limit result_o a b st q Hf Hv H1 H2 Htb)
          as (st' & Hrun & _ & _ & Hrec).
        { intros p' Hp'. rewrite Hta in Hp'. by injection Hp' as <-. }
        exists result_o, st'. split; [exact Hrun|]. split; [done|].
        split; [by left|]. rewrite Hrec.
        by rewrite (taint_record_entry st b), Htb.
    + eexists _, _. split; [by apply add_aspect_reuse_left; eauto|].
      split; [done|]. split; [by right|].
      rewrite (taint_record_reuse_left st result_o a p Hta).
      by rewrite taint_record_entry, Hta.
    + destruct (add_aspect_combine limit result_o a b st q Hf Hv H1 H2 Htb)
        as (st' & Hrun & _ & _ & Hrec).
      { intros p' Hp'. by rewrite Hta in Hp'. }
      exists result_o, st'. split; [exact Hrun|]. split; [done|].
      split; [by left|]. rewrite Hrec.
      by rewrite (taint_record_entry st b), Htb.
    + exists result_o, st. split; [by apply add_aspect_untainted|]. by eauto.
  - intros Hf Hb [p Ha] Hcase.
    destruct (empty_right_fast_path a b) eqn:H1.
    { exists a, st. rewrite add_aspect_empty_right by done.
      split; [done|]. split; [done|]. intros Hz.
      unfold empty_right_fast_path in H1. rewrite Hz in H1.
      by rewrite andb_false_r in H1. }
    assert (H2 : empty_left_fast_path (Some result_o) a b = false).
    { unfold empty_left_fast_path. by rewrite Hb. }
    assert (Hbn : taint_entry st b = None).
    { destruct Hcase as [Hpos|]; [|done].
      unfold empty_right_fast_path in H1. rewrite Hb in H1. simpl in H1.
      apply Nat.ltb_ge in H1. lia. }
    eexists _, _. split; [by apply add_aspect_reuse_left; eauto|].
    split; [by apply taint_record_reuse_left | done].
Qed.

Lemma add_aspect_empty_operand_witness :
  add_aspect 100 (Some Ex.E) Ex.A Ex.E Ex.st_both = (Ret (Some Ex.A), Ex.st_both)
  ∧ add_aspect 100 (Some Ex.B) Ex.E Ex.B Ex.st_both = (Ret (Some Ex.B), Ex.st_both)
  ∧ (∃ st',
       add_aspect 100 (Some Ex.BA01) Ex.BA0 Ex.BA1 Ex.st_bytearray
       = (Ret (Some Ex.BA01), st')
       ∧ taint_record st' Ex.BA01 = Some [TR.mk 0 1 Ex.src2])
  ∧ ∃ r st',
      add_aspect 100 (Some Ex.E) Ex.A Ex.E Ex.st_both = (Ret (Some r), st')
      ∧ taint_record st' r = taint_record Ex.st_both Ex.A.
Proof.
  split; [|split; [|split]].
  - apply (add_aspect_empty_operand 100 Ex.E Ex.A Ex.E Ex.st_both);
      [reflexivity | vm_compute; lia].
  - apply (add_aspect_empty_operand 100 Ex.B Ex.E Ex.B Ex.st_both);
      [reflexivity | vm_compute; lia | reflexivity].
  - destruct (add_aspect_empty_operand 100 Ex.BA01 Ex.BA0 Ex.BA1 Ex.st_bytearray)
      as (_ & _ & H & _).
    destruct H as (r & st' & Hrun & _ & [Hr | Hr] & Hrec).
    + reflexivity.
    + vm_compute. lia.
    + vm_compute. lia.
    + reflexivity.
    + split; [|repeat constructor].
      apply map_Forall_insert_2; [simpl; lia|]. apply map_Forall_empty.
    + subst r. exists st'. split; [exact Hrun | exact Hrec].
    + exfalso. assert (Hr' : Some r = Some Ex.BA01).
      { apply (f_equal fst) in Hrun. vm_compute in Hrun. by injection Hrun as <-. }
      injection Hr' as ->. vm_compute in Hr. lia.
  - destruct (add_aspect_empty_operand 100 Ex.E Ex.A Ex.E Ex.st_both)
      as (_ & _ & _ & H).
    destruct H as (r & st' & Hrun & Hrec & _).
    + reflexivity.
    + reflexivity.
    + exists 0. vm_compute. reflexivity.
    + left. vm_compute. lia.
    + by exists r, st'.
Defined.

(** C3 fails as stated in its symmetric half: an empty [bytearray] added
    to a non-empty tainted one gives a new object, so the right operand
    is not what comes back and propagation work is done (a TaintedObject
    is allocated for the result). *)
Lemma add_aspect_empty_operand_counterexample :
  get_pyobject_size Ex.BA0 = 0
  ∧ 0 < get_pyobject_size Ex.BA1
  ∧ Interp.add_values Ex.BA0 Ex.BA1 = PyOk Ex.BA01
  ∧ (add_aspect 100 (Some Ex.BA01) Ex.BA0 Ex.BA1 Ex.st_bytearray).1
    = Ret (Some Ex.BA01)
  ∧ ob_id Ex.BA01 ≠ ob_id Ex.BA1
  ∧ tainted_objects (add_aspect 100 (Some Ex.BA01) Ex.BA0 Ex.BA1 Ex.st_bytearray).2
    = [[0]; [1]]
  ∧ tainted_objects Ex.st_bytearray = [[0]].
Proof. vm_compute. repeat split; try reflexivity; try lia. Qed.

(* ===================================================================== *)
(** ** Concatenation: which TaintRange instances the result refers to *)
(* ===================================================================== *)

Lemma source_shift (off : Z) (xs : list TR.t) :
  TR.source <$> (TR.shift off <$> xs) = TR.source <$> xs.
Proof. rewrite <- list_fmap_compose. by apply list_fmap_ext. Qed.

(** C9 (as amended).  When add_aspect builds the result's taint record
    from a tainted right operand (left below the cap, no fast path), the
    record is a TaintedObject allocated by the call whose TaintRange
    instances are all allocated by the call, and they carry the sources
    of the operands' ranges in order.  When the left operand is at the
    cap, or only the left operand is tainted, no TaintRange is created:
    the entry of the result is the left operand's TaintedObject itself,
    which the left operand's entry keeps referring to. *)
Theorem add_aspect_range_instances (limit : nat) (result_o a b : PyObject) (st : State) :
  fault st = None → heap_valid st →
  empty_right_fast_path a b = false →
  empty_left_fast_path (Some result_o) a b = false →
  (∀ p, taint_entry st a = Some p →
        limit ≤ length (to_ranges st p) ∨ taint_entry st b = None →
        ∃ r st',
          add_aspect limit (Some result_o) a b st = (Ret (Some r), st')
          ∧ taint_entry st' r = Some p
          ∧ (ob_id r ≠ ob_id a → taint_entry st' a = Some p)
          ∧ tainted_objects st' = tainted_objects st
          ∧ taint_ranges st' = taint_ranges st)
  ∧ (∀ q, taint_entry st b = Some q →
        (∀ p, taint_entry st a = Some p → length (to_ranges st p) < limit) →
        ∃ st' p',
          add_aspect limit (Some result_o) a b st = (Ret (Some result_o), st')
          ∧ taint_entry st' result_o = Some p'
          ∧ length (tainted_objects st) ≤ p'
          ∧ Forall (λ r, length (taint_ranges st) ≤ r) (to_ranges st' p')
          ∧ TR.source <$> default [] (taint_record st' result_o)
            = take limit ((TR.source <$> default [] (taint_record st a))
                          ++ (TR.source <$> default [] (taint_record st b)))).
Proof.
  intros Hf Hv H1 H2. split.
  - intros p Ha Hcase. eexists _, _.
    split; [by apply add_aspect_reuse_left; eauto|].
    unfold taint_entry in *. simpl.
    destruct (tainting_map st) as [m|]; [|done]. simpl.
    split; [by rewrite lookup_insert_eq|].
    split; [|done]. intros Hne. by rewrite lookup_insert_ne.
  - intros q Hb Ha.
    destruct (add_aspect_combine limit result_o a b st q Hf Hv H1 H2 Hb Ha)
      as (st' & Hrun & Hentry & Hto & Hrec).
    exists st', (length (tainted_objects st)).
    split; [done|]. split; [done|]. split; [done|].
    split; [rewrite Hto; apply take_seq_ge|].
    rewrite Hrec. simpl. rewrite fmap_take, fmap_app, source_shift.
    by rewrite (taint_record_entry st b), Hb.
Qed.

Lemma add_aspect_range_instances_witness :
  ∃ st' p',
    add_aspect 100 (Some Ex.AB) Ex.A Ex.B Ex.st_both = (Ret (Some Ex.AB), st')
    ∧ taint_entry st' Ex.AB = Some p'
    ∧ 2 ≤ p'
    ∧ Forall (λ r, 2 ≤ r) (to_ranges st' p')
    ∧ TR.source <$> default [] (taint_record st' Ex.AB) = [Ex.src1; Ex.src2].
Proof.
  destruct (add_aspect_range_instances 100 Ex.AB Ex.A Ex.B Ex.st_both)
    as [_ Hnew].
  - reflexivity.
  - split; [|repeat constructor].
    apply map_Forall_insert_2; [simpl; lia|].
    apply map_Forall_insert_2; [simpl; lia|]. apply map_Forall_empty.
  - reflexivity.
  - reflexivity.
  - destruct (Hnew 1) as (st' & p' & H1 & H2 & H3 & H4 & H5).
    + vm_compute. reflexivity.
    + intros p Hp. vm_compute in Hp. injection Hp as <-. vm_compute. lia.
    + exists st', p'. split; [exact H1|]. split; [exact H2|].
      split; [exact H3|]. split; [exact H4|]. rewrite H5. vm_compute. reflexivity.
Defined.

(** C9 fails as stated: when only the left operand is tainted, the result
    gets a new identity whose map entry is the left operand's own
    TaintedObject.  Two distinct map entries then hold the same
    TaintedObject, and with it the same TaintRange instance. *)
Lemma add_aspect_range_instances_counterexample :
  ∃ o,
    (add_aspect 100 (Some Ex.AB) Ex.A Ex.B Ex.st_left_only).1 = Ret (Some o)
    ∧ ob_id o ≠ ob_id Ex.A
    ∧ taint_entry (add_aspect 100 (Some Ex.AB) Ex.A Ex.B Ex.st_left_only).2 o = Some 0
    ∧ taint_entry (add_aspect 100 (Some Ex.AB) Ex.A Ex.B Ex.st_left_only).2 Ex.A = Some 0
    ∧ to_ranges (add_aspect 100 (Some Ex.AB) Ex.A Ex.B Ex.st_left_only).2 0 = [0].
Proof.
  exists (mkPyObject 10 (PyUnicode "abcde")).
  vm_compute. repeat split; try reflexivity. lia.
Qed.

(* ===================================================================== *)
(** ** Faults: what a computation does when the scheduled fault fires *)
(* ===================================================================== *)

Section FaultRules.
Context {A B : Type}.

Lemma final_final_unless (C : Prop) (P : A → Prop) (m : M A) :
  final P m → final_unless C P m.
Proof.
  intros H st. specialize (H st).
  destruct (m st) as [[a|e|] st1]; [done | done | by destruct H].
Qed.

Lemma silent_final (P : A → Prop) (m : M A) : silent P m → final P m.
Proof.
  intros H st. destruct (H st) as (a & st' & -> & HP & Hfault & Hlog).
  split; [done|]. split; [done|]. rewrite Hfault.
  destruct (fault st) as [[n e]|]; eauto.
Qed.

Lemma silent_mret (P : A → Prop) (a : A) : P a → silent P (mret a).
Proof. intros HP st. by exists a, st. Qed.

Lemma silent_gets (P : A → Prop) (f : State → A) :
  (∀ st, P (f st)) → silent P (gets f).
Proof. intros HP st. by exists (f st), st. Qed.

Lemma silent_bind (P : A → Prop) (Q : B → Prop) (m : M A) (f : A → M B) :
  silent P m → (∀ a, P a → silent Q (f a)) → silent Q (m ≫= f).
Proof.
  intros Hm Hf st. destruct (Hm st) as (a & st1 & E1 & HP & Hf1 & Hl1).
  destruct (Hf a HP st1) as (b & st2 & E2 & HQ & Hf2 & Hl2).
  exists b, st2. unfold mbind, M_bind. rewrite E1, E2.
  split; [done|]. split; [done|]. split; congruence.
Qed.

Lemma final_unless_bind (C : Prop) (P : A → Prop) (Q : B → Prop)
    (m : M A) (f : A → M B) :
  final_unless C P m → keeps_map m → (∀ a, P a → final_unless C Q (f a)) →
  final_unless C Q (m ≫= f).
Proof.
  intros Hm Hk Hf st. specialize (Hm st). specialize (Hk st).
  unfold mbind, M_bind. destruct (m st) as [[a|e|] st1]; [|done..].
  destruct Hm as (HP & Hl1 & Hf1). simpl in Hk.
  specialize (Hf a HP st1). destruct (f a st1) as [[b|e|] st2].
  - destruct Hf as (HQ & Hl2 & Hf2). split; [done|]. split; [congruence|].
    destruct (fault st2) as [[n2 e2]|].
    + destruct Hf2 as [n1 Hf2]. rewrite Hf2 in Hf1. done.
    + by rewrite Hf2 in Hf1.
  - destruct Hf as (Hl2 & Hm2 & Hf2 & n1 & Hf3).
    split; [congruence|]. split; [congruence|]. split; [done|].
    by rewrite Hf3 in Hf1.
  - destruct Hf as (HC & Hf2). split; [done|].
    destruct (fault st2) as [[n2 e2]|].
    + destruct Hf2 as [n1 Hf2]. rewrite Hf2 in Hf1. done.
    + by rewrite Hf2 in Hf1.
Qed.

Lemma final_bind (P : A → Prop) (Q : B → Prop) (m : M A) (f : A → M B) :
  final P m → keeps_map m → (∀ a, P a → final Q (f a)) → final Q (m ≫= f).
Proof. apply final_unless_bind. Qed.

Lemma final_unless_bind_silent (C : Prop) (P : A → Prop) (Q : B → Prop)
    (m : M A) (f : A → M B) :
  final_unless C P m → (∀ a, P a → silent Q (f a)) → final_unless C Q (m ≫= f).
Proof.
  intros Hm Hf st. specialize (Hm st).
  unfold mbind, M_bind. destruct (m st) as [[a|e|] st1]; [|done..].
  destruct Hm as (HP & Hl1 & Hf1).
  destruct (Hf a HP st1) as (b & st2 & -> & HQ & Hf2 & Hl2).
  split; [done|]. split; [congruence|]. by rewrite Hf2.
Qed.

(** A continuation that does not throw: it returns without touching the
    fault schedule or the log, or ends the process under [C]. *)
Lemma final_unless_bind_quiet (C : Prop) (P : A → Prop) (Q : B → Prop)
    (m : M A) (f : A → M B) :
  final_unless C P m →
  (∀ a, P a → ∀ st,
     (∃ b st', f a st = (Ret b, st') ∧ Q b
               ∧ fault st' = fault st ∧ iast_log st' = iast_log st)
     ∨ (∃ st', f a st = (Crash, st') ∧ C ∧ fault st' = fault st)) →
  final_unless C Q (m ≫= f).
Proof.
  intros Hm Hf st. specialize (Hm st).
  unfold mbind, M_bind. destruct (m st) as [[a|e|] st1]; [|done..].
  destruct Hm as (HP & Hl1 & Hf1).
  destruct (Hf a HP st1) as [(b & st2 & -> & HQ & Hf2 & Hl2)|(st2 & -> & HC & Hf2)].
  - split; [done|]. split; [congruence|]. by rewrite Hf2.
  - split; [done|]. by rewrite Hf2.
Qed.

Lemma final_bind_silent (P : A → Prop) (Q : B → Prop) (m : M A) (f : A → M B) :
  final P m → (∀ a, P a → silent Q (f a)) → final Q (m ≫= f).
Proof. apply final_unless_bind_silent. Qed.

Lemma keeps_map_bind (m : M A) (f : A → M B) :
  keeps_map m → (∀ a, keeps_map (f a)) → keeps_map (m ≫= f).
Proof.
  intros Hm Hf st. specialize (Hm st). unfold mbind, M_bind.
  destruct (m st) as [[a|e|] st1]; [|done..]. simpl in Hm.
  by rewrite Hf.
Qed.

Lemma final_unless_weaken (C : Prop) (P Q : A → Prop) (m : M A) :
  (∀ a, P a → Q a) → final_unless C P m → final_unless C Q m.
Proof.
  intros HPQ Hm st. specialize (Hm st).
  destruct (m st) as [[a|e|] st1]; [|done..]. destruct Hm as (HP & ?). eauto.
Qed.

Lemma final_weaken (P Q : A → Prop) (m : M A) :
  (∀ a, P a → Q a) → final P m → final Q m.
Proof. apply final_unless_weaken. Qed.

End FaultRules.

Lemma silent_modify (f : State → State) :
  (∀ st, fault (f st) = fault st) → (∀ st, iast_log (f st) = iast_log st) →
  silent (λ _, True) (modify f).
Proof. intros H1 H2 st. exists (), (f st). by rewrite H1, H2. Qed.

Lemma final_tick : final (λ _, True) tick.
Proof.
  intros st. unfold tick. destruct (fault st) as [[[|n] e]|] eqn:E; simpl.
  - repeat split; eauto.
  - repeat split; eauto.
  - by rewrite E.
Qed.

Lemma keeps_map_tick : keeps_map tick.
Proof. intros st. unfold tick. by destruct (fault st) as [[[|n] e]|]. Qed.

Lemma keeps_map_mret {A} (a : A) : keeps_map (mret a).
Proof. done. Qed.

Lemma keeps_map_gets {A} (f : State → A) : keeps_map (gets f).
Proof. done. Qed.

Lemma keeps_map_modify (f : State → State) :
  (∀ st, tainting_map (f st) = tainting_map st) → keeps_map (modify f).
Proof. intros H st. apply H. Qed.

Lemma silent_Py_DecRef (o : option PyObject) : silent (λ _, True) (Py_DecRef o).
Proof. destruct o; [by apply silent_modify | by apply silent_mret]. Qed.

Lemma keeps_map_Py_DecRef (o : option PyObject) : keeps_map (Py_DecRef o).
Proof. by destruct o. Qed.

Lemma silent_py_call (r : PyResult) : silent (eq (result_pointer r)) (py_call r).
Proof.
  intros st. destruct r as [o|e]; simpl.
  - by exists (Some o), st.
  - by eexists None, _.
Qed.

Lemma keeps_map_py_call (r : PyResult) : keeps_map (py_call r).
Proof. intros st. by destruct r. Qed.

(** A helper that ticks and then runs without throwing. *)
Lemma final_tick_then {A} (P : A → Prop) (m : M A) :
  silent P m → final P (tick;; m).
Proof.
  intros H. eapply (final_bind (λ _, True)); [apply final_tick | apply keeps_map_tick |].
  intros _ _. by apply silent_final.
Qed.

Lemma keeps_map_tick_then {A} (m : M A) : keeps_map m → keeps_map (tick;; m).
Proof. intros H. apply keeps_map_bind; [apply keeps_map_tick | done]. Qed.

Lemma final_get_tainting_map : final (λ _, True) get_tainting_map.
Proof. apply final_tick_then. by apply silent_gets. Qed.

Lemma keeps_map_get_tainting_map : keeps_map get_tainting_map.
Proof. apply keeps_map_tick_then, keeps_map_gets. Qed.

Lemma final_get_tainted_object o : final (λ _, True) (get_tainted_object o).
Proof. apply final_tick_then. by apply silent_gets. Qed.

Lemma keeps_map_get_tainted_object o : keeps_map (get_tainted_object o).
Proof. apply keeps_map_tick_then, keeps_map_gets. Qed.

Lemma final_new_pyobject_id o : final (λ _, True) (new_pyobject_id o).
Proof.
  apply final_tick_then. destruct o as [o|]; [|by apply silent_mret].
  intros st. by eexists _, _.
Qed.

Lemma keeps_map_new_pyobject_id o : keeps_map (new_pyobject_id o).
Proof. apply keeps_map_tick_then. by destruct o. Qed.

Lemma final_set_tainted_object o p : final (λ _, True) (set_tainted_object o p).
Proof.
  apply final_tick_then. destruct o as [o|]; [|by apply silent_mret].
  by apply silent_modify.
Qed.

Lemma final_allocate_tainted_object_copy from :
  final (λ _, True) (allocate_tainted_object_copy from).
Proof. apply final_tick_then. intros st. by eexists _, _. Qed.

Lemma keeps_map_allocate_tainted_object_copy from :
  keeps_map (allocate_tainted_object_copy from).
Proof. by apply keeps_map_tick_then. Qed.

Lemma final_add_ranges_shifted limit self other off :
  final (λ _, True) (add_ranges_shifted limit self other off).
Proof. apply final_tick_then. intros st. by eexists _, _. Qed.

Lemma keeps_map_add_ranges_shifted limit self other off :
  keeps_map (add_ranges_shifted limit self other off).
Proof. by apply keeps_map_tick_then. Qed.

Lemma final_get_ranges o : final (λ _, True) (get_ranges o).
Proof. apply final_tick_then. by apply silent_gets. Qed.

Lemma keeps_map_get_ranges o : keeps_map (get_ranges o).
Proof. apply keeps_map_tick_then, keeps_map_gets. Qed.

Lemma final_set_ranges o ranges : final (λ _, True) (set_ranges o ranges).
Proof.
  apply final_tick_then. destruct (bool_decide (ranges = [])).
  - by apply silent_mret.
  - intros st. by eexists _, _.
Qed.

Create HintDb faults.
#[local] Hint Resolve
  final_get_tainting_map keeps_map_get_tainting_map
  final_get_tainted_object keeps_map_get_tainted_object
  final_new_pyobject_id keeps_map_new_pyobject_id
  final_set_tainted_object
  final_allocate_tainted_object_copy keeps_map_allocate_tainted_object_copy
  final_add_ranges_shifted keeps_map_add_ranges_shifted
  final_get_ranges keeps_map_get_ranges final_set_ranges
  keeps_map_mret keeps_map_gets keeps_map_py_call : faults.

(** Re-keying the result to the left operand's TaintedObject. *)
Lemma final_reuse_left (result_o : option PyObject) (p : nat) :
  final (λ _, True)
    (res_new_id ← new_pyobject_id result_o;
     Py_DecRef result_o;;
     set_tainted_object res_new_id p;; mret res_new_id).
Proof.
  eapply (final_bind (λ _, True)); [auto with faults..|]. intros r _.
  eapply (final_bind (λ _, True));
    [apply silent_final, silent_Py_DecRef | apply keeps_map_Py_DecRef |]. intros _ _.
  eapply (final_bind_silent (λ _, True)); [auto with faults|]. intros _ _. by apply silent_mret.
Qed.

Lemma final_add_aspect limit result_o a b :
  final (λ _, True) (add_aspect limit result_o a b).
Proof.
  unfold add_aspect.
  destruct (empty_right_fast_path a b); [by apply silent_final, silent_mret|].
  destruct (empty_left_fast_path result_o a b); [by apply silent_final, silent_mret|].
  eapply (final_bind (λ _, True)); [auto with faults..|]. intros to_a _.
  eapply (final_bind (λ _, True)); [apply silent_final; by apply silent_gets | auto with faults |].
  intros at_limit _.
  assert (Hrest : final (λ _ : option PyObject, True)
            (to_text_to_add ← get_tainted_object b;
             match to_a, to_text_to_add with
             | None, None => mret result_o
             | Some p, None =>
                 res_new_id ← new_pyobject_id result_o;
                 Py_DecRef result_o;;
                 set_tainted_object res_new_id p;; mret res_new_id
             | _, Some q =>
                 tainted ← allocate_tainted_object_copy to_a;
                 add_ranges_shifted limit tainted q (Z.of_nat (get_pyobject_size a));;
                 set_tainted_object result_o tainted;; mret result_o
             end)).
  { eapply (final_bind (λ _, True)); [auto with faults..|]. intros to_b _.
    assert (Hcombine : ∀ q, final (λ _ : option PyObject, True)
              (tainted ← allocate_tainted_object_copy to_a;
               add_ranges_shifted limit tainted q (Z.of_nat (get_pyobject_size a));;
               set_tainted_object result_o tainted;; mret result_o)).
    { intros q. eapply (final_bind (λ _, True)); [auto with faults..|]. intros tainted _.
      eapply (final_bind (λ _, True)); [auto with faults..|]. intros _ _.
      eapply (final_bind_silent (λ _, True)); [auto with faults|]. intros _ _.
      by apply silent_mret. }
    destruct to_a as [p|], to_b as [q|]; auto.
    - apply final_reuse_left.
    - by apply silent_final, silent_mret. }
  destruct to_a as [p|]; [|exact Hrest].
  destruct at_limit; [apply final_reuse_left | exact Hrest].
Qed.

(** A try block whose body is [final_unless C], with a handler that logs
    and returns [r]: the call returns a value of the body or [r], or ends
    the process under [C]; when the scheduled fault fires it returns [r],
    has logged the fault, and the taint map is as on entry. *)
Lemma try_catch_contains_unless {A} (C : Prop) (P : A → Prop) (body : M A)
    (handler : cpp_exception → M A) (name : string) (r : A) (st : State) :
  final_unless C P body →
  (∀ e s, handler e s
          = (Ret r, with_iast_log (aspect_error_message name e :: iast_log s) s)) →
  ((∃ a, (try_catch body handler st).1 = Ret a ∧ (P a ∨ a = r))
   ∨ ((try_catch body handler st).1 = Crash ∧ C))
  ∧ (∀ n e, fault st = Some (n, e) →
            fault (try_catch body handler st).2 = None →
            (try_catch body handler st).1 = Ret r
            ∧ iast_log (try_catch body handler st).2
              = aspect_error_message name e :: iast_log st
            ∧ tainting_map (try_catch body handler st).2 = tainting_map st).
Proof.
  intros Hbody Hh. specialize (Hbody st). unfold try_catch.
  destruct (body st) as [[a|e'|] st1].
  - destruct Hbody as (HP & _ & Hleft).
    split; [by eauto|]. intros n e Hf Hnone. simpl in *.
    rewrite Hnone in Hleft. congruence.
  - rewrite Hh. split; [by eauto|]. intros n e Hf _. simpl.
    destruct Hbody as (Hlog & Hmap & _ & n' & Hf'). rewrite Hf' in Hf.
    injection Hf as _ ->. by rewrite Hlog, Hmap.
  - destruct Hbody as (HC & Hleft).
    split; [by right|]. intros n e Hf Hnone. simpl in *.
    rewrite Hnone in Hleft. congruence.
Qed.

(** The same of a body that never ends the process: the call returns. *)
Lemma try_catch_contains {A} (P : A → Prop) (body : M A)
    (handler : cpp_exception → M A) (name : string) (r : A) (st : State) :
  final P body →
  (∀ e s, handler e s
          = (Ret r, with_iast_log (aspect_error_message name e :: iast_log s) s)) →
  (∃ a, (try_catch body handler st).1 = Ret a ∧ (P a ∨ a = r))
  ∧ (∀ n e, fault st = Some (n, e) →
            fault (try_catch body handler st).2 = None →
            (try_catch body handler st).1 = Ret r
            ∧ iast_log (try_catch body handler st).2
              = aspect_error_message name e :: iast_log st
            ∧ tainting_map (try_catch body handler st).2 = tainting_map st).
Proof.
  intros Hbody Hh.
  destruct (try_catch_contains_unless False P body handler name r st Hbody Hh)
    as [[Hret | [_ []]] Hfault].
  by split.
Qed.

Section ApiAdd.
Context `{RT : PyRuntime}.
Variable limit : nat.
Variable msg : string.

(** The body of the try block of the add entry points: the gates look
    at [a] and [b], [add_aspect] is handed [a'] and [b']. *)
Lemma final_api_add_body (result_o : option PyObject) (a b a' b' : PyObject) :
  final (λ _, True)
    (tx_map ← get_tainting_map;
     if no_tainting_map tx_map then mret result_o
     else if negb (args_are_text_and_same_type a b) then mret result_o
     else if is_notinterned_notfasttainted_unicode a
             && is_notinterned_notfasttainted_unicode b then mret result_o
     else add_aspect limit result_o a' b').
Proof.
  eapply (final_bind (λ _, True)); [auto with faults..|]. intros tx_map _.
  destruct (no_tainting_map tx_map); [by apply silent_final, silent_mret|].
  destruct (negb _); [by apply silent_final, silent_mret|].
  destruct (_ && _); [by apply silent_final, silent_mret|].
  apply final_add_aspect.
Qed.

(** When the gate of the entry point is closed, the body returns the
    result of the addition, or throws at the map lookup; either way the
    state keeps its map and its heaps. *)
Lemma api_add_body_gated (result_o : option PyObject) (a b a' b' : PyObject)
    (st : State) :
  args_are_text_and_same_type a b = false
  ∨ is_notinterned_notfasttainted_unicode a
    && is_notinterned_notfasttainted_unicode b = true →
  let out :=
    try_catch
      (tx_map ← get_tainting_map;
       if no_tainting_map tx_map then mret result_o
       else if negb (args_are_text_and_same_type a b) then mret result_o
       else if is_notinterned_notfasttainted_unicode a
               && is_notinterned_notfasttainted_unicode b then mret result_o
       else add_aspect limit result_o a' b')
      (λ e, iast_taint_log_error (aspect_error_message "add_aspect" e);;
            mret result_o) st in
  out.1 = Ret result_o
  ∧ tainting_map out.2 = tainting_map st
  ∧ tainted_objects out.2 = tainted_objects st
  ∧ taint_ranges out.2 = taint_ranges st.
Proof.
  intros Hgate. unfold try_catch, get_tainting_map, tick, gets, mbind, M_bind.
  destruct (fault st) as [[[|n] e]|]; simpl; [done| |].
  - destruct (no_tainting_map (tainting_map st)); [done|].
    destruct Hgate as [-> | ->]; [done|].
    by destruct (negb _).
  - destruct (no_tainting_map (tainting_map st)); [done|].
    destruct Hgate as [-> | ->]; [done|].
    by destruct (negb _).
Qed.

End ApiAdd.

(** C10.  The add entry points propagate taint only past their gate: when
    the operands are not both text of one type, or both are strings that
    cannot be tainted, the result of the real addition is returned and
    the taint map, the TaintedObjects and the TaintRanges are exactly as
    before, whatever taint the operands carry and whatever fault is
    scheduled. *)
Theorem api_add_aspect_gate `{RT : PyRuntime} (limit : nat) (msg : string)
    (a b : PyObject) (st : State) :
  args_are_text_and_same_type a b = false
  ∨ is_notinterned_notfasttainted_unicode a
    && is_notinterned_notfasttainted_unicode b = true →
  ((api_add_aspect limit msg [a; b] st).1 = Ret (result_pointer (PyNumber_Add a b))
   ∧ tainting_map (api_add_aspect limit msg [a; b] st).2 = tainting_map st
   ∧ tainted_objects (api_add_aspect limit msg [a; b] st).2 = tainted_objects st
   ∧ taint_ranges (api_add_aspect limit msg [a; b] st).2 = taint_ranges st)
  ∧ ((api_add_inplace_aspect limit msg [a; b] st).1
     = Ret (result_pointer (PyNumber_InPlaceAdd a b))
     ∧ tainting_map (api_add_inplace_aspect limit msg [a; b] st).2 = tainting_map st
     ∧ tainted_objects (api_add_inplace_aspect limit msg [a; b] st).2
       = tainted_objects st
     ∧ taint_ranges (api_add_inplace_aspect limit msg [a; b] st).2 = taint_ranges st).
Proof.
  intros Hgate. split.
  - unfold api_add_aspect. unfold mbind at 1. unfold M_bind.
    destruct (PyNumber_Add a b) as [o|err]; simpl.
    + apply (api_add_body_gated limit (Some o) a b a b st Hgate).
    + apply (api_add_body_gated limit None a b a b (with_py_err (Some err) st) Hgate).
  - unfold api_add_inplace_aspect. unfold mbind at 1. unfold M_bind.
    destruct (PyNumber_InPlaceAdd a b) as [o|err]; simpl.
    + apply (api_add_body_gated limit (Some o) a b _ _ st Hgate).
    + apply (api_add_body_gated limit None a b a b (with_py_err (Some err) st) Hgate).
Qed.

Lemma api_add_aspect_gate_witness :
  (api_add_aspect (RT := Interp.runtime) 100 Ex.msg_n_params
     [Ex.five; Ex.five] Ex.st_both).1
  = Ret (Some (mkPyObject 23 (PyLong 10)))
  ∧ tainting_map
      (api_add_aspect (RT := Interp.runtime) 100 Ex.msg_n_params
         [Ex.five; Ex.five] Ex.st_both).2
    = tainting_map Ex.st_both.
Proof.
  destruct (api_add_aspect_gate (RT := Interp.runtime) 100 Ex.msg_n_params
              Ex.five Ex.five Ex.st_both) as [(H1 & H2 & _) _].
  - left. reflexivity.
  - split; [exact H1 | exact H2].
Defined.

(* ===================================================================== *)
(** ** The propagation block of the str aspect under faults *)
(* ===================================================================== *)

Lemma final_set_lengthupdated_ranges result result_len ranges :
  final (λ _, True) (set_lengthupdated_ranges result result_len ranges).
Proof.
  unfold set_lengthupdated_ranges.
  eapply (final_bind (λ _, True));
    [apply silent_final; by apply silent_gets | auto with faults |].
  intros tx_map _.
  destruct (no_tainting_map tx_map); [by apply silent_final, silent_mret|].
  eapply (final_bind (λ _, True)); [| |auto with faults].
  - by apply silent_final, silent_modify.
  - by apply keeps_map_modify.
Qed.

Lemma final_copy_and_shift_ranges_from_strings from to offset new_length :
  final (λ _, True) (copy_and_shift_ranges_from_strings from to offset new_length).
Proof.
  unfold copy_and_shift_ranges_from_strings.
  eapply (final_bind_silent (λ _, True)); [auto with faults|].
  intros [ranges ranges_error] _.
  destruct (_ || _); [by apply silent_mret|].
  intros st. by eexists _, _.
Qed.

Section StrPropagation.
Context `{RT : PyRuntime}.

(** The body of the try block.  It ends the process only at
    [Py_DECREF(check_offset)], when [PyObject_Str] has failed on the
    value. *)
Lemma final_str_aspect_body (text result_o : PyObject) :
  final_unless (null_check_offset text) (eq (Some result_o))
    (tx_map ← get_tainting_map;
     if no_tainting_map tx_map then mret (Some result_o)
     else
       '(ranges, ranges_error) ← get_ranges text;
       if (ranges_error : bool) || bool_decide (ranges = []) then mret (Some result_o)
       else if PyUnicode_Check text then
         set_ranges result_o ranges;;
         mret (Some result_o)
       else
         let len_result_o := PyObject_Length result_o in
         check_offset ← py_call (PyObject_Str text);
         match check_offset with
         | None =>
             PyErr_Clear;;
             set_lengthupdated_ranges result_o len_result_o ranges
         | Some check_offset =>
             let offset := PyUnicode_Find result_o check_offset 0 len_result_o 1 in
             if (offset =? -1)%Z then
               PyErr_Clear;;
               set_lengthupdated_ranges result_o len_result_o ranges
             else
               copy_and_shift_ranges_from_strings text result_o offset len_result_o
         end;;
         Py_DECREF check_offset;;
         mret (Some result_o)).
Proof.
  set (C := null_check_offset text).
  eapply (final_unless_bind C (λ _, True));
    [apply final_final_unless; auto with faults | auto with faults |].
  intros tx_map _.
  destruct (no_tainting_map tx_map);
    [by apply final_final_unless, silent_final, silent_mret|].
  eapply (final_unless_bind C (λ _, True));
    [apply final_final_unless; auto with faults | auto with faults |].
  intros [ranges ranges_error] _.
  destruct (_ || _); [by apply final_final_unless, silent_final, silent_mret|].
  destruct (PyUnicode_Check text) eqn:Hu.
  { apply final_final_unless.
    eapply (final_bind_silent (λ _, True)); [auto with faults|].
    intros _ _. by apply silent_mret. }
  assert (Hclear : final (λ _, True)
            (PyErr_Clear;;
             set_lengthupdated_ranges result_o (PyObject_Length result_o) ranges)).
  { eapply (final_bind (λ _, True)).
    - by apply silent_final, silent_modify.
    - by apply keeps_map_modify.
    - intros _ _. apply final_set_lengthupdated_ranges. }
  eapply (final_unless_bind C (eq (result_pointer (PyObject_Str text)))).
  - apply final_final_unless, silent_final, silent_py_call.
  - auto with faults.
  - intros check_offset Hco.
    eapply (final_unless_bind_quiet C (λ _, True)).
    + apply final_final_unless.
      destruct check_offset as [check_offset|]; [|exact Hclear].
      cbv zeta. destruct (Z.eqb _ _); [exact Hclear|].
      apply final_copy_and_shift_ranges_from_strings.
    + intros _ _ st. destruct check_offset as [check_offset|].
      * left. by eexists _, _.
      * right. exists st. split; [done|]. split; [|done].
        unfold C, null_check_offset. split; [done|].
        destruct (PyObject_Str text) as [o|err]; [done|by exists err].
Qed.

(** The propagation block returns the converted value, unless it ends
    the process at [Py_DECREF(check_offset)], which takes [PyObject_Str]
    failing on a value that is not a [str]; when the scheduled fault
    fires inside it, it returns, the fault is logged and the taint map is
    left as it was. *)
Lemma str_aspect_propagation_contains (text result_o : PyObject) (st : State) :
  ((str_aspect_propagation text result_o st).1 = Ret (Some result_o)
   ∨ ((str_aspect_propagation text result_o st).1 = Crash
      ∧ null_check_offset text))
  ∧ (∀ n e, fault st = Some (n, e) →
            fault (str_aspect_propagation text result_o st).2 = None →
            (str_aspect_propagation text result_o st).1 = Ret (Some result_o)
            ∧ iast_log (str_aspect_propagation text result_o st).2
              = aspect_error_message "str_aspect" e :: iast_log st
            ∧ tainting_map (str_aspect_propagation text result_o st).2
              = tainting_map st).
Proof.
  unfold str_aspect_propagation, TRY_CATCH_ASPECT.
  match goal with
  | |- context [try_catch ?body ?handler st] =>
      destruct (try_catch_contains_unless (null_check_offset text)
                  (eq (Some result_o)) body handler "str_aspect"
                  (Some result_o) st (final_str_aspect_body text result_o))
        as [Hout Hfault]; [done|]
  end.
  split; [|exact Hfault].
  destruct Hout as [(a & Ha & Hval) | Hcrash]; [left | by right].
  rewrite Ha. by destruct Hval as [<- | ->].
Qed.

(** When [PyObject_Str] succeeds on the value, or the value is a [str],
    the block returns. *)
Lemma str_aspect_propagation_returns (text result_o : PyObject) (st : State) :
  ¬ null_check_offset text →
  (str_aspect_propagation text result_o st).1 = Ret (Some result_o).
Proof.
  intros Hstr.
  by destruct (str_aspect_propagation_contains text result_o st)
    as [[Hret | [_ Hnull]] _].
Qed.

End StrPropagation.

(* ===================================================================== *)
(** ** Faults at the aspect boundary *)
(* ===================================================================== *)

Section Boundary.
Context `{RT : PyRuntime}.
Variable limit : nat.
Variable msg : string.

Lemma api_add_body_contains (result_o : option PyObject) (a b a' b' : PyObject)
    (st : State) (n : nat) (e : cpp_exception) :
  let out :=
    try_catch
      (tx_map ← get_tainting_map;
       if no_tainting_map tx_map then mret result_o
       else if negb (args_are_text_and_same_type a b) then mret result_o
       else if is_notinterned_notfasttainted_unicode a
               && is_notinterned_notfasttainted_unicode b then mret result_o
       else add_aspect limit result_o a' b')
      (λ e, iast_taint_log_error (aspect_error_message "add_aspect" e);;
            mret result_o) st in
  fault st = Some (n, e) → fault out.2 = None →
  out.1 = Ret result_o
  ∧ iast_log out.2 = aspect_error_message "add_aspect" e :: iast_log st
  ∧ tainting_map out.2 = tainting_map st.
Proof.
  intros out Hf Hnone. unfold out in *.
  match goal with
  | |- context [try_catch ?body ?handler st] =>
      destruct (try_catch_contains (λ _, True) body handler "add_aspect"
                  result_o st (final_api_add_body limit result_o a b a' b'))
        as [_ Hfault]; [done|]
  end.
  by apply (Hfault n e).
Qed.

End Boundary.

Lemma with_fault_same st : with_fault (fault st) st = st.
Proof. by destruct st. Qed.

Lemma plain_fault {A} (m : M A) st : plain m → fault (m st).2 = fault st.
Proof.
  intros H. destruct (H st) as [Hb _]. specialize (Hb (fault st)).
  rewrite with_fault_same in Hb. apply (f_equal snd) in Hb. simpl in Hb.
  by rewrite Hb.
Qed.

Lemma plain_mret {A} (a : A) : plain (mret a).
Proof. by intros st. Qed.

Lemma plain_throw {A} (e : cpp_exception) : plain (throw (A := A) e).
Proof. by intros st. Qed.

Lemma plain_set_error ty s : plain (set_error ty s).
Proof. by intros st. Qed.

Lemma plain_py_call r : plain (py_call r).
Proof. intros st. by destruct r. Qed.

Lemma plain_PyErr_Occurred : plain PyErr_Occurred.
Proof. by intros st. Qed.

Lemma plain_bind {A B} (m : M A) (k : A → M B) :
  plain m → (∀ a, plain (k a)) → plain (m ≫= k).
Proof.
  intros Hm Hk st. destruct (Hm st) as (Hb & Hl & Ht).
  unfold mbind, M_bind. split.
  - intros f. rewrite Hb. destruct (m st) as [[a|e|] s1]; [|done..]. simpl.
    by destruct (Hk a s1) as [-> _].
  - destruct (m st) as [[a|e|] s1]; [|done..]. simpl in *.
    destruct (Hk a s1) as (_ & Hl' & Ht'). split; congruence.
Qed.

Lemma plain_PyUnicode_GetLength o : plain (PyUnicode_GetLength o).
Proof. unfold PyUnicode_GetLength. by destruct (ob_val o); intros st. Qed.

Lemma plain_has_nonempty p : plain (has_nonempty p).
Proof.
  destruct p as [o|]; [|apply plain_mret].
  apply plain_bind; [apply plain_PyUnicode_GetLength | intros; apply plain_mret].
Qed.

Lemma plain_PyBytes_AsStringAndSize o : plain (PyBytes_AsStringAndSize o).
Proof. unfold PyBytes_AsStringAndSize. by destruct (ob_val o); intros st. Qed.

(** A plain computation cannot be where the fault fires. *)
Lemma contained_plain name (m : M (option PyObject)) : plain m → contained name m.
Proof.
  intros Hm st n e Hf Hnone. rewrite plain_fault in Hnone by done. congruence.
Qed.

Lemma contained_bind {A} name (m : M A) (k : A → M (option PyObject)) :
  plain m → (∀ a, contained name (k a)) → contained name (m ≫= k).
Proof.
  intros Hm Hk st n e Hf. destruct (Hm st) as (Hb & Hl & Ht).
  pose proof (plain_fault m st Hm) as Hfm.
  unfold mbind, M_bind.
  destruct (m st) as [[a|e'|] s1]; simpl in *.
  - intros Hnone. rewrite <- Hl, <- Ht. apply (Hk a s1 n e); [congruence | done].
  - congruence.
  - congruence.
Qed.

Section StrBoundary.
Context `{RT : PyRuntime}.
Variable msg : string.

Lemma contained_str_aspect_propagation text result_o :
  contained "str_aspect" (str_aspect_propagation text result_o).
Proof.
  intros st n e Hf Hnone.
  destruct (str_aspect_propagation_contains text result_o st) as [_ Hfault].
  destruct (Hfault n e Hf Hnone) as (Hr & Hlog & Hmap). by eauto.
Qed.

Lemma plain_call_original_function orig text enc errs :
  plain (call_original_function orig text enc errs).
Proof. apply plain_py_call. Qed.

Lemma contained_api_str_aspect (args : list PyObject) (nargs : nat)
    (kwnames : option (list string)) :
  contained "str_aspect" (api_str_aspect msg args nargs kwnames).
Proof.
  unfold api_str_aspect.
  destruct (_ || _).
  { apply contained_plain, plain_bind; [apply plain_set_error|intros; apply plain_mret]. }
  destruct (get_args args nargs kwnames) as [[[[eff orig] text] enc] errs].
  destruct (3 <? eff)%Z.
  { apply contained_plain, plain_bind; [apply plain_set_error|intros; apply plain_mret]. }
  apply contained_bind; [apply plain_has_nonempty|]. intros has_encoding.
  apply contained_bind; [apply plain_has_nonempty|]. intros has_errors.
  destruct (_ && _ && _).
  { apply contained_plain, plain_call_original_function. }
  destruct (negb (is_text text)).
  { apply contained_plain, plain_py_call. }
  destruct (_ && _).
  { apply contained_bind; [apply plain_py_call|]. intros [result_o|].
    - apply contained_str_aspect_propagation.
    - apply contained_plain, plain_mret. }
  apply contained_bind.
  { destruct (ob_val text); try apply plain_PyBytes_AsStringAndSize.
    apply plain_mret. }
  intros [raw|].
  - apply contained_bind; [apply plain_py_call|]. intros result_o.
    apply contained_bind; [apply plain_PyErr_Occurred|]. intros occurred.
    destruct occurred; [apply contained_plain, plain_mret|].
    destruct result_o as [result_o|].
    + apply contained_str_aspect_propagation.
    + apply contained_plain, plain_mret.
  - apply contained_bind; [apply plain_PyErr_Occurred|]. intros failed.
    destruct failed; apply contained_plain; [apply plain_mret | apply plain_throw].
Qed.

End StrBoundary.

(** When the scheduled fault fires during a call of an aspect entry
    point, the call does not fail: the add entry points return the
    pointer the real addition gave them, the str entry point returns a
    pointer to an object; the fault has been logged under the aspect's
    name; and the taint map is as it was before the call.  Whether the
    add entry points still own the object behind that pointer is another
    matter: [Py_DecRef(result_o)] may have run before the fault. *)
Lemma aspects_log_propagation_faults `{RT : PyRuntime}
    (limit : nat) (msg : string) (a b : PyObject)
    (args : list PyObject) (nargs : nat) (kwnames : option (list string))
    (st : State) (n : nat) (e : cpp_exception) :
  fault st = Some (n, e) →
  (fault (api_add_aspect limit msg [a; b] st).2 = None →
   (api_add_aspect limit msg [a; b] st).1 = Ret (result_pointer (PyNumber_Add a b))
   ∧ iast_log (api_add_aspect limit msg [a; b] st).2
     = aspect_error_message "add_aspect" e :: iast_log st
   ∧ tainting_map (api_add_aspect limit msg [a; b] st).2 = tainting_map st)
  ∧ (fault (api_add_inplace_aspect limit msg [a; b] st).2 = None →
     (api_add_inplace_aspect limit msg [a; b] st).1
     = Ret (result_pointer (PyNumber_InPlaceAdd a b))
     ∧ iast_log (api_add_inplace_aspect limit msg [a; b] st).2
       = aspect_error_message "add_aspect" e :: iast_log st
     ∧ tainting_map (api_add_inplace_aspect limit msg [a; b] st).2 = tainting_map st)
  ∧ (fault (api_str_aspect msg args nargs kwnames st).2 = None →
     (∃ r, (api_str_aspect msg args nargs kwnames st).1 = Ret (Some r))
     ∧ iast_log (api_str_aspect msg args nargs kwnames st).2
       = aspect_error_message "str_aspect" e :: iast_log st
     ∧ tainting_map (api_str_aspect msg args nargs kwnames st).2 = tainting_map st).
Proof.
  intros Hf. split; [|split].
  - unfold api_add_aspect. unfold mbind at 1. unfold M_bind.
    destruct (PyNumber_Add a b) as [o|err]; simpl.
    + by apply (api_add_body_contains limit (Some o) a b a b st n e).
    + by apply (api_add_body_contains limit None a b a b
                  (with_py_err (Some err) st) n e).
  - unfold api_add_inplace_aspect. unfold mbind at 1. unfold M_bind.
    destruct (PyNumber_InPlaceAdd a b) as [o|err]; simpl.
    + by apply (api_add_body_contains limit (Some o) a b _ _ st n e).
    + by apply (api_add_body_contains limit None a b a b
                  (with_py_err (Some err) st) n e).
  - intros Hnone. by apply (contained_api_str_aspect msg args nargs kwnames st n e).
Qed.

(* ===================================================================== *)
(** ** str aspect: what the output's taint record holds *)
(* ===================================================================== *)

(** The entry written by [set_ranges] reads back as the copied values. *)
Lemma taint_record_new_entry (st : State) (o : PyObject) (vs : list TR.t)
    (m : gmap nat nat) :
  tainting_map st = Some m →
  taint_record
    (with_tainting_map (<[ob_id o := length (tainted_objects st)]> <$> tainting_map st)
       (with_tainted_objects
          (tainted_objects st ++ [seq (length (taint_ranges st)) (length vs)])
          (with_taint_ranges (taint_ranges st ++ vs) st))) o
  = Some vs.
Proof.
  intros Hm. unfold taint_record. simpl. rewrite Hm. simpl.
  rewrite lookup_insert_eq. simpl. f_equal.
  unfold to_ranges, range_values. simpl.
  rewrite list_lookup_middle by done. simpl. apply omap_lookup_fresh_all.
Qed.

(** Giving up a reference does not touch the taint records. *)
Lemma taint_record_with_released (l : list nat) (st : State) (o : PyObject) :
  taint_record (with_released l st) o = taint_record st o.
Proof. done. Qed.

Lemma taint_entry_map st o p :
  taint_entry st o = Some p →
  ∃ m, tainting_map st = Some m ∧ m !! ob_id o = Some p
       ∧ no_tainting_map (tainting_map st) = false.
Proof.
  unfold taint_entry. destruct (tainting_map st) as [m|]; [|done].
  intros Hp. exists m. split; [done|]. split; [done|].
  simpl. apply bool_decide_eq_false_2. intros ->. by rewrite lookup_empty in Hp.
Qed.

(** Rewriting the length through a list of references, then reading the
    references. *)
Lemma lookup_rewrite_lengths (n : Z) (rs : list nat) (h : list TR.t) (i : nat) :
  foldl (λ h r, alter (TR.set_length n) r h) h rs !! i
  = if bool_decide (i ∈ rs) then TR.set_length n <$> h !! i else h !! i.
Proof.
  revert h. induction rs as [|r rs IH]; intros h.
  { rewrite bool_decide_eq_false_2 by apply not_elem_of_nil. done. }
  simpl. rewrite IH.
  destruct (decide (i = r)) as [->|Hne].
  - rewrite list_lookup_alter_eq. rewrite (bool_decide_eq_true_2 (r ∈ r :: rs))
      by apply list_elem_of_here.
    destruct (bool_decide (r ∈ rs)); [|done]. by destruct (h !! r).
  - rewrite list_lookup_alter_ne by done.
    destruct (bool_decide (i ∈ rs)) eqn:E.
    + apply bool_decide_eq_true_1 in E.
      by rewrite bool_decide_eq_true_2 by (by apply list_elem_of_further).
    + apply bool_decide_eq_false_1 in E.
      rewrite bool_decide_eq_false_2; [done|].
      rewrite elem_of_cons. intros [?|?]; done.
Qed.

Lemma omap_rewrite_lengths (n : Z) (rs : list nat) (h : list TR.t) :
  omap (λ r, foldl (λ h r, alter (TR.set_length n) r h) h rs !! r) rs
  = TR.set_length n <$> omap (λ r, h !! r) rs.
Proof.
  assert (Hgen : ∀ rs0, rs0 ⊆ rs →
            omap (λ r, foldl (λ h r, alter (TR.set_length n) r h) h rs !! r) rs0
            = TR.set_length n <$> omap (λ r, h !! r) rs0).
  { induction rs0 as [|r rs0 IH]; intros Hsub; [done|]. simpl.
    rewrite lookup_rewrite_lengths.
    rewrite bool_decide_eq_true_2 by (apply Hsub, list_elem_of_here).
    assert (Hrest : rs0 ⊆ rs).
    { intros x Hx. by apply Hsub, list_elem_of_further. }
    specialize (IH Hrest).
    destruct (h !! r); simpl; [f_equal|]; exact IH. }
  by apply Hgen.
Qed.

Section StrRanges.
Context `{RT : PyRuntime}.
Variable msg : string.

Ltac mstep := unfold mbind at 1; unfold M_bind.

(** Already-text input: the ranges are copied onto the output. *)
Lemma str_aspect_propagation_unicode (text result_o : PyObject) (st : State) (p : nat) :
  fault st = None →
  PyUnicode_Check text = true →
  taint_entry st text = Some p →
  to_ranges st p ≠ [] →
  ∃ st',
    str_aspect_propagation text result_o st = (Ret (Some result_o), st')
    ∧ taint_record st' result_o = Some (range_values st (to_ranges st p)).
Proof.
  intros Hf Hu Hp Hne.
  destruct (taint_entry_map _ _ _ Hp) as (m & Hm & Hlook & Hno).
  unfold str_aspect_propagation, TRY_CATCH_ASPECT, try_catch.
  mstep. rewrite get_tainting_map_no_fault by done. rewrite Hno.
  mstep. rewrite (get_ranges_no_fault _ _ m) by done. rewrite Hlook.
  rewrite bool_decide_eq_false_2 by done. simpl. rewrite Hu.
  mstep. rewrite set_ranges_no_fault by done.
  eexists. split; [reflexivity|]. by apply (taint_record_new_entry st result_o _ m).
Qed.

(** Decoded input whose stringified form is not found in the output: the
    ranges are copied with every length set to the output's length. *)
Lemma str_aspect_propagation_fallback (text result_o check : PyObject)
    (st : State) (p : nat) :
  fault st = None →
  PyUnicode_Check text = false →
  PyObject_Str text = PyOk check →
  PyUnicode_Find result_o check 0 (PyObject_Length result_o) 1 = (-1)%Z →
  taint_entry st text = Some p →
  to_ranges st p ≠ [] →
  ∃ st',
    str_aspect_propagation text result_o st = (Ret (Some result_o), st')
    ∧ taint_record st' result_o
      = Some (TR.set_length (PyObject_Length result_o)
                <$> range_values st (to_ranges st p)).
Proof.
  intros Hf Hu Hstr Hfind Hp Hne.
  destruct (taint_entry_map _ _ _ Hp) as (m & Hm & Hlook & Hno).
  unfold str_aspect_propagation, TRY_CATCH_ASPECT, try_catch.
  mstep. rewrite get_tainting_map_no_fault by done. rewrite Hno.
  mstep. rewrite (get_ranges_no_fault _ _ m) by done. rewrite Hlook.
  rewrite bool_decide_eq_false_2 by done. simpl. rewrite Hu.
  rewrite Hstr. mstep. simpl. rewrite Hfind. simpl.
  unfold set_lengthupdated_ranges.
  mstep. mstep. unfold PyErr_Clear, modify at 1.
  mstep. unfold gets at 1. simpl. rewrite Hno.
  mstep. unfold modify at 1.
  rewrite set_ranges_no_fault by done.
  mstep. unfold Py_DECREF, modify at 1.
  eexists. split; [reflexivity|]. rewrite taint_record_with_released.
  match goal with
  | |- taint_record (with_tainting_map _ (with_tainted_objects _
         (with_taint_ranges (_ ++ ?vs) ?s))) _ = _ =>
      rewrite (taint_record_new_entry s result_o vs m) by done
  end.
  f_equal. unfold range_values. simpl. apply omap_rewrite_lengths.
Qed.

(** Tainted input that is not a [str] and on which [PyObject_Str] fails:
    the ranges are rewritten and copied, and then [Py_DECREF] is handed
    the null [check_offset]. *)
Lemma str_aspect_propagation_null_check_offset (text result_o : PyObject)
    (err : PyErr) (st : State) (p : nat) :
  fault st = None →
  PyUnicode_Check text = false →
  PyObject_Str text = PyFail err →
  taint_entry st text = Some p →
  to_ranges st p ≠ [] →
  (str_aspect_propagation text result_o st).1 = Crash.
Proof.
  intros Hf Hu Hstr Hp Hne.
  destruct (taint_entry_map _ _ _ Hp) as (m & Hm & Hlook & Hno).
  unfold str_aspect_propagation, TRY_CATCH_ASPECT, try_catch.
  mstep. rewrite get_tainting_map_no_fault by done. rewrite Hno.
  mstep. rewrite (get_ranges_no_fault _ _ m) by done. rewrite Hlook.
  rewrite bool_decide_eq_false_2 by done. simpl. rewrite Hu.
  rewrite Hstr. mstep. simpl.
  unfold set_lengthupdated_ranges.
  mstep. mstep. unfold PyErr_Clear, modify at 1.
  mstep. unfold gets at 1. simpl. rewrite Hno.
  mstep. unfold modify at 1.
  rewrite set_ranges_no_fault by done.
  mstep. by unfold Py_DECREF.
Qed.

End StrRanges.
(* ===================================================================== *)
(** ** A fault in the store of the result's entry *)
(* ===================================================================== *)

Lemma tick_pending st n e :
  fault st = Some (S n, e) → tick st = (Ret (), with_fault (Some (n, e)) st).
Proof. intros H. unfold tick. by rewrite H. Qed.

Lemma tick_fires st e :
  fault st = Some (0, e) → tick st = (Throw e, with_fault None st).
Proof. intros H. unfold tick. by rewrite H. Qed.

Lemma get_tainting_map_pending st n e :
  fault st = Some (S n, e) →
  get_tainting_map st = (Ret (tainting_map st), with_fault (Some (n, e)) st).
Proof.
  intros H. unfold get_tainting_map, mbind, M_bind. by rewrite (tick_pending _ _ _ H).
Qed.

Lemma get_tainted_object_pending o st n e :
  fault st = Some (S n, e) →
  get_tainted_object o st = (Ret (taint_entry st o), with_fault (Some (n, e)) st).
Proof.
  intros H. unfold get_tainted_object, mbind, M_bind. by rewrite (tick_pending _ _ _ H).
Qed.

Lemma new_pyobject_id_pending o st n e :
  fault st = Some (S n, e) →
  new_pyobject_id (Some o) st
  = (Ret (Some (mkPyObject (next_id st) (ob_val o))),
     with_next_id (S (next_id st)) (with_fault (Some (n, e)) st)).
Proof.
  intros H. unfold new_pyobject_id, mbind, M_bind. by rewrite (tick_pending _ _ _ H).
Qed.

Lemma set_tainted_object_fires o p st e :
  fault st = Some (0, e) →
  set_tainted_object o p st = (Throw e, with_fault None st).
Proof.
  intros H. unfold set_tainted_object, mbind, M_bind. by rewrite (tick_fires _ _ H).
Qed.

Section StoreThrows.
Context `{RT : PyRuntime}.
Variable limit : nat.

Ltac mstep := unfold mbind at 1; unfold M_bind.

Lemma add_aspect_reuse_left_store_throws (result_o a b : PyObject) (p : nat)
    (e : cpp_exception) (st : State) :
  empty_right_fast_path a b = false →
  empty_left_fast_path (Some result_o) a b = false →
  taint_entry st a = Some p →
  limit ≤ length (to_ranges st p) ∨ taint_entry st b = None →
  fault st = Some (if limit <=? length (to_ranges st p) then 2 else 3, e) →
  add_aspect limit (Some result_o) a b st
  = (Throw e,
     with_fault None
       (with_released (ob_id result_o :: released st)
          (with_next_id (S (next_id st)) st))).
Proof.
  intros H1 H2 Ha Hcase Hf. unfold add_aspect. rewrite H1, H2.
  destruct (limit <=? length (to_ranges st p)) eqn:Hlim.
  - mstep. rewrite (get_tainted_object_pending _ _ _ _ Hf). rewrite Ha.
    mstep. unfold gets at 1.
    change (to_ranges (with_fault _ st) p) with (to_ranges st p). rewrite Hlim.
    mstep. erewrite new_pyobject_id_pending by reflexivity.
    mstep. unfold Py_DecRef, modify at 1.
    mstep. by erewrite set_tainted_object_fires by reflexivity.
  - destruct Hcase as [Hle|Hb]; [apply Nat.leb_le in Hle; congruence|].
    mstep. rewrite (get_tainted_object_pending _ _ _ _ Hf). rewrite Ha.
    mstep. unfold gets at 1.
    change (to_ranges (with_fault _ st) p) with (to_ranges st p). rewrite Hlim.
    mstep. erewrite get_tainted_object_pending by reflexivity.
    change (taint_entry (with_fault _ st) b) with (taint_entry st b). rewrite Hb.
    mstep. erewrite new_pyobject_id_pending by reflexivity.
    mstep. unfold Py_DecRef, modify at 1.
    mstep. by erewrite set_tainted_object_fires by reflexivity.
Qed.

End StoreThrows.

(** C5.  The add entry point hands back a result it has released.  When
    the left operand is tainted and [add_aspect] re-keys the result to
    the left operand's TaintedObject (left at the cap, or right operand
    without an entry), [Py_DecRef(result_o)] runs between
    [new_pyobject_id] and [set_tainted_object].  If [set_tainted_object]
    then fails, the fault is caught and logged and the taint map is as it
    was, but the pointer returned to the caller is [result_o], the
    reference to which the aspect has given up on this very call: the
    caller does not get the computed result but a pointer to a released
    object. *)
Theorem api_add_aspect_returns_released_result `{RT : PyRuntime}
    (limit : nat) (msg : string) (a b result_o : PyObject) (p : nat)
    (e : cpp_exception) (st : State) :
  PyNumber_Add a b = PyOk result_o →
  args_are_text_and_same_type a b = true →
  is_notinterned_notfasttainted_unicode a
  && is_notinterned_notfasttainted_unicode b = false →
  empty_right_fast_path a b = false →
  empty_left_fast_path (Some result_o) a b = false →
  taint_entry st a = Some p →
  limit ≤ length (to_ranges st p) ∨ taint_entry st b = None →
  fault st = Some (if limit <=? length (to_ranges st p) then 3 else 4, e) →
  (api_add_aspect limit msg [a; b] st).1 = Ret (Some result_o)
  ∧ released (api_add_aspect limit msg [a; b] st).2
    = ob_id result_o :: released st
  ∧ iast_log (api_add_aspect limit msg [a; b] st).2
    = aspect_error_message "add_aspect" e :: iast_log st
  ∧ tainting_map (api_add_aspect limit msg [a; b] st).2 = tainting_map st.
Proof.
  intros Hadd Hty Hfast H1 H2 Ha Hcase Hf.
  destruct (taint_entry_map _ _ _ Ha) as (m & Hm & _ & Hno).
  assert (Hrun : api_add_aspect limit msg [a; b] st
            = (Ret (Some result_o),
               with_iast_log (aspect_error_message "add_aspect" e :: iast_log st)
                 (with_fault None
                    (with_released (ob_id result_o :: released st)
                       (with_next_id (S (next_id st)) st))))).
  { assert (Hn : ∃ n, fault st = Some (S n, e)
              ∧ n = if limit <=? length (to_ranges st p) then 2 else 3).
    { destruct (limit <=? length (to_ranges st p)); eauto. }
    destruct Hn as (n & Hf' & Hn).
    unfold api_add_aspect. rewrite Hadd.
    unfold mbind at 1. unfold M_bind, py_call, mret at 1, M_ret.
    unfold try_catch.
    unfold mbind at 1. unfold M_bind.
    rewrite (get_tainting_map_pending _ _ _ Hf'), Hno, Hty, Hfast.
    simpl negb. cbv iota.
    by rewrite (add_aspect_reuse_left_store_throws limit result_o a b p e)
      by (try done; simpl; by rewrite Hn). }
  by rewrite Hrun.
Qed.

Lemma api_add_aspect_returns_released_result_witness :
  (api_add_aspect (RT := Interp.runtime) 100 Ex.msg_n_params
     [Ex.A; Ex.B] Ex.st_store_fails).1 = Ret (Some Ex.AB)
  ∧ released (api_add_aspect (RT := Interp.runtime) 100 Ex.msg_n_params
                [Ex.A; Ex.B] Ex.st_store_fails).2 = [ob_id Ex.AB]
  ∧ iast_log (api_add_aspect (RT := Interp.runtime) 100 Ex.msg_n_params
                [Ex.A; Ex.B] Ex.st_store_fails).2
    = ["IAST propagation error in add_aspect. boom"].
Proof.
  destruct (api_add_aspect_returns_released_result (RT := Interp.runtime)
              100 Ex.msg_n_params Ex.A Ex.B Ex.AB 0 (std_exception "boom")
              Ex.st_store_fails) as (H1 & H2 & H3 & _).
  - reflexivity.
  - reflexivity.
  - reflexivity.
  - reflexivity.
  - reflexivity.
  - reflexivity.
  - right. reflexivity.
  - reflexivity.
  - split; [exact H1|]. split; [exact H2 | exact H3].
Defined.

(** The in-place entry point has the same catch clauses and hands back
    the released result in the same way. *)
Lemma api_add_inplace_aspect_store_fails :
  (api_add_inplace_aspect (RT := Interp.runtime) 100 Ex.msg_n_params
     [Ex.A; Ex.B] Ex.st_store_fails).1 = Ret (Some Ex.AB)
  ∧ released (api_add_inplace_aspect (RT := Interp.runtime) 100 Ex.msg_n_params
                [Ex.A; Ex.B] Ex.st_store_fails).2 = [ob_id Ex.AB]
  ∧ iast_log (api_add_inplace_aspect (RT := Interp.runtime) 100 Ex.msg_n_params
                [Ex.A; Ex.B] Ex.st_store_fails).2
    = ["IAST propagation error in add_aspect. boom"].
Proof. vm_compute. repeat split; reflexivity. Qed.

(** C6.  For a tainted text value converted by the str aspect in a call
    that resolves to no encoding and no errors argument, the output's
    taint ranges are the input's ranges, with the same starts, lengths
    and sources. *)
Theorem api_str_aspect_text_roundtrip `{RT : PyRuntime} (msg : string)
    (args : list PyObject) (nargs : nat) (kwnames : option (list string))
    (effective_args : Z) (orig_function text result_o : PyObject)
    (st : State) (p : nat) :
  fault st = None →
  (nargs <? 3) || (5 <? nargs) = false →
  get_args args nargs kwnames = (effective_args, orig_function, text, None, None) →
  (effective_args ≤ 3)%Z →
  PyUnicode_Check text = true →
  PyObject_Str text = PyOk result_o →
  taint_entry st text = Some p →
  to_ranges st p ≠ [] →
  ∃ st',
    api_str_aspect msg args nargs kwnames st = (Ret (Some result_o), st')
    ∧ taint_record st' result_o = taint_record st text
    ∧ taint_record st text = Some (range_values st (to_ranges st p)).
Proof.
  intros Hf Hn Hargs Heff Hu Hstr Hp Hne.
  destruct (str_aspect_propagation_unicode text result_o st p Hf Hu Hp Hne)
    as (st' & Hrun & Hrec).
  assert (Hold : taint_record st text = Some (range_values st (to_ranges st p))).
  { by rewrite taint_record_entry, Hp. }
  exists st'. split; [|by rewrite Hrec, Hold].
  unfold api_str_aspect. rewrite Hn, Hargs.
  apply Z.ltb_ge in Heff. rewrite Heff. simpl.
  unfold is_text. rewrite Hu. simpl. rewrite Hstr.
  unfold mbind at 1. unfold M_bind. simpl. exact Hrun.
Qed.

Lemma api_str_aspect_text_roundtrip_witness :
  ∃ st',
    api_str_aspect (RT := Interp.runtime) Ex.msg_n_params
      [Ex.str_fn; Ex.flag; Ex.A] 3 None Ex.st_both = (Ret (Some Ex.A), st')
    ∧ taint_record st' Ex.A = Some [TR.mk 0 3 Ex.src1].
Proof.
  destruct (api_str_aspect_text_roundtrip (RT := Interp.runtime) Ex.msg_n_params
              [Ex.str_fn; Ex.flag; Ex.A] 3 None 1 Ex.str_fn Ex.A Ex.A Ex.st_both 0)
    as (st' & H1 & H2 & H3).
  - reflexivity.
  - reflexivity.
  - reflexivity.
  - lia.
  - reflexivity.
  - reflexivity.
  - vm_compute. reflexivity.
  - vm_compute. discriminate.
  - exists st'. split; [exact H1|]. rewrite H2, H3. vm_compute. reflexivity.
Defined.

(** C7.  For a decode of a tainted [bytes] or [bytearray] value by the
    str aspect (an encoding or an error mode is supplied) in which the
    stringified form of the input is not found in the decoded output, the
    output's taint ranges are the input's ranges, in order and with their
    starts and sources, each with its length set to the output's total
    length. *)
Theorem api_str_aspect_decode_fallback `{RT : PyRuntime} (msg : string)
    (args : list PyObject) (nargs : nat) (kwnames : option (list string))
    (effective_args : Z) (orig_function text : PyObject)
    (pyo_encoding pyo_errors : option PyObject)
    (has_encoding has_errors : bool) (raw : list byte)
    (result_o check : PyObject) (st : State) (p : nat) :
  fault st = None →
  py_err st = None →
  (nargs <? 3) || (5 <? nargs) = false →
  get_args args nargs kwnames
  = (effective_args, orig_function, text, pyo_encoding, pyo_errors) →
  (effective_args ≤ 3)%Z →
  has_nonempty pyo_encoding st = (Ret has_encoding, st) →
  has_nonempty pyo_errors st = (Ret has_errors, st) →
  has_encoding || has_errors = true →
  ob_val text = PyBytes raw ∨ ob_val text = PyByteArray raw →
  PyUnicode_Decode raw
    (if has_encoding then PyUnicode_AsUTF8 pyo_encoding else "utf-8")
    (if has_errors then PyUnicode_AsUTF8 pyo_errors else "strict")
  = PyOk result_o →
  PyObject_Str text = PyOk check →
  PyUnicode_Find result_o check 0 (PyObject_Length result_o) 1 = (-1)%Z →
  taint_entry st text = Some p →
  to_ranges st p ≠ [] →
  ∃ st',
    api_str_aspect msg args nargs kwnames st = (Ret (Some result_o), st')
    ∧ taint_record st' result_o
      = Some (TR.set_length (PyObject_Length result_o)
                <$> default [] (taint_record st text)).
Proof.
  intros Hf Herr Hn Hargs Heff Henc Herrs Hany Hval Hdec Hstr Hfind Hp Hne.
  assert (Hu : PyUnicode_Check text = false).
  { unfold PyUnicode_Check. by destruct Hval as [-> | ->]. }
  assert (Htext : is_text text = true
                  ∧ PyByteArray_Check text || PyBytes_Check text = true).
  { unfold is_text, PyUnicode_Check, PyBytes_Check, PyByteArray_Check.
    by destruct Hval as [-> | ->]. }
  destruct Htext as [Htext Hbytes].
  destruct (str_aspect_propagation_fallback text result_o check st p
              Hf Hu Hstr Hfind Hp Hne) as (st' & Hrun & Hrec).
  exists st'. split.
  - unfold api_str_aspect. rewrite Hn, Hargs.
    apply Z.ltb_ge in Heff. rewrite Heff.
    unfold mbind at 1. unfold M_bind. rewrite Henc.
    unfold mbind at 1. unfold M_bind. rewrite Herrs.
    assert (Hcall : has_encoding && negb (PyByteArray_Check text)
                    && negb (PyBytes_Check text) = false).
    { destruct has_encoding; [|done]. simpl.
      by destruct (PyByteArray_Check text), (PyBytes_Check text). }
    rewrite Hcall, Htext. simpl.
    assert (Hfast : negb has_encoding && negb has_errors = false).
    { by destruct has_encoding, has_errors. }
    rewrite Hfast.
    assert (Hraw : match ob_val text with
                   | PyByteArray b => mret (Some b)
                   | _ => PyBytes_AsStringAndSize text
                   end st = (Ret (Some raw), st)).
    { unfold PyBytes_AsStringAndSize. by destruct Hval as [-> | ->]. }
    unfold mbind at 1. unfold M_bind. rewrite Hraw.
    rewrite Hdec. unfold mbind at 1. unfold M_bind. simpl.
    unfold mbind at 1. unfold M_bind, PyErr_Occurred, gets. rewrite Herr.
    rewrite bool_decide_eq_false_2 by (by intros [? ?]). exact Hrun.
  - rewrite Hrec. by rewrite (taint_record_entry st text), Hp.
Qed.

Lemma api_str_aspect_decode_fallback_witness :
  ∃ st',
    api_str_aspect (RT := Interp.runtime) Ex.msg_n_params
      [Ex.str_fn; Ex.flag; Ex.raw_ab; Ex.utf8] 4 None Ex.st_bytes
    = (Ret (Some (mkPyObject 900 (PyUnicode "ab"))), st')
    ∧ taint_record Ex.st_bytes Ex.raw_ab = Some [TR.mk 0 1 Ex.src1]
    ∧ taint_record st' (mkPyObject 900 (PyUnicode "ab")) = Some [TR.mk 0 2 Ex.src1].
Proof.
  destruct (api_str_aspect_decode_fallback (RT := Interp.runtime) Ex.msg_n_params
              [Ex.str_fn; Ex.flag; Ex.raw_ab; Ex.utf8] 4 None
              2 Ex.str_fn Ex.raw_ab (Some Ex.utf8) None true false
              ["a"%byte; "b"%byte] (mkPyObject 900 (PyUnicode "ab"))
              (mkPyObject 27 (PyUnicode "b'ab'")) Ex.st_bytes 0)
    as (st' & H1 & H2).
  - reflexivity.
  - reflexivity.
  - reflexivity.
  - reflexivity.
  - lia.
  - reflexivity.
  - reflexivity.
  - reflexivity.
  - left. reflexivity.
  - reflexivity.
  - reflexivity.
  - reflexivity.
  - vm_compute. reflexivity.
  - vm_compute. discriminate.
  - exists st'. split; [exact H1|]. split; [vm_compute; reflexivity|].
    rewrite H2. vm_compute. reflexivity.
Defined.

(* ===================================================================== *)
(** ** str aspect: argument resolution *)
(* ===================================================================== *)

(** The keyword loop stops counting as soon as the count exceeds 3. *)
Lemma get_args_keywords_bound args nargs kwnames i eff enc errs :
  (eff ≤ 4)%Z →
  ((get_args_keywords args nargs kwnames i eff enc errs).1.1 ≤ 4)%Z.
Proof.
  revert i eff enc errs. induction kwnames as [|key rest IH]; intros i eff enc errs Hle.
  - done.
  - simpl. destruct (3 <? eff)%Z eqn:E; [done|].
    apply Z.ltb_ge in E.
    destruct (String.eqb key "encoding"); [apply IH; lia|].
    destruct (String.eqb key "errors"); apply IH; lia.
Qed.

Section StrArity.
Context `{RT : PyRuntime}.

Lemma get_args_effective_args_bound args nargs kwnames eff orig text enc errs :
  get_args args nargs kwnames = (eff, orig, text, enc, errs) → (eff ≤ 4)%Z.
Proof.
  unfold get_args. intros H.
  destruct (3 <? nargs), (4 <? nargs), kwnames as [names|];
    try (injection H as <- _ _ _ _; lia);
    match type of H with
    | context [get_args_keywords ?a ?n ?k ?i ?e ?x ?y] =>
        pose proof (get_args_keywords_bound a n k i e x y ltac:(lia)) as Hb;
        destruct (get_args_keywords a n k i e x y) as [[eff' enc'] errs'];
        injection H as <- _ _ _ _; exact Hb
    end.
Qed.

(** More than 3 effective arguments: the aspect raises TypeError itself,
    and the count in its message is always 4. *)
Lemma api_str_aspect_too_many_arguments msg args nargs kwnames st
    eff orig text enc errs :
  (nargs <? 3) || (5 <? nargs) = false →
  get_args args nargs kwnames = (eff, orig, text, enc, errs) →
  (3 < eff)%Z →
  api_str_aspect msg args nargs kwnames st
  = (Ret None,
     with_py_err
       (Some (mkPyErr PyExc_TypeError "str() takes at most 3 arguments (4 given)")) st).
Proof.
  intros Hn Hargs Hlt.
  pose proof (get_args_effective_args_bound _ _ _ _ _ _ _ _ Hargs) as Hle.
  assert (eff = 4%Z) as -> by lia.
  unfold api_str_aspect. by rewrite Hn, Hargs.
Qed.

(** A value that is not text-like, converted with an error mode and no
    encoding: the aspect returns the plain stringification. *)
Lemma api_str_aspect_nontext_errors_only msg args nargs kwnames st
    eff orig text errs mode :
  (nargs <? 3) || (5 <? nargs) = false →
  get_args args nargs kwnames = (eff, orig, text, None, Some errs) →
  (eff ≤ 3)%Z →
  ob_val errs = PyUnicode mode →
  is_text text = false →
  api_str_aspect msg args nargs kwnames st = py_call (PyObject_Str text) st.
Proof.
  intros Hn Hargs Heff Hmode Htext.
  unfold api_str_aspect. rewrite Hn, Hargs.
  apply Z.ltb_ge in Heff. rewrite Heff.
  unfold has_nonempty, PyUnicode_GetLength. rewrite Hmode.
  unfold mbind, M_bind, mret, M_ret. simpl. by rewrite Htext.
Qed.

End StrArity.

(** C8, at a call that passes five arguments to [str].  The call
    [str(b"ab", "utf-8", "strict", encoding="utf-8", errors="strict")]
    fails in the aspect with TypeError, but the message counts 4
    arguments where the call gives 5. *)
Theorem api_str_aspect_arity_message :
  (api_str_aspect (RT := Interp.runtime) Ex.msg_n_params
     [Ex.str_fn; Ex.flag; Ex.raw_ab; Ex.utf8; Ex.strict; Ex.utf8; Ex.strict]
     5 (Some ["encoding"; "errors"]) Ex.st_bytes).1 = Ret None
  ∧ py_err (api_str_aspect (RT := Interp.runtime) Ex.msg_n_params
              [Ex.str_fn; Ex.flag; Ex.raw_ab; Ex.utf8; Ex.strict; Ex.utf8; Ex.strict]
              5 (Some ["encoding"; "errors"]) Ex.st_bytes).2
    = Some (mkPyErr PyExc_TypeError "str() takes at most 3 arguments (4 given)")
  ∧ arguments_given 5 (Some ["encoding"; "errors"]) = 5
  ∧ str_arity_error 5
    = mkPyErr PyExc_TypeError "str() takes at most 3 arguments (5 given)".
Proof. vm_compute. repeat split; reflexivity. Qed.

(** C4, at a call of the str aspect with a value that is not text-like
    and an error mode only.  [str(5, errors="strict")] returns the text
    "5" from the aspect with no error set, where the un-instrumented
    conversion, which decodes as soon as an error mode is present, fails;
    with an encoding instead of the error mode the aspect does delegate
    and the call fails as the original does. *)
Theorem api_str_aspect_errors_only_value :
  (api_str_aspect (RT := Interp.runtime) Ex.msg_n_params
     [Ex.str_fn; Ex.flag; Ex.five; Ex.strict] 3 (Some ["errors"]) Ex.st_both).1
  = Ret (Some (mkPyObject 23 (PyUnicode "5")))
  ∧ py_err (api_str_aspect (RT := Interp.runtime) Ex.msg_n_params
              [Ex.str_fn; Ex.flag; Ex.five; Ex.strict] 3 (Some ["errors"])
              Ex.st_both).2 = None
  ∧ uninstrumented_str (RT := Interp.runtime) Ex.five None (Some "strict")
    = PyFail (mkPyErr PyExc_TypeError "decoding to str: need a bytes-like object")
  ∧ (api_str_aspect (RT := Interp.runtime) Ex.msg_n_params
       [Ex.str_fn; Ex.flag; Ex.five; Ex.utf8] 4 None Ex.st_both).1 = Ret None
  ∧ py_err (api_str_aspect (RT := Interp.runtime) Ex.msg_n_params
              [Ex.str_fn; Ex.flag; Ex.five; Ex.utf8] 4 None Ex.st_both).2
    = Some (mkPyErr PyExc_TypeError "decoding to str: need a bytes-like object").
Proof. vm_compute. repeat split; reflexivity. Qed.

(* ===================================================================== *)
(** ** The value the add entry point returns *)
(* ===================================================================== *)

Section AddValue.
Context `{RT : PyRuntime}.
Variable limit : nat.
Variable msg : string.

(** Every object [add_aspect] returns has the value of the result of the
    addition, provided an operand returned by a fast path has it. *)
Lemma final_add_aspect_value (r a b : PyObject) :
  (empty_right_fast_path a b = true → ob_val a = ob_val r) →
  (empty_left_fast_path (Some r) a b = true → ob_val b = ob_val r) →
  final (λ o, ∃ x, o = Some x ∧ ob_val x = ob_val r)
    (add_aspect limit (Some r) a b).
Proof.
  intros Hright Hleft. unfold add_aspect.
  set (P := λ o : option PyObject, ∃ x, o = Some x ∧ ob_val x = ob_val r).
  assert (Hr : P (Some r)) by (by exists r).
  destruct (empty_right_fast_path a b).
  { apply silent_final, silent_mret. exists a. eauto. }
  destruct (empty_left_fast_path (Some r) a b).
  { apply silent_final, silent_mret. exists b. eauto. }
  assert (Hreuse : ∀ p, final P
            (res_new_id ← new_pyobject_id (Some r);
             Py_DecRef (Some r);;
             set_tainted_object res_new_id p;; mret res_new_id)).
  { intros p. eapply (final_bind P); [|auto with faults|].
    - apply final_tick_then. intros st. eexists _, _.
      split; [reflexivity|]. split; [|done]. by eexists.
    - intros res Hres.
      eapply (final_bind (λ _, True));
        [apply silent_final, silent_Py_DecRef | apply keeps_map_Py_DecRef |].
      intros _ _.
      eapply (final_bind_silent (λ _, True)); [auto with faults|].
      intros _ _. by apply silent_mret. }
  eapply (final_bind (λ _, True)); [auto with faults..|]. intros to_a _.
  eapply (final_bind (λ _, True));
    [apply silent_final; by apply silent_gets | auto with faults |].
  intros at_limit _.
  assert (Hrest : final P
            (to_text_to_add ← get_tainted_object b;
             match to_a, to_text_to_add with
             | None, None => mret (Some r)
             | Some p, None =>
                 res_new_id ← new_pyobject_id (Some r);
                 Py_DecRef (Some r);;
                 set_tainted_object res_new_id p;; mret res_new_id
             | _, Some q =>
                 tainted ← allocate_tainted_object_copy to_a;
                 add_ranges_shifted limit tainted q (Z.of_nat (get_pyobject_size a));;
                 set_tainted_object (Some r) tainted;; mret (Some r)
             end)).
  { eapply (final_bind (λ _, True)); [auto with faults..|]. intros to_b _.
    assert (Hcombine : ∀ q, final P
              (tainted ← allocate_tainted_object_copy to_a;
               add_ranges_shifted limit tainted q (Z.of_nat (get_pyobject_size a));;
               set_tainted_object (Some r) tainted;; mret (Some r))).
    { intros q. eapply (final_bind (λ _, True)); [auto with faults..|].
      intros tainted _.
      eapply (final_bind (λ _, True)); [auto with faults..|]. intros _ _.
      eapply (final_bind_silent (λ _, True)); [auto with faults|]. intros _ _.
      by apply silent_mret. }
    destruct to_a as [p|], to_b as [q|]; auto.
    by apply silent_final, silent_mret. }
  destruct to_a as [p|]; [|exact Hrest].
  destruct at_limit; [apply Hreuse | exact Hrest].
Qed.

(** The pointer the add entry point returns is to a value equal to the
    real addition's result, under every fault schedule, given that adding
    an empty text returns the other operand's content and that an
    identity has one value.  (After a fault the pointer itself may be to
    the result the aspect has released.) *)
Lemma api_add_aspect_value (a b r : PyObject) (st : State) :
  PyNumber_Add a b = PyOk r →
  (args_are_text_and_same_type a b = true → get_pyobject_size b = 0 →
   ob_val a = ob_val r) →
  (ob_id b = ob_id r → ob_val b = ob_val r) →
  ∃ x, (api_add_aspect limit msg [a; b] st).1 = Ret (Some x)
       ∧ ob_val x = ob_val r.
Proof.
  intros Hadd Hright Hleft.
  set (P := λ o : option PyObject, ∃ x, o = Some x ∧ ob_val x = ob_val r).
  assert (Hr : P (Some r)) by (by exists r).
  unfold api_add_aspect. rewrite Hadd. unfold mbind at 1. unfold M_bind. simpl.
  match goal with
  | |- context [try_catch ?body ?handler st] =>
      destruct (try_catch_contains P body handler "add_aspect" (Some r) st)
        as [(o & Ho & Hval) _]
  end.
  - eapply (final_bind (λ _, True)); [auto with faults..|]. intros tx_map _.
    destruct (no_tainting_map tx_map); [by apply silent_final, silent_mret|].
    destruct (args_are_text_and_same_type a b) eqn:Hty; simpl;
      [|by apply silent_final, silent_mret].
    destruct (_ && _); [by apply silent_final, silent_mret|].
    apply final_add_aspect_value.
    + unfold empty_right_fast_path. intros [Hb _]%andb_true_iff.
      apply Hright; [done|]. by apply Nat.eqb_eq.
    + unfold empty_left_fast_path, same_object.
      intros [_ Hid]%andb_true_iff. apply Hleft. by apply Nat.eqb_eq.
  - done.
  - rewrite Ho. destruct Hval as [(x & -> & Hx) | ->]; eauto.
Qed.

End AddValue.

(* ===================================================================== *)
(** ** The value the str entry point returns *)
(* ===================================================================== *)

Section StrValue.
Context `{RT : PyRuntime}.
Variable msg : string.

Lemma has_nonempty_str_argument (o : option PyObject) (name : option string) st :
  str_argument o name →
  has_nonempty o st = (Ret (match name with Some _ => true | None => false end), st)
  ∧ (∀ s, name = Some s → PyUnicode_AsUTF8 o = s).
Proof.
  destruct o as [o|], name as [s|]; simpl; try done.
  intros [Hval Hne]. unfold PyUnicode_GetLength, PyUnicode_AsUTF8. simpl.
  rewrite Hval. split; [|by intros ? [= ->]].
  unfold mbind, M_bind, mret, M_ret. simpl. do 2 f_equal.
  destruct s; [done|]. apply Z.ltb_lt. simpl. lia.
Qed.

(** For a [bytes] or [bytearray] value, with the encoding and the error
    mode absent or non-empty, the str entry point returns what the
    un-instrumented conversion returns, under every fault schedule,
    unless it ends the process at [Py_DECREF(check_offset)]. *)
Lemma api_str_aspect_value_bytes (args : list PyObject) (nargs : nat)
    (kwnames : option (list string)) (effective_args : Z)
    (orig_function text : PyObject) (pyo_encoding pyo_errors : option PyObject)
    (encoding errors : option string) (raw : list byte) (st : State) :
  py_err st = None →
  (nargs <? 3) || (5 <? nargs) = false →
  get_args args nargs kwnames
  = (effective_args, orig_function, text, pyo_encoding, pyo_errors) →
  (effective_args ≤ 3)%Z →
  str_argument pyo_encoding encoding →
  str_argument pyo_errors errors →
  ob_val text = PyBytes raw ∨ ob_val text = PyByteArray raw →
  ret_unless (null_check_offset text)
    (result_pointer (uninstrumented_str text encoding errors))
    (api_str_aspect msg args nargs kwnames st).1.
Proof.
  intros Herr Hn Hargs Heff Henc Herrs Hval.
  destruct (has_nonempty_str_argument _ _ st Henc) as [Hhe Hne].
  destruct (has_nonempty_str_argument _ _ st Herrs) as [Hhr Hnr].
  assert (Htext : is_text text = true
                  ∧ PyByteArray_Check text || PyBytes_Check text = true).
  { unfold is_text, PyUnicode_Check, PyBytes_Check, PyByteArray_Check.
    by destruct Hval as [-> | ->]. }
  destruct Htext as [Htext Hbytes].
  unfold api_str_aspect. rewrite Hn, Hargs.
  apply Z.ltb_ge in Heff. rewrite Heff.
  unfold mbind at 1. unfold M_bind. rewrite Hhe.
  unfold mbind at 1. unfold M_bind. rewrite Hhr.
  assert (Hcall : ∀ b : bool, b && negb (PyByteArray_Check text)
                              && negb (PyBytes_Check text) = false).
  { intros b. destruct b; [|done]. simpl.
    by destruct (PyByteArray_Check text), (PyBytes_Check text). }
  rewrite Hcall, Htext. simpl.
  assert (Hraw : match ob_val text with
                 | PyByteArray b => mret (Some b)
                 | _ => PyBytes_AsStringAndSize text
                 end st = (Ret (Some raw), st)).
  { unfold PyBytes_AsStringAndSize. by destruct Hval as [-> | ->]. }
  assert (Hdecode : ∀ enc errs,
            ret_unless (null_check_offset text)
              (result_pointer (PyUnicode_Decode raw enc errs))
              ((result_o ← py_call (PyUnicode_Decode raw enc errs);
                occurred ← PyErr_Occurred;
                if (occurred : bool) then mret None
                else match result_o with
                     | None => mret (Some Py_None)
                     | Some result_o => str_aspect_propagation text result_o
                     end) st).1).
  { intros enc errs. unfold mbind at 1. unfold M_bind.
    destruct (PyUnicode_Decode raw enc errs) as [o|e]; simpl.
    - unfold mbind, M_bind, PyErr_Occurred, gets. rewrite Herr.
      rewrite bool_decide_eq_false_2 by (by intros [? ?]).
      by destruct (str_aspect_propagation_contains text o st) as [Hr _].
    - unfold mbind, M_bind, PyErr_Occurred, gets. by left. }
  destruct encoding as [enc|], errors as [errs|]; simpl.
  - unfold mbind at 1. unfold M_bind. rewrite Hraw.
    rewrite (Hne enc eq_refl), (Hnr errs eq_refl).
    assert (He : enc ≠ "") by (destruct pyo_encoding; [apply Henc | done]).
    assert (Hr : errs ≠ "") by (destruct pyo_errors; [apply Herrs | done]).
    apply String.eqb_neq in He, Hr. rewrite He, Hr.
    destruct Hval as [-> | ->]; apply Hdecode.
  - unfold mbind at 1. unfold M_bind. rewrite Hraw.
    rewrite (Hne enc eq_refl).
    assert (He : enc ≠ "") by (destruct pyo_encoding; [apply Henc | done]).
    apply String.eqb_neq in He. rewrite He.
    destruct Hval as [-> | ->]; apply Hdecode.
  - unfold mbind at 1. unfold M_bind. rewrite Hraw.
    rewrite (Hnr errs eq_refl).
    assert (Hr : errs ≠ "") by (destruct pyo_errors; [apply Herrs | done]).
    apply String.eqb_neq in Hr. rewrite Hr.
    destruct Hval as [-> | ->]; apply Hdecode.
  - destruct (PyObject_Str text) as [o|e] eqn:Hs; simpl; [|by left].
    unfold mbind, M_bind. simpl. left.
    apply str_aspect_propagation_returns. intros [_ [err Herr']]. congruence.
Qed.

End StrValue.

(* ===================================================================== *)
(** ** The entry points never let an exception out *)
(* ===================================================================== *)

Lemma returns_mret {A} (a : A) : returns (mret a).
Proof. intros st. by exists a. Qed.

Lemma returns_bind {A B} (m : M A) (k : A → M B) :
  returns m → (∀ a, returns (k a)) → returns (m ≫= k).
Proof.
  intros Hm Hk st. destruct (Hm st) as [a Ha]. unfold mbind, M_bind.
  destruct (m st) as [[a'|e|] s1]; simpl in *; [|done..]. apply Hk.
Qed.

Lemma returns_returns_unless {A} (C : Prop) (m : M A) :
  returns m → returns_unless C m.
Proof. intros H st. left. apply H. Qed.

Lemma returns_unless_bind {A B} (C : Prop) (m : M A) (k : A → M B) :
  returns m → (∀ a, returns_unless C (k a)) → returns_unless C (m ≫= k).
Proof.
  intros Hm Hk st. destruct (Hm st) as [a Ha]. unfold mbind, M_bind.
  destruct (m st) as [[a'|e|] s1]; simpl in *; [|done..]. apply Hk.
Qed.

Lemma returns_modify (f : State → State) : returns (modify f).
Proof. intros st. by exists (). Qed.

Lemma returns_gets {A} (f : State → A) : returns (gets f).
Proof. intros st. by exists (f st). Qed.

Lemma returns_py_call (r : PyResult) : returns (py_call r).
Proof. intros st. destruct r; by eexists. Qed.

Lemma returns_try_catch {A} (P : A → Prop) (body : M A)
    (handler : cpp_exception → M A) :
  final P body → (∀ e, returns (handler e)) → returns (try_catch body handler).
Proof.
  intros Hb Hh st. unfold try_catch. specialize (Hb st).
  destruct (body st) as [[a|e|] s1]; [by exists a | apply Hh | by destruct Hb].
Qed.

Lemma returns_has_nonempty (p : option PyObject) : returns (has_nonempty p).
Proof.
  destruct p as [o|]; [|apply returns_mret].
  apply returns_bind; [|intros; apply returns_mret].
  unfold PyUnicode_GetLength. destruct (ob_val o); intros st; by eexists.
Qed.

Section Returns.
Context `{RT : PyRuntime}.
Variable limit : nat.
Variable msg : string.

Lemma returns_unless_str_aspect_propagation (text result_o : PyObject) :
  returns_unless (null_check_offset text) (str_aspect_propagation text result_o).
Proof.
  intros st.
  destruct (str_aspect_propagation_contains text result_o st)
    as [[Hret | Hcrash] _]; [left; by eauto | by right].
Qed.

(** The conversion of the raw bytes: a value that is not [bytes] leaves
    the error indicator set, so the aspect returns NULL and the throw
    after it is never reached. *)
Lemma returns_raw_bytes (C : Prop) (text : PyObject)
    (k : list byte → M (option PyObject)) :
  (∀ raw, returns_unless C (k raw)) →
  returns_unless C
    (raw ← match ob_val text with
           | PyByteArray b => mret (Some b)
           | _ => PyBytes_AsStringAndSize text
           end;
     match raw with
     | None =>
         failed ← has_pyerr;
         if (failed : bool) then mret None else throw (error_already_set "")
     | Some text_raw_bytes => k text_raw_bytes
     end).
Proof.
  intros Hk st. unfold PyBytes_AsStringAndSize.
  destruct (ob_val text) eqn:E; try apply Hk; left; by exists None.
Qed.

(** [text] is the third entry of the argument vector. *)
Lemma get_args_text (args : list PyObject) (nargs : nat)
    (kwnames : option (list string)) :
  (get_args args nargs kwnames).1.1.2 = arg_at args 2
  ∧ (get_args args nargs kwnames).1.1.1.2 = arg_at args 0.
Proof.
  unfold get_args. destruct (3 <? nargs), (4 <? nargs), kwnames;
    try destruct (get_args_keywords _ _ _ _ _ _ _) as [[? ?] ?]; done.
Qed.

(** X1.  Whatever the arguments, the state and the scheduled fault, no
    C++ exception leaves the entry points of the two aspects.  The add
    entry points always return, a pointer or NULL.  The str entry point
    returns too, unless it ends the process: that happens only at
    [Py_DECREF(check_offset)], when [PyObject_Str] has failed on a value
    that is not a [str]. *)
Theorem aspects_never_throw (args : list PyObject) (nargs : nat)
    (kwnames : option (list string)) :
  returns (api_add_aspect limit msg args)
  ∧ returns (api_add_inplace_aspect limit msg args)
  ∧ returns_unless (null_check_offset (arg_at args 2))
      (api_str_aspect msg args nargs kwnames).
Proof.
  assert (Hadd : ∀ r a b a' b', returns
            (result_o ← py_call r;
             try_catch
               (tx_map ← get_tainting_map;
                if no_tainting_map tx_map then mret result_o
                else if negb (args_are_text_and_same_type a b) then mret result_o
                else if is_notinterned_notfasttainted_unicode a
                        && is_notinterned_notfasttainted_unicode b then mret result_o
                else add_aspect limit result_o (a' result_o) (b' result_o))
               (λ e, iast_taint_log_error (aspect_error_message "add_aspect" e);;
                     mret result_o))).
  { intros r a b a' b'. apply returns_bind; [apply returns_py_call|]. intros result_o.
    eapply returns_try_catch; [apply (final_api_add_body limit result_o a b)|].
    intros e. apply returns_bind; [apply returns_modify|].
    intros; apply returns_mret. }
  assert (Hset : ∀ ty s, returns (set_error ty s;; mret (None : option PyObject))).
  { intros. apply returns_bind; [apply returns_modify|]. intros; apply returns_mret. }
  split; [|split].
  - unfold api_add_aspect.
    destruct args as [|a [|b [|c rest]]]; try apply Hset.
    apply (Hadd _ a b (λ _, a) (λ _, b)).
  - unfold api_add_inplace_aspect.
    destruct args as [|a [|b [|c rest]]]; try apply Hset.
    apply (Hadd _ a b (λ r, pointee_after r a) (λ r, pointee_after r b)).
  - destruct (get_args_text args nargs kwnames) as [Htext _].
    unfold api_str_aspect.
    destruct (_ || _); [apply returns_returns_unless, Hset|].
    destruct (get_args args nargs kwnames) as [[[[eff orig] text] enc] errs].
    simpl in Htext. subst text.
    set (text := arg_at args 2).
    destruct (3 <? eff)%Z; [apply returns_returns_unless, Hset|].
    apply returns_unless_bind; [apply returns_has_nonempty|]. intros has_encoding.
    apply returns_unless_bind; [apply returns_has_nonempty|]. intros has_errors.
    destruct (_ && _ && _); [apply returns_returns_unless, returns_py_call|].
    destruct (negb (is_text text)); [apply returns_returns_unless, returns_py_call|].
    destruct (_ && _).
    { apply returns_unless_bind; [apply returns_py_call|]. intros [result_o|].
      - apply returns_unless_str_aspect_propagation.
      - apply returns_returns_unless, returns_mret. }
    apply returns_raw_bytes. intros raw.
    apply returns_unless_bind; [apply returns_py_call|]. intros result_o.
    apply returns_unless_bind; [apply returns_gets|]. intros occurred.
    destruct occurred; [apply returns_returns_unless, returns_mret|].
    destruct result_o;
      [apply returns_unless_str_aspect_propagation
      | apply returns_returns_unless, returns_mret].
Qed.
End Returns.

(* ===================================================================== *)
(** ** Untainted input: nothing is written *)
(* ===================================================================== *)

Ltac mrun := unfold mbind at 1; unfold M_bind.

Lemma taint_same_refl (st : State) : taint_same st st.
Proof. done. Qed.

Lemma taint_same_trans (s3 s2 s1 : State) :
  taint_same s3 s2 → taint_same s2 s1 → taint_same s3 s1.
Proof. intros (?&?&?) (?&?&?). repeat split; congruence. Qed.

Lemma taint_same_entry (st' st : State) (o : PyObject) :
  taint_same st' st → taint_entry st' o = taint_entry st o.
Proof. intros (Hm&_&_). unfold taint_entry. by rewrite Hm. Qed.

Lemma frame_when_mret C {A} (a : A) : frame_when C (mret a).
Proof. by intros st _. Qed.

Lemma frame_when_bind C {A B} (m : M A) (k : A → M B) :
  frame_when C m → (∀ a, frame_when C (k a)) → frame_when C (m ≫= k).
Proof.
  intros Hm Hk st HC. specialize (Hm st HC). unfold mbind, M_bind.
  destruct (m st) as [[a|e|] s1]; simpl in *; [|done..].
  eapply taint_same_trans; [|exact Hm]. apply Hk.
  destruct Hm as (-> & _). exact HC.
Qed.

Lemma frame_when_gets C {A} (f : State → A) : frame_when C (gets f).
Proof. by intros st _. Qed.

Lemma frame_when_tick C : frame_when C tick.
Proof. intros st _. unfold tick. by destruct (fault st) as [[[|n] e]|]. Qed.

Lemma frame_when_py_call C (r : PyResult) : frame_when C (py_call r).
Proof. intros st _. by destruct r. Qed.

Lemma frame_when_set_error C ty s : frame_when C (set_error ty s).
Proof. by intros st _. Qed.

Lemma frame_when_log C s : frame_when C (iast_taint_log_error s).
Proof. by intros st _. Qed.

Lemma frame_when_has_nonempty C (p : option PyObject) : frame_when C (has_nonempty p).
Proof.
  intros st _. destruct p as [o|]; [|done].
  unfold has_nonempty, PyUnicode_GetLength. by destruct (ob_val o).
Qed.

Lemma frame_when_try_catch C {A} (body : M A) (handler : cpp_exception → M A) :
  frame_when C body → (∀ e, frame_when C (handler e)) →
  frame_when C (try_catch body handler).
Proof.
  intros Hb Hh st HC. specialize (Hb st HC). unfold try_catch.
  destruct (body st) as [[a|e|] s1]; simpl in *; [done| |done].
  eapply taint_same_trans; [|exact Hb]. apply Hh.
  destruct Hb as (-> & _). exact HC.
Qed.

(** The taint map has no entry for the identity [id]; so it is when the
    map is disabled or empty. *)
Lemma no_tainting_map_no_entry (tx_map : option (gmap nat addr)) (id : nat) :
  no_tainting_map tx_map = true → tx_map ≫= (.!! id) = None.
Proof.
  destruct tx_map as [m|]; [|done]. simpl. intros H.
  apply bool_decide_eq_true_1 in H. by subst.
Qed.

Section Untainted.
Context `{RT : PyRuntime}.
Variable limit : nat.
Variable msg : string.

Lemma frame_when_get_tainting_map C : frame_when C get_tainting_map.
Proof.
  apply frame_when_bind; [apply frame_when_tick|]. intros; apply frame_when_gets.
Qed.

Lemma frame_when_get_tainted_object C o : frame_when C (get_tainted_object o).
Proof.
  apply frame_when_bind; [apply frame_when_tick|]. intros; apply frame_when_gets.
Qed.

Lemma frame_when_get_ranges C o : frame_when C (get_ranges o).
Proof.
  apply frame_when_bind; [apply frame_when_tick|]. intros; apply frame_when_gets.
Qed.

(** What [get_ranges] hands out for an object without an entry. *)
Lemma get_ranges_untainted (o : PyObject) (st : State) :
  taint_entry st o = None →
  match (get_ranges o st).1 with
  | Ret (ranges, _) => ranges = []
  | Throw _ => True
  | Crash => True
  end.
Proof.
  intros H. unfold get_ranges, tick. mrun.
  unfold taint_entry in H.
  destruct (fault st) as [[[|n] e]|]; simpl; [done| |];
    destruct (tainting_map st) as [m|]; simpl; try done; by rewrite H.
Qed.

Lemma str_aspect_propagation_untainted (text result_o : PyObject) :
  frame_when (λ tx_map, tx_map ≫= (.!! ob_id text) = None)
             (str_aspect_propagation text result_o).
Proof.
  unfold str_aspect_propagation, TRY_CATCH_ASPECT.
  apply frame_when_try_catch.
  2:{ intros e. apply frame_when_bind; [apply frame_when_log|].
      intros; apply frame_when_bind; intros; apply frame_when_mret. }
  apply frame_when_bind; [apply frame_when_get_tainting_map|]. intros tx_map.
  destruct (no_tainting_map tx_map); [apply frame_when_mret|].
  intros st HC.
  assert (Hr := get_ranges_untainted text st).
  assert (Hf := frame_when_get_ranges (λ _, True) text st I).
  unfold mbind at 1; unfold M_bind.
  destruct (get_ranges text st) as [[[ranges err]|e|] s1]; simpl in *; [|done..].
  rewrite Hr.
  2:{ unfold taint_entry. destruct (tainting_map st); [exact HC | done]. }
  by rewrite orb_true_r.
Qed.

(** X2.  When the value handed to the str aspect has no entry in the taint
    map (in particular when the map is disabled or empty), the aspect
    leaves the map, the TaintedObjects and the TaintRanges exactly as
    they were: no taint is invented for the result, whatever the
    conversion path, the outcome of the conversion and the scheduled
    fault. *)
Theorem api_str_aspect_untainted_writes_nothing (args : list PyObject)
    (nargs : nat) (kwnames : option (list string)) (st : State) :
  taint_entry st (arg_at args 2) = None →
  taint_same (api_str_aspect msg args nargs kwnames st).2 st.
Proof.
  intros Hun.
  set (C := λ tx_map : option (gmap nat addr), tx_map ≫= (.!! ob_id (arg_at args 2)) = None).
  assert (HC : C (tainting_map st)).
  { unfold C. unfold taint_entry in Hun. by destruct (tainting_map st). }
  clear Hun. revert st HC. change (frame_when C (api_str_aspect msg args nargs kwnames)).
  assert (Hset : ∀ ty s, frame_when C (set_error ty s;; mret (None : option PyObject))).
  { intros. apply frame_when_bind; [apply frame_when_set_error|].
    intros; apply frame_when_mret. }
  unfold api_str_aspect. destruct (_ || _); [apply Hset|].
  destruct (get_args_text args nargs kwnames) as [Htext _].
  destruct (get_args args nargs kwnames) as [[[[eff orig] text] enc] errs].
  simpl in Htext. subst text.
  destruct (3 <? eff)%Z; [apply Hset|].
  apply frame_when_bind; [apply frame_when_has_nonempty|]. intros has_encoding.
  apply frame_when_bind; [apply frame_when_has_nonempty|]. intros has_errors.
  destruct (_ && _ && _); [apply frame_when_py_call|].
  destruct (negb (is_text _)); [apply frame_when_py_call|].
  destruct (_ && _).
  { apply frame_when_bind; [apply frame_when_py_call|]. intros [result_o|].
    - apply str_aspect_propagation_untainted.
    - apply frame_when_mret. }
  apply frame_when_bind.
  { unfold PyBytes_AsStringAndSize.
    destruct (ob_val (arg_at args 2));
      try apply frame_when_mret;
      (apply frame_when_bind; [apply frame_when_set_error|];
       intros; apply frame_when_mret). }
  intros [raw|].
  2:{ apply frame_when_bind; [apply frame_when_gets|].
      intros [|]; [apply frame_when_mret | by intros ? ?]. }
  apply frame_when_bind; [apply frame_when_py_call|]. intros result_o.
  apply frame_when_bind; [apply frame_when_gets|]. intros occurred.
  destruct occurred; [apply frame_when_mret|].
  destruct result_o; [apply str_aspect_propagation_untainted | apply frame_when_mret].
Qed.

End Untainted.

Lemma api_str_aspect_untainted_writes_nothing_witness :
  taint_same
    (api_str_aspect (RT := Interp.runtime) Ex.msg_n_params
       [Ex.str_fn; Ex.flag; Ex.raw_ab; Ex.utf8] 4 None Ex.st_faulty).2
    Ex.st_faulty.
Proof.
  apply (api_str_aspect_untainted_writes_nothing (RT := Interp.runtime)
           Ex.msg_n_params [Ex.str_fn; Ex.flag; Ex.raw_ab; Ex.utf8] 4 None Ex.st_faulty).
  vm_compute. reflexivity.
Defined.

Section UntaintedAdd.
Context `{RT : PyRuntime}.
Variable limit : nat.
Variable msg : string.

Lemma get_tainted_object_untainted (o : PyObject) (st : State) :
  taint_entry st o = None →
  taint_same (get_tainted_object o st).2 st
  ∧ match (get_tainted_object o st).1 with
    | Ret r => r = None
    | Throw _ => True
    | Crash => True
    end.
Proof.
  intros H. unfold get_tainted_object, tick, mbind, M_bind.
  destruct (fault st) as [[[|n] e]|]; simpl; (split; [done|]); try done.
  all: exact H.
Qed.

(** Neither operand has an entry: [add_aspect] writes nothing. *)
Lemma add_aspect_untainted_frame (result_o : option PyObject) (a b : PyObject) :
  frame_when (λ tx_map, tx_map ≫= (.!! ob_id a) = None ∧ tx_map ≫= (.!! ob_id b) = None)
             (add_aspect limit result_o a b).
Proof.
  intros st [Ha Hb]. unfold add_aspect.
  destruct (empty_right_fast_path a b); [done|].
  destruct (empty_left_fast_path result_o a b); [done|].
  assert (Hea : taint_entry st a = None).
  { unfold taint_entry. by destruct (tainting_map st). }
  destruct (get_tainted_object_untainted a st Hea) as [Hs1 Hr1].
  mrun. destruct (get_tainted_object a st) as [[r|e|] s1]; simpl in *; [|done..].
  subst r. mrun. simpl.
  assert (Heb : taint_entry s1 b = None).
  { rewrite (taint_same_entry s1 st b Hs1).
    unfold taint_entry. by destruct (tainting_map st). }
  destruct (get_tainted_object_untainted b s1 Heb) as [Hs2 Hr2].
  mrun. destruct (get_tainted_object b s1) as [[r|e|] s2]; simpl in *.
  - subst r. simpl. by eapply taint_same_trans.
  - by eapply taint_same_trans.
  - by eapply taint_same_trans.
Qed.

(** An operand keeps its identity when the operation updates it in
    place. *)
Lemma ob_id_pointee_after (result_o : option PyObject) (o : PyObject) :
  ob_id (pointee_after result_o o) = ob_id o.
Proof.
  destruct result_o as [r|]; [|done]. simpl.
  destruct (ob_id o =? ob_id r) eqn:E; [|done]. by apply Nat.eqb_eq in E.
Qed.

Lemma api_add_body_untainted_frame (r : PyResult) (a b : PyObject)
    (a' b' : option PyObject → PyObject) :
  (∀ result_o, ob_id (a' result_o) = ob_id a) →
  (∀ result_o, ob_id (b' result_o) = ob_id b) →
  frame_when (λ tx_map, tx_map ≫= (.!! ob_id a) = None ∧ tx_map ≫= (.!! ob_id b) = None)
    (result_o ← py_call r;
     try_catch
       (tx_map ← get_tainting_map;
        if no_tainting_map tx_map then mret result_o
        else if negb (args_are_text_and_same_type a b) then mret result_o
        else if is_notinterned_notfasttainted_unicode a
                && is_notinterned_notfasttainted_unicode b then mret result_o
        else add_aspect limit result_o (a' result_o) (b' result_o))
       (λ e, iast_taint_log_error (aspect_error_message "add_aspect" e);;
             mret result_o)).
Proof.
  intros Hida Hidb.
  apply frame_when_bind; [apply frame_when_py_call|]. intros result_o.
  apply frame_when_try_catch.
  2:{ intros e. apply frame_when_bind; [apply frame_when_log|].
      intros; apply frame_when_mret. }
  apply frame_when_bind; [apply frame_when_get_tainting_map|]. intros tx_map.
  destruct (no_tainting_map tx_map); [apply frame_when_mret|].
  destruct (negb _); [apply frame_when_mret|].
  destruct (_ && _); [apply frame_when_mret|].
  intros st HC. apply add_aspect_untainted_frame. by rewrite Hida, Hidb.
Qed.

(** X3.  When neither operand has an entry in the taint map (in particular
    when the map is disabled or empty), both add aspects leave the map,
    the TaintedObjects and the TaintRanges exactly as they were: the sum
    of untainted operands is never given a taint record, whatever the
    operands' types, the outcome of the addition and the scheduled
    fault. *)
Theorem api_add_aspect_untainted_writes_nothing (a b : PyObject) (st : State) :
  taint_entry st a = None →
  taint_entry st b = None →
  taint_same (api_add_aspect limit msg [a; b] st).2 st
  ∧ taint_same (api_add_inplace_aspect limit msg [a; b] st).2 st.
Proof.
  intros Ha Hb.
  assert (HC : (tainting_map st ≫= (.!! ob_id a)) = None
               ∧ (tainting_map st ≫= (.!! ob_id b)) = None).
  { unfold taint_entry in Ha, Hb. by destruct (tainting_map st). }
  split.
  - exact (api_add_body_untainted_frame (PyNumber_Add a b) a b
             (λ _, a) (λ _, b) (λ _, eq_refl) (λ _, eq_refl) st HC).
  - exact (api_add_body_untainted_frame (PyNumber_InPlaceAdd a b) a b
             (λ r, pointee_after r a) (λ r, pointee_after r b)
             (λ r, ob_id_pointee_after r a) (λ r, ob_id_pointee_after r b) st HC).
Qed.

(** What the gate of the entry points returns on a disabled or empty
    map. *)
Lemma api_add_body_disabled (r : PyResult) (a b : PyObject)
    (a' b' : option PyObject → PyObject) (st : State) :
  no_tainting_map (tainting_map st) = true →
  ((result_o ← py_call r;
    try_catch
      (tx_map ← get_tainting_map;
       if no_tainting_map tx_map then mret result_o
       else if negb (args_are_text_and_same_type a b) then mret result_o
       else if is_notinterned_notfasttainted_unicode a
               && is_notinterned_notfasttainted_unicode b then mret result_o
       else add_aspect limit result_o (a' result_o) (b' result_o))
      (λ e, iast_taint_log_error (aspect_error_message "add_aspect" e);;
            mret result_o)) st).1 = Ret (result_pointer r).
Proof.
  intros Hno. mrun.
  assert (Hmap : tainting_map (py_call r st).2 = tainting_map st) by (by destruct r).
  assert (Hret : (py_call r st).1 = Ret (result_pointer r)) by (by destruct r).
  destruct (py_call r st) as [[result_o|e|] s1]; simpl in *; [|done..].
  injection Hret as ->.
  unfold try_catch, get_tainting_map, tick, mbind, M_bind.
  destruct (fault s1) as [[[|n] e]|]; simpl; [done| |]; by rewrite Hmap, Hno.
Qed.

(** X4.  With the taint map disabled or empty, both add aspects return
    exactly what the interpreter's addition returned (the sum, or NULL
    with its error), for operands of any type and under any scheduled
    fault. *)
Theorem api_add_aspect_disabled_map (a b : PyObject) (st : State) :
  no_tainting_map (tainting_map st) = true →
  (api_add_aspect limit msg [a; b] st).1 = Ret (result_pointer (PyNumber_Add a b))
  ∧ (api_add_inplace_aspect limit msg [a; b] st).1
    = Ret (result_pointer (PyNumber_InPlaceAdd a b)).
Proof.
  intros Hno. split.
  - by apply (api_add_body_disabled (PyNumber_Add a b) a b (λ _, a) (λ _, b)).
  - by apply (api_add_body_disabled (PyNumber_InPlaceAdd a b) a b
                (λ r, pointee_after r a) (λ r, pointee_after r b)).
Qed.

End UntaintedAdd.

Lemma api_add_aspect_untainted_writes_nothing_witness :
  taint_same
    (api_add_aspect (RT := Interp.runtime) 2 Ex.msg_n_params
       [Ex.utf8; Ex.strict] Ex.st_faulty).2 Ex.st_faulty
  ∧ taint_same
      (api_add_inplace_aspect (RT := Interp.runtime) 2 Ex.msg_n_params
         [Ex.utf8; Ex.strict] Ex.st_faulty).2 Ex.st_faulty.
Proof.
  apply (api_add_aspect_untainted_writes_nothing (RT := Interp.runtime)
           2 Ex.msg_n_params Ex.utf8 Ex.strict Ex.st_faulty);
    vm_compute; reflexivity.
Defined.

Lemma api_add_aspect_disabled_map_witness :
  (api_add_aspect (RT := Interp.runtime) 2 Ex.msg_n_params
     [Ex.A; Ex.B] (with_tainting_map None Ex.st_faulty)).1
  = Ret (result_pointer (PyNumber_Add (PyRuntime := Interp.runtime) Ex.A Ex.B))
  ∧ (api_add_inplace_aspect (RT := Interp.runtime) 2 Ex.msg_n_params
       [Ex.A; Ex.B] (with_tainting_map None Ex.st_faulty)).1
    = Ret (result_pointer (PyNumber_InPlaceAdd (PyRuntime := Interp.runtime) Ex.A Ex.B)).
Proof.
  apply (api_add_aspect_disabled_map (RT := Interp.runtime)
           2 Ex.msg_n_params Ex.A Ex.B (with_tainting_map None Ex.st_faulty)).
  reflexivity.
Defined.

(** The in-place entry point hands [add_aspect] its operands after the
    addition. A [bytearray] that the addition has grown in place is
    measured with the bytes added to it, so the ranges of the right
    operand are shifted by the length of the sum: here [BA1], one byte
    long, receives the two bytes of [BA2], and the range of [BA2] lands
    at offset 3. *)
Lemma api_add_inplace_aspect_measures_grown_operand :
  PyNumber_InPlaceAdd (PyRuntime := Interp.runtime) Ex.BA1 Ex.BA2
  = PyOk (mkPyObject 6 (PyByteArray ["x"%byte; "y"%byte; "z"%byte]))
  ∧ (api_add_inplace_aspect (RT := Interp.runtime) 100 Ex.msg_n_params
       [Ex.BA1; Ex.BA2] Ex.st_bytearrays).1
    = Ret (Some (mkPyObject 6 (PyByteArray ["x"%byte; "y"%byte; "z"%byte])))
  ∧ taint_record
      (api_add_inplace_aspect (RT := Interp.runtime) 100 Ex.msg_n_params
         [Ex.BA1; Ex.BA2] Ex.st_bytearrays).2
      (mkPyObject 6 (PyByteArray ["x"%byte; "y"%byte; "z"%byte]))
    = Some [TR.mk 0 1 Ex.src2; TR.mk 3 2 Ex.src1].
Proof. vm_compute. repeat split; reflexivity. Qed.

(* ===================================================================== *)
(** ** How the str aspect reads its arguments *)
(* ===================================================================== *)

(** Past a count of 3 the keyword loop does nothing more. *)
Lemma get_args_keywords_break args nargs names i eff enc errs :
  (3 <? eff)%Z = true →
  get_args_keywords args nargs names i eff enc errs = (eff, enc, errs).
Proof. intros H. destruct names; simpl; [done|]. by rewrite H. Qed.

Lemma str_keywords_app (l1 l2 : list (string * PyObject)) :
  str_keywords (l1 ++ l2) = str_keywords l1 ++ str_keywords l2.
Proof. apply filter_app. Qed.

Lemma str_keywords_known (k : string) (v : PyObject) (l : list (string * PyObject)) :
  is_str_keyword k = true → str_keywords ((k, v) :: l) = (k, v) :: str_keywords l.
Proof. intros H. unfold str_keywords. apply filter_cons_True. simpl. by rewrite H. Qed.

Lemma str_keywords_unknown (k : string) (v : PyObject) (l : list (string * PyObject)) :
  is_str_keyword k = false → str_keywords ((k, v) :: l) = str_keywords l.
Proof.
  intros H. unfold str_keywords. apply filter_cons_False. simpl. rewrite H.
  by intros [].
Qed.

(** The value of the keyword argument that follows [done] in the
    argument vector. *)
Lemma call_args_lookup_keyword (pos : list PyObject)
    (done kvs : list (string * PyObject)) (k : string) (v : PyObject) :
  call_args pos (done ++ (k, v) :: kvs) !! (length pos + length done) = Some v.
Proof.
  unfold call_args. rewrite lookup_app_r by lia.
  replace (length pos + length done - length pos) with (length done) by lia.
  rewrite fmap_app. simpl.
  rewrite <- (length_fmap snd done). apply list_lookup_middle. done.
Qed.

(** The keyword loop, run from the same point on a call and on the call
    stripped of the keywords [str] does not know, ends in the same
    state. *)
Lemma get_args_keywords_str_keywords (pos : list PyObject)
    (kvs done : list (string * PyObject)) (eff : Z) (enc errs : option PyObject) :
  get_args_keywords (call_args pos (done ++ kvs)) (length pos) kvs.*1
    (length done) eff enc errs
  = get_args_keywords (call_args pos (str_keywords (done ++ kvs))) (length pos)
      (str_keywords kvs).*1 (length (str_keywords done)) eff enc errs.
Proof.
  revert done eff enc errs.
  induction kvs as [|[k v] kvs IH]; intros done eff enc errs.
  { done. }
  assert (Hnext : done ++ (k, v) :: kvs = (done ++ [(k, v)]) ++ kvs).
  { by rewrite <- app_assoc. }
  assert (Hlen : length (done ++ [(k, v)]) = S (length done)).
  { rewrite length_app. simpl. lia. }
  destruct (3 <? eff)%Z eqn:Hbreak.
  { by rewrite !get_args_keywords_break. }
  specialize (IH (done ++ [(k, v)])). rewrite <- Hnext, Hlen in IH.
  rewrite (str_keywords_app done [(k, v)]) in IH.
  rewrite fmap_cons. cbn [get_args_keywords fst]. rewrite Hbreak.
  rewrite call_args_lookup_keyword.
  destruct (is_str_keyword k) eqn:Hk.
  - rewrite (str_keywords_known k v kvs Hk).
    rewrite (str_keywords_known k v [] Hk) in IH.
    rewrite length_app in IH. simpl in IH. rewrite Nat.add_1_r in IH.
    rewrite fmap_cons. cbn [get_args_keywords fst]. rewrite Hbreak.
    rewrite (str_keywords_app done), (str_keywords_known k v kvs Hk).
    rewrite call_args_lookup_keyword.
    rewrite (str_keywords_app done), (str_keywords_known k v kvs Hk) in IH.
    unfold is_str_keyword in Hk.
    destruct (String.eqb k "encoding"); [apply IH|].
    destruct (String.eqb k "errors"); [apply IH | done].
  - rewrite (str_keywords_unknown k v kvs Hk).
    rewrite (str_keywords_unknown k v [] Hk) in IH.
    rewrite app_nil_r in IH.
    rewrite (str_keywords_app done), (str_keywords_unknown k v kvs Hk).
    rewrite (str_keywords_app done), (str_keywords_unknown k v kvs Hk) in IH.
    unfold is_str_keyword in Hk. apply orb_false_iff in Hk as [-> ->].
    rewrite <- str_keywords_app. rewrite <- str_keywords_app in IH. apply IH.
Qed.

Section StrArguments.
Context `{RT : PyRuntime}.
Variable msg : string.

(** X5.  Keyword arguments of the str aspect other than [encoding] and
    [errors] are dropped without an error, wherever they stand among the
    keywords of the call: [get_args] resolves the call, and the aspect
    runs it, exactly as the same call without those keywords and their
    values. *)
Theorem api_str_aspect_ignores_unknown_keywords (positional : list PyObject)
    (keywords : list (string * PyObject)) (st : State) :
  (3 ≤ length positional →
   get_args (call_args positional keywords) (length positional)
     (call_kwnames keywords)
   = get_args (call_args positional (str_keywords keywords)) (length positional)
       (call_kwnames (str_keywords keywords)))
  ∧ api_str_aspect msg (call_args positional keywords) (length positional)
      (call_kwnames keywords) st
    = api_str_aspect msg (call_args positional (str_keywords keywords))
        (length positional) (call_kwnames (str_keywords keywords)) st.
Proof.
  assert (Hargs : 3 ≤ length positional →
            get_args (call_args positional keywords) (length positional)
              (call_kwnames keywords)
            = get_args (call_args positional (str_keywords keywords))
                (length positional) (call_kwnames (str_keywords keywords))).
  { intros Hlen.
    assert (Hpos : ∀ kvs i, i < length positional →
              call_args positional kvs !! i = positional !! i).
    { intros kvs i Hi. unfold call_args. by rewrite lookup_app_l. }
    unfold get_args, call_kwnames, arg_at.
    rewrite !(Hpos _ 0), !(Hpos _ 2) by lia.
    assert (H3 : (3 <? length positional) = true →
              call_args positional keywords !! 3
              = call_args positional (str_keywords keywords) !! 3).
    { intros H%Nat.ltb_lt. by rewrite !Hpos. }
    assert (H4 : (4 <? length positional) = true →
              call_args positional keywords !! 4
              = call_args positional (str_keywords keywords) !! 4).
    { intros H%Nat.ltb_lt. by rewrite !Hpos. }
    pose proof (get_args_keywords_str_keywords positional keywords []) as Hloop.
    simpl in Hloop.
    destruct (3 <? length positional); [rewrite (H3 eq_refl)|];
      (destruct (4 <? length positional); [rewrite (H4 eq_refl)|]);
      by rewrite Hloop. }
  split; [exact Hargs|].
  unfold api_str_aspect.
  destruct ((length positional <? 3) || (5 <? length positional)) eqn:Hn; [done|].
  rewrite Hargs; [done|].
  apply orb_false_iff in Hn as [Hn _]. apply Nat.ltb_ge in Hn. lia.
Qed.

(** X6.  The encoding and the error mode reach the str aspect alike by
    position and by keyword, in either keyword order: the four ways of
    writing [str(text, encoding, errors)] run the same computation, and
    so do the two ways of writing [str(text, encoding)]. *)
Theorem api_str_aspect_keywords_as_positional
    (f flag text encoding errors : PyObject) (st : State) :
  api_str_aspect msg [f; flag; text; encoding; errors] 3
    (Some ["encoding"; "errors"]) st
  = api_str_aspect msg [f; flag; text; encoding; errors] 5 None st
  ∧ api_str_aspect msg [f; flag; text; errors; encoding] 3
      (Some ["errors"; "encoding"]) st
    = api_str_aspect msg [f; flag; text; encoding; errors] 5 None st
  ∧ api_str_aspect msg [f; flag; text; encoding; errors] 4 (Some ["errors"]) st
    = api_str_aspect msg [f; flag; text; encoding; errors] 5 None st
  ∧ api_str_aspect msg [f; flag; text; encoding] 3 (Some ["encoding"]) st
    = api_str_aspect msg [f; flag; text; encoding] 4 None st.
Proof. repeat split. Qed.

(** X7.  Whenever the str aspect counts more than 3 arguments it fails by
    itself, with TypeError and the count 4 in the message however many
    arguments the call gave: the keyword loop stops at the first count
    above 3. The original function is not called and nothing but the
    error indicator changes. *)
Theorem api_str_aspect_over_arity (args : list PyObject) (nargs : nat)
    (kwnames : option (list string)) (st : State)
    (eff : Z) (orig text : PyObject) (enc errs : option PyObject) :
  (nargs <? 3) || (5 <? nargs) = false →
  get_args args nargs kwnames = (eff, orig, text, enc, errs) →
  (3 < eff)%Z →
  eff = 4%Z
  ∧ api_str_aspect msg args nargs kwnames st
    = (Ret None,
       with_py_err
         (Some (mkPyErr PyExc_TypeError "str() takes at most 3 arguments (4 given)")) st).
Proof.
  intros Hn Hargs Hlt.
  pose proof (get_args_effective_args_bound _ _ _ _ _ _ _ _ Hargs) as Hle.
  assert (eff = 4%Z) as -> by lia. split; [done|].
  unfold api_str_aspect. by rewrite Hn, Hargs.
Qed.

(** X8.  Given a non-empty encoding and a value that is neither [bytes]
    nor [bytearray], the str aspect is one call of the original function
    on the value, the encoding and the error mode, with "strict" passed
    when the call gave none: value and error are the original's, and no
    taint is looked up or written. *)
Theorem api_str_aspect_delegates_with_encoding (args : list PyObject)
    (nargs : nat) (kwnames : option (list string)) (st : State)
    (eff : Z) (orig text encoding : PyObject) (errs : option PyObject)
    (name : string) (mode : option string) :
  (nargs <? 3) || (5 <? nargs) = false →
  get_args args nargs kwnames = (eff, orig, text, Some encoding, errs) →
  (eff ≤ 3)%Z →
  ob_val encoding = PyUnicode name → name ≠ "" →
  str_argument errs mode →
  PyByteArray_Check text = false → PyBytes_Check text = false →
  api_str_aspect msg args nargs kwnames st
  = py_call (PyObject_CallFunction orig
               [text; encoding; default (PyUnicode_FromString "strict") errs]) st.
Proof.
  intros Hn Hargs Heff Hname Hne Herrs Hba Hb.
  destruct (has_nonempty_str_argument (Some encoding) (Some name) st) as [Hhe _];
    [done|].
  destruct (has_nonempty_str_argument errs mode st Herrs) as [Hhr _].
  unfold api_str_aspect. rewrite Hn, Hargs.
  apply Z.ltb_ge in Heff. rewrite Heff.
  mrun. rewrite Hhe. mrun. rewrite Hhr.
  by rewrite Hba, Hb.
Qed.

(** X9.  A value that is not text-like, converted with neither an encoding
    nor an error mode, goes through the str aspect as one call of the
    interpreter's stringification: value and error are its own, and no
    taint is looked up or written. *)
Theorem api_str_aspect_stringifies_non_text (args : list PyObject)
    (nargs : nat) (kwnames : option (list string)) (st : State)
    (eff : Z) (orig text : PyObject) :
  (nargs <? 3) || (5 <? nargs) = false →
  get_args args nargs kwnames = (eff, orig, text, None, None) →
  (eff ≤ 3)%Z →
  is_text text = false →
  api_str_aspect msg args nargs kwnames st = py_call (PyObject_Str text) st.
Proof.
  intros Hn Hargs Heff Htext.
  unfold api_str_aspect. rewrite Hn, Hargs.
  apply Z.ltb_ge in Heff. rewrite Heff.
  unfold has_nonempty. mrun. mrun. simpl. by rewrite Htext.
Qed.

End StrArguments.

Lemma api_str_aspect_ignores_unknown_keywords_witness :
  api_str_aspect (RT := Interp.runtime) Ex.msg_n_params
    [Ex.str_fn; Ex.flag; Ex.raw_ab; Ex.five; Ex.utf8; Ex.five; Ex.strict] 3
    (Some ["object"; "encoding"; "flags"; "errors"]) Ex.st_bytes
  = api_str_aspect (RT := Interp.runtime) Ex.msg_n_params
      [Ex.str_fn; Ex.flag; Ex.raw_ab; Ex.utf8; Ex.strict] 3
      (Some ["encoding"; "errors"]) Ex.st_bytes.
Proof.
  apply (api_str_aspect_ignores_unknown_keywords (RT := Interp.runtime)
           Ex.msg_n_params [Ex.str_fn; Ex.flag; Ex.raw_ab]
           [("object", Ex.five); ("encoding", Ex.utf8); ("flags", Ex.five);
            ("errors", Ex.strict)] Ex.st_bytes).
Defined.

Lemma api_str_aspect_over_arity_witness :
  4%Z = 4%Z
  ∧ api_str_aspect (RT := Interp.runtime) Ex.msg_n_params
      [Ex.str_fn; Ex.flag; Ex.raw_ab; Ex.utf8; Ex.strict; Ex.utf8; Ex.strict]
      5 (Some ["encoding"; "errors"]) Ex.st_bytes
    = (Ret None,
       with_py_err
         (Some (mkPyErr PyExc_TypeError "str() takes at most 3 arguments (4 given)"))
         Ex.st_bytes).
Proof.
  apply (api_str_aspect_over_arity (RT := Interp.runtime) Ex.msg_n_params
           [Ex.str_fn; Ex.flag; Ex.raw_ab; Ex.utf8; Ex.strict; Ex.utf8; Ex.strict]
           5 (Some ["encoding"; "errors"]) Ex.st_bytes
           4 Ex.str_fn Ex.raw_ab (Some Ex.utf8) (Some Ex.strict)).
  - reflexivity.
  - reflexivity.
  - lia.
Defined.

Lemma api_str_aspect_delegates_with_encoding_witness :
  api_str_aspect (RT := Interp.runtime) Ex.msg_n_params
    [Ex.str_fn; Ex.flag; Ex.A; Ex.utf8] 4 None Ex.st_both
  = py_call (PyObject_CallFunction (PyRuntime := Interp.runtime) Ex.str_fn
               [Ex.A; Ex.utf8;
                default (PyUnicode_FromString (PyRuntime := Interp.runtime) "strict") None])
      Ex.st_both.
Proof.
  apply (api_str_aspect_delegates_with_encoding (RT := Interp.runtime) Ex.msg_n_params
           [Ex.str_fn; Ex.flag; Ex.A; Ex.utf8] 4 None Ex.st_both
           2 Ex.str_fn Ex.A Ex.utf8 None "utf-8" None).
  - reflexivity.
  - reflexivity.
  - lia.
  - reflexivity.
  - discriminate.
  - exact I.
  - reflexivity.
  - reflexivity.
Defined.

Lemma api_str_aspect_stringifies_non_text_witness :
  api_str_aspect (RT := Interp.runtime) Ex.msg_n_params
    [Ex.str_fn; Ex.flag; Ex.five] 3 None Ex.st_faulty
  = py_call (PyObject_Str (PyRuntime := Interp.runtime) Ex.five) Ex.st_faulty.
Proof.
  apply (api_str_aspect_stringifies_non_text (RT := Interp.runtime) Ex.msg_n_params
           [Ex.str_fn; Ex.flag; Ex.five] 3 None Ex.st_faulty 1 Ex.str_fn Ex.five).
  - reflexivity.
  - reflexivity.
  - lia.
  - reflexivity.
Defined.

(* ===================================================================== *)
(** ** Decoding byte-like values *)
(* ===================================================================== *)

Section StrDecode.
Context `{RT : PyRuntime}.
Variable msg : string.

(** X10.  For a [bytes] or [bytearray] value converted with an encoding,
    an error mode or both (each a non-empty [str]), the str aspect either
    returns exactly what [PyUnicode_Decode] returns on the value's bytes,
    with "utf-8" and "strict" standing in for the one that is absent (the
    decoded text, or NULL when decoding fails), or ends the process at
    [Py_DECREF(check_offset)].  It ends the process only if
    [PyObject_Str] fails on the value; and it does so whenever no helper
    fails, decoding succeeded, the value holds taint ranges and
    [PyObject_Str] fails on it. A fault in taint propagation has no part
    in the value returned. *)
Theorem api_str_aspect_decodes_bytes (args : list PyObject) (nargs : nat)
    (kwnames : option (list string)) (effective_args : Z)
    (orig_function text : PyObject) (pyo_encoding pyo_errors : option PyObject)
    (encoding errors : option string) (raw : list byte) (st : State) :
  py_err st = None →
  (nargs <? 3) || (5 <? nargs) = false →
  get_args args nargs kwnames
  = (effective_args, orig_function, text, pyo_encoding, pyo_errors) →
  (effective_args ≤ 3)%Z →
  str_argument pyo_encoding encoding →
  str_argument pyo_errors errors →
  is_Some encoding ∨ is_Some errors →
  ob_val text = PyBytes raw ∨ ob_val text = PyByteArray raw →
  ret_unless (null_check_offset text)
    (result_pointer
       (PyUnicode_Decode raw (default "utf-8" encoding) (default "strict" errors)))
    (api_str_aspect msg args nargs kwnames st).1
  ∧ (∀ (result_o : PyObject) (p : nat) (err : PyErr),
       fault st = None →
       PyUnicode_Decode raw (default "utf-8" encoding) (default "strict" errors)
       = PyOk result_o →
       taint_entry st text = Some p →
       to_ranges st p ≠ [] →
       PyObject_Str text = PyFail err →
       (api_str_aspect msg args nargs kwnames st).1 = Crash).
Proof.
  intros Herr Hn Hargs Heff Henc Herrs Hgiven Hval.
  destruct (has_nonempty_str_argument _ _ st Henc) as [Hhe Hne].
  destruct (has_nonempty_str_argument _ _ st Herrs) as [Hhr Hnr].
  assert (Htext : is_text text = true
                  ∧ PyByteArray_Check text || PyBytes_Check text = true
                  ∧ PyUnicode_Check text = false).
  { unfold is_text, PyUnicode_Check, PyBytes_Check, PyByteArray_Check.
    by destruct Hval as [-> | ->]. }
  destruct Htext as (Htext & Hbytes & Hu).
  assert (Hcall : ∀ b : bool, b && negb (PyByteArray_Check text)
                              && negb (PyBytes_Check text) = false).
  { intros b. destruct b; [|done]. simpl.
    by destruct (PyByteArray_Check text), (PyBytes_Check text). }
  assert (Hraw : match ob_val text with
                 | PyByteArray b => mret (Some b)
                 | _ => PyBytes_AsStringAndSize text
                 end st = (Ret (Some raw), st)).
  { unfold PyBytes_AsStringAndSize. by destruct Hval as [-> | ->]. }
  assert (Hdecode : ∀ enc errs,
            let run :=
              (result_o ← py_call (PyUnicode_Decode raw enc errs);
               occurred ← PyErr_Occurred;
               if (occurred : bool) then mret None
               else match result_o with
                    | None => mret (Some Py_None)
                    | Some result_o => str_aspect_propagation text result_o
                    end) st in
            ret_unless (null_check_offset text)
              (result_pointer (PyUnicode_Decode raw enc errs)) run.1
            ∧ (∀ (result_o : PyObject) (p : nat) (err : PyErr),
                 fault st = None →
                 PyUnicode_Decode raw enc errs = PyOk result_o →
                 taint_entry st text = Some p →
                 to_ranges st p ≠ [] →
                 PyObject_Str text = PyFail err →
                 run.1 = Crash)).
  { intros enc errs run.
    assert (Hrun : run = match PyUnicode_Decode raw enc errs with
                         | PyOk o => str_aspect_propagation text o st
                         | PyFail e => (Ret None, with_py_err (Some e) st)
                         end).
    { unfold run. mrun.
      destruct (PyUnicode_Decode raw enc errs) as [o|e]; simpl.
      - unfold mbind, M_bind, PyErr_Occurred, gets. rewrite Herr.
        by rewrite bool_decide_eq_false_2 by (by intros [? ?]).
      - by unfold mbind, M_bind, PyErr_Occurred, gets. }
    rewrite Hrun. destruct (PyUnicode_Decode raw enc errs) as [o|e]; simpl.
    - split.
      + by destruct (str_aspect_propagation_contains text o st) as [Hr _].
      + intros result_o p err Hf [= <-] Hp Hnonempty Hstr.
        by apply (str_aspect_propagation_null_check_offset text o err st p).
    - split; [by left | done]. }
  assert (Hrun : ∀ out : outcome (option PyObject) * State,
            out = api_str_aspect msg args nargs kwnames st →
            out = (result_o ← py_call (PyUnicode_Decode raw
                                         (default "utf-8" encoding)
                                         (default "strict" errors));
                   occurred ← PyErr_Occurred;
                   if (occurred : bool) then mret None
                   else match result_o with
                        | None => mret (Some Py_None)
                        | Some result_o => str_aspect_propagation text result_o
                        end) st).
  { intros out ->. unfold api_str_aspect. rewrite Hn, Hargs.
    apply Z.ltb_ge in Heff. rewrite Heff.
    mrun. rewrite Hhe. mrun. rewrite Hhr.
    rewrite Hcall, Htext. simpl.
    destruct encoding as [enc|], errors as [errs|]; simpl.
    - mrun. rewrite Hraw. by rewrite (Hne enc eq_refl), (Hnr errs eq_refl).
    - mrun. rewrite Hraw. by rewrite (Hne enc eq_refl).
    - mrun. rewrite Hraw. by rewrite (Hnr errs eq_refl).
    - by destruct Hgiven as [[? ?]|[? ?]]. }
  rewrite (Hrun _ eq_refl). apply Hdecode.
Qed.

End StrDecode.

Lemma api_str_aspect_decodes_bytes_witness :
  (api_str_aspect (RT := Interp.runtime) Ex.msg_n_params
     [Ex.str_fn; Ex.flag; Ex.raw_ab; Ex.ignore] 3 (Some ["errors"]) Ex.st_bytes).1
  = Ret (Some (mkPyObject 900 (PyUnicode "ab")))
  ∧ (api_str_aspect (RT := Interp.runtime_bb) Ex.msg_n_params
       [Ex.str_fn; Ex.flag; Ex.raw_ab; Ex.ignore] 3 (Some ["errors"]) Ex.st_bytes).1
    = Crash.
Proof.
  split.
  - destruct (api_str_aspect_decodes_bytes (RT := Interp.runtime) Ex.msg_n_params
                [Ex.str_fn; Ex.flag; Ex.raw_ab; Ex.ignore] 3 (Some ["errors"])
                2 Ex.str_fn Ex.raw_ab None (Some Ex.ignore) None (Some "ignore")
                ["a"%byte; "b"%byte] Ex.st_bytes) as [[Hret | [_ Hnull]] _].
    + reflexivity.
    + reflexivity.
    + reflexivity.
    + lia.
    + exact I.
    + split; [reflexivity | discriminate].
    + right. eexists. reflexivity.
    + left. reflexivity.
    + exact Hret.
    + destruct Hnull as [_ [err Herr]]. discriminate Herr.
  - destruct (api_str_aspect_decodes_bytes (RT := Interp.runtime_bb) Ex.msg_n_params
                [Ex.str_fn; Ex.flag; Ex.raw_ab; Ex.ignore] 3 (Some ["errors"])
                2 Ex.str_fn Ex.raw_ab None (Some Ex.ignore) None (Some "ignore")
                ["a"%byte; "b"%byte] Ex.st_bytes) as [_ Hcrash].
    + reflexivity.
    + reflexivity.
    + reflexivity.
    + lia.
    + exact I.
    + split; [reflexivity | discriminate].
    + right. eexists. reflexivity.
    + left. reflexivity.
    + apply (Hcrash (mkPyObject 900 (PyUnicode "ab")) 0
               (mkPyErr PyExc_BytesWarning "str() on a bytes instance")).
      * reflexivity.
      * reflexivity.
      * reflexivity.
      * discriminate.
      * reflexivity.
Defined.

(* ===================================================================== *)
(** ** The length rewrite works on the caller's ranges *)
(* ===================================================================== *)

(** X11.  With a usable taint map, [set_lengthupdated_ranges] sets the
    length on the very TaintRange instances it was handed, not on
    copies: afterwards every instance referenced by [ranges] has the new
    length (start and source kept) and every other instance is as it
    was, also when storing the ranges on the result fails. *)
Theorem set_lengthupdated_ranges_rewrites_in_place
    (result : PyObject) (result_len : Z) (ranges : list addr)
    (st : State) (r : addr) (v : TR.t) :
  no_tainting_map (tainting_map st) = false →
  taint_ranges st !! r = Some v →
  taint_ranges (set_lengthupdated_ranges result result_len ranges st).2 !! r
  = Some (if bool_decide (r ∈ ranges) then TR.set_length result_len v else v).
Proof.
  intros Hno Hv.
  assert (Hmut : foldl (λ h range, alter (TR.set_length result_len) range h)
                   (taint_ranges st) ranges !! r
                 = Some (if bool_decide (r ∈ ranges)
                         then TR.set_length result_len v else v)).
  { rewrite lookup_rewrite_lengths, Hv. by destruct (bool_decide _). }
  unfold set_lengthupdated_ranges. mrun. unfold gets at 1. rewrite Hno.
  mrun. unfold modify at 1. unfold set_ranges, tick, mbind, M_bind. simpl.
  destruct (fault st) as [[[|n] e]|]; simpl; [exact Hmut| |];
    (destruct (bool_decide (ranges = [])); simpl;
     [exact Hmut | by apply lookup_app_l_Some]).
Qed.

Lemma set_lengthupdated_ranges_rewrites_in_place_witness :
  taint_ranges
    (set_lengthupdated_ranges Ex.E 0 [0] (with_fault (Some (0, unknown_exception)) Ex.st_ff)).2
    !! 0
  = Some (if bool_decide (0 ∈ [0]) then TR.set_length 0 (TR.mk 0 1 Ex.src1)
          else TR.mk 0 1 Ex.src1).
Proof.
  apply (set_lengthupdated_ranges_rewrites_in_place Ex.E 0 [0]
           (with_fault (Some (0, unknown_exception)) Ex.st_ff) 0 (TR.mk 0 1 Ex.src1)).
  - reflexivity.
  - reflexivity.
Defined.

(* ===================================================================== *)
(** ** What add_aspect leaves alone *)
(* ===================================================================== *)

(** A state that keeps an object's entry, only appends TaintRanges and
    keeps the TaintedObjects that were there, keeps the object's
    record. *)
Lemma taint_record_frame (st st' : State) (o : PyObject) :
  heap_valid st →
  taint_entry st' o = taint_entry st o →
  (∃ extra, taint_ranges st' = taint_ranges st ++ extra) →
  (∀ p, p < length (tainted_objects st) →
        tainted_objects st' !! p = tainted_objects st !! p) →
  taint_record st' o = taint_record st o.
Proof.
  intros Hv He [extra Hr] Ht. rewrite !taint_record_entry, He.
  destruct (taint_entry st o) as [p|] eqn:E; [|done]. simpl. f_equal.
  destruct (heap_valid_entry _ _ _ Hv E) as [Hp Hrs].
  assert (Hto : to_ranges st' p = to_ranges st p).
  { unfold to_ranges. by rewrite Ht. }
  rewrite Hto. unfold range_values. rewrite Hr. by apply omap_lookup_old.
Qed.

Lemma taint_entry_insert_ne (st st' : State) (o : PyObject) (id : nat) (p : addr) :
  tainting_map st' = <[id := p]> <$> tainting_map st →
  ob_id o ≠ id →
  taint_entry st' o = taint_entry st o.
Proof.
  intros Hm Hne. unfold taint_entry. rewrite Hm.
  destruct (tainting_map st) as [m|]; [|done]. simpl.
  by rewrite lookup_insert_ne.
Qed.

Section AddFrame.
Context `{RT : PyRuntime}.
Variable limit : nat.

Lemma add_aspect_combine_frame result_o (to_a : option nat) q off st :
  fault st = None →
  ∃ st',
    (tainted ← allocate_tainted_object_copy to_a;
     add_ranges_shifted limit tainted q off;;
     set_tainted_object (Some result_o) tainted;;
     mret (Some result_o)) st = (Ret (Some result_o), st')
    ∧ tainting_map st'
      = <[ob_id result_o := length (tainted_objects st)]> <$> tainting_map st
    ∧ (∃ extra, taint_ranges st' = taint_ranges st ++ extra)
    ∧ (∀ p, p < length (tainted_objects st) →
            tainted_objects st' !! p = tainted_objects st !! p).
Proof.
  intros Hf.
  mrun. rewrite allocate_tainted_object_copy_no_fault by done.
  mrun. rewrite add_ranges_shifted_no_fault by done.
  mrun. rewrite set_tainted_object_no_fault by done.
  eexists. split; [reflexivity|].
  simpl. split; [done|]. split.
  - eexists. symmetry. apply app_assoc.
  - intros p Hp. rewrite list_lookup_insert_ne by lia. by rewrite lookup_app_l.
Qed.

(** X12.  When no helper fails, [add_aspect] writes the taint record of one
    identity only: the result's, or the new identity it hands out when
    it reuses the left operand's TaintedObject. The record of every
    other object, the operands included, reads the same before and
    after. *)
Theorem add_aspect_leaves_other_records
    (result_o a b o : PyObject) (st : State) :
  fault st = None → heap_valid st →
  ob_id o ≠ ob_id result_o → ob_id o ≠ next_id st →
  taint_record (add_aspect limit (Some result_o) a b st).2 o = taint_record st o.
Proof.
  intros Hf Hv Hres Hnew.
  destruct (empty_right_fast_path a b) eqn:Hfr.
  { by rewrite add_aspect_empty_right. }
  destruct (empty_left_fast_path (Some result_o) a b) eqn:Hfl.
  { by rewrite add_aspect_empty_left. }
  assert (Hreuse : ∀ p, taint_entry st a = Some p →
            limit ≤ length (to_ranges st p) ∨ taint_entry st b = None →
            taint_record (add_aspect limit (Some result_o) a b st).2 o
            = taint_record st o).
  { intros p Ha Hcase. rewrite (add_aspect_reuse_left limit result_o a b st p) by done.
    simpl. apply taint_record_frame; try done.
    - by eapply taint_entry_insert_ne.
    - by exists []; rewrite app_nil_r. }
  assert (Hcombine : ∀ q, taint_entry st b = Some q →
            (∀ p, taint_entry st a = Some p → length (to_ranges st p) < limit) →
            taint_record (add_aspect limit (Some result_o) a b st).2 o
            = taint_record st o).
  { intros q Hb Ha.
    destruct (add_aspect_combine_frame result_o (taint_entry st a) q
                (Z.of_nat (get_pyobject_size a)) st Hf) as (st' & Hst' & Hm & Hr & Ht).
    assert (Hrun : add_aspect limit (Some result_o) a b st
                   = (tainted ← allocate_tainted_object_copy (taint_entry st a);
                      add_ranges_shifted limit tainted q (Z.of_nat (get_pyobject_size a));;
                      set_tainted_object (Some result_o) tainted;;
                      mret (Some result_o)) st).
    { unfold add_aspect. rewrite Hfr, Hfl.
      mrun. rewrite get_tainted_object_no_fault by done.
      mrun. unfold gets at 1.
      destruct (taint_entry st a) as [p|] eqn:E.
      - specialize (Ha p eq_refl). apply Nat.leb_gt in Ha. rewrite Ha.
        mrun. rewrite get_tainted_object_no_fault by done. by rewrite Hb.
      - mrun. rewrite get_tainted_object_no_fault by done. by rewrite Hb. }
    rewrite Hrun, Hst'. simpl. apply taint_record_frame; try done.
    by eapply taint_entry_insert_ne. }
  destruct (taint_entry st a) as [p|] eqn:Ha.
  - destruct (le_lt_dec limit (length (to_ranges st p))) as [Hle|Hlt].
    { apply (Hreuse p eq_refl). by left. }
    destruct (taint_entry st b) as [q|] eqn:Hb.
    + apply (Hcombine q eq_refl). by intros p' [= <-].
    + apply (Hreuse p eq_refl). by right.
  - destruct (taint_entry st b) as [q|] eqn:Hb.
    + apply (Hcombine q eq_refl). by intros p' [=].
    + by rewrite add_aspect_untainted.
Qed.

End AddFrame.

Lemma add_aspect_leaves_other_records_witness :
  taint_record (add_aspect 2 (Some Ex.AB) Ex.A Ex.B Ex.st_two_right).2 Ex.B
  = taint_record Ex.st_two_right Ex.B.
Proof.
  apply (add_aspect_leaves_other_records 2 Ex.AB Ex.A Ex.B Ex.B Ex.st_two_right).
  - reflexivity.
  - split; [|repeat constructor].
    apply map_Forall_insert_2; [simpl; lia|].
    apply map_Forall_insert_2; [simpl; lia|]. apply map_Forall_empty.
  - vm_compute. lia.
  - vm_compute. lia.
Defined.

(* ===================================================================== *)
(** ** The decode fallback and the ranges of its input *)
(* ===================================================================== *)

Lemma length_rewrite_lengths (n : Z) (rs : list nat) (h : list TR.t) :
  length (foldl (λ h r, alter (TR.set_length n) r h) h rs) = length h.
Proof.
  revert h. induction rs as [|r rs IH]; intros h; [done|].
  simpl. rewrite IH. apply length_alter.
Qed.

Section StrFallbackInput.
Context `{RT : PyRuntime}.
Variable msg : string.

(** The fallback of the propagation block, seen from the input: its
    entry stays, and the ranges it refers to have been rewritten. *)
Lemma str_aspect_propagation_fallback_input (text result_o check : PyObject)
    (st : State) (p : nat) :
  fault st = None →
  heap_valid st →
  PyUnicode_Check text = false →
  PyObject_Str text = PyOk check →
  PyUnicode_Find result_o check 0 (PyObject_Length result_o) 1 = (-1)%Z →
  taint_entry st text = Some p →
  to_ranges st p ≠ [] →
  ob_id result_o ≠ ob_id text →
  ∃ st',
    str_aspect_propagation text result_o st = (Ret (Some result_o), st')
    ∧ taint_record st' text
      = Some (TR.set_length (PyObject_Length result_o)
                <$> range_values st (to_ranges st p)).
Proof.
  intros Hf Hv Hu Hstr Hfind Hp Hne Hid.
  destruct (taint_entry_map _ _ _ Hp) as (m & Hm & Hlook & Hno).
  destruct (heap_valid_entry _ _ _ Hv Hp) as [Hlt Hrs].
  unfold str_aspect_propagation, TRY_CATCH_ASPECT, try_catch.
  mrun. rewrite get_tainting_map_no_fault by done. rewrite Hno.
  mrun. rewrite (get_ranges_no_fault _ _ m) by done. rewrite Hlook.
  rewrite bool_decide_eq_false_2 by done. simpl. rewrite Hu.
  rewrite Hstr. mrun. simpl. rewrite Hfind. simpl.
  unfold set_lengthupdated_ranges.
  mrun. mrun. unfold PyErr_Clear, modify at 1.
  mrun. unfold gets at 1. simpl. rewrite Hno.
  mrun. unfold modify at 1.
  rewrite set_ranges_no_fault by done.
  eexists. split; [reflexivity|].
  unfold taint_record. simpl. rewrite Hm. simpl.
  rewrite lookup_insert_ne by done. rewrite Hlook. simpl. f_equal.
  unfold to_ranges, range_values. simpl.
  rewrite lookup_app_l by done.
  rewrite omap_lookup_old by (by rewrite length_rewrite_lengths).
  apply omap_rewrite_lengths.
Qed.

(** X13.  The decode fallback changes the taint ranges of its input. When
    the str aspect decodes a tainted [bytes] or [bytearray] value and
    the stringified input is not found in the decoded text, the ranges
    stored for the input value itself come out with their length set to
    the length of the output: the rewrite is done on the input's own
    TaintRange instances before they are copied onto the result. *)
Theorem api_str_aspect_decode_fallback_rewrites_input
    (args : list PyObject) (nargs : nat) (kwnames : option (list string))
    (effective_args : Z) (orig_function text : PyObject)
    (pyo_encoding pyo_errors : option PyObject)
    (has_encoding has_errors : bool) (raw : list byte)
    (result_o check : PyObject) (st : State) (p : nat) :
  fault st = None →
  py_err st = None →
  heap_valid st →
  (nargs <? 3) || (5 <? nargs) = false →
  get_args args nargs kwnames
  = (effective_args, orig_function, text, pyo_encoding, pyo_errors) →
  (effective_args ≤ 3)%Z →
  has_nonempty pyo_encoding st = (Ret has_encoding, st) →
  has_nonempty pyo_errors st = (Ret has_errors, st) →
  has_encoding || has_errors = true →
  ob_val text = PyBytes raw ∨ ob_val text = PyByteArray raw →
  PyUnicode_Decode raw
    (if has_encoding then PyUnicode_AsUTF8 pyo_encoding else "utf-8")
    (if has_errors then PyUnicode_AsUTF8 pyo_errors else "strict")
  = PyOk result_o →
  PyObject_Str text = PyOk check →
  PyUnicode_Find result_o check 0 (PyObject_Length result_o) 1 = (-1)%Z →
  taint_entry st text = Some p →
  to_ranges st p ≠ [] →
  ob_id result_o ≠ ob_id text →
  ∃ st',
    api_str_aspect msg args nargs kwnames st = (Ret (Some result_o), st')
    ∧ taint_record st' text
      = Some (TR.set_length (PyObject_Length result_o)
                <$> default [] (taint_record st text)).
Proof.
  intros Hf Herr Hv Hn Hargs Heff Henc Herrs Hany Hval Hdec Hstr Hfind Hp Hne Hid.
  assert (Hu : PyUnicode_Check text = false).
  { unfold PyUnicode_Check. by destruct Hval as [-> | ->]. }
  assert (Htext : is_text text = true
                  ∧ PyByteArray_Check text || PyBytes_Check text = true).
  { unfold is_text, PyUnicode_Check, PyBytes_Check, PyByteArray_Check.
    by destruct Hval as [-> | ->]. }
  destruct Htext as [Htext Hbytes].
  destruct (str_aspect_propagation_fallback_input text result_o check st p
              Hf Hv Hu Hstr Hfind Hp Hne Hid) as (st' & Hrun & Hrec).
  exists st'. split.
  - unfold api_str_aspect. rewrite Hn, Hargs.
    apply Z.ltb_ge in Heff. rewrite Heff.
    mrun. rewrite Henc. mrun. rewrite Herrs.
    assert (Hcall : has_encoding && negb (PyByteArray_Check text)
                    && negb (PyBytes_Check text) = false).
    { destruct has_encoding; [|done]. simpl.
      by destruct (PyByteArray_Check text), (PyBytes_Check text). }
    rewrite Hcall, Htext. simpl.
    assert (Hfast : negb has_encoding && negb has_errors = false).
    { by destruct has_encoding, has_errors. }
    rewrite Hfast.
    assert (Hraw : match ob_val text with
                   | PyByteArray b => mret (Some b)
                   | _ => PyBytes_AsStringAndSize text
                   end st = (Ret (Some raw), st)).
    { unfold PyBytes_AsStringAndSize. by destruct Hval as [-> | ->]. }
    mrun. rewrite Hraw.
    rewrite Hdec. mrun. simpl.
    mrun. unfold PyErr_Occurred, gets. rewrite Herr.
    rewrite bool_decide_eq_false_2 by (by intros [? ?]). exact Hrun.
  - rewrite Hrec. by rewrite (taint_record_entry st text), Hp.
Qed.

End StrFallbackInput.

Lemma api_str_aspect_decode_fallback_rewrites_input_witness :
  ∃ st',
    api_str_aspect (RT := Interp.runtime) Ex.msg_n_params
      [Ex.str_fn; Ex.flag; Ex.raw_ab; Ex.utf8] 4 None Ex.st_bytes
    = (Ret (Some (mkPyObject 900 (PyUnicode "ab"))), st')
    ∧ taint_record Ex.st_bytes Ex.raw_ab = Some [TR.mk 0 1 Ex.src1]
    ∧ taint_record st' Ex.raw_ab = Some [TR.mk 0 2 Ex.src1].
Proof.
  destruct (api_str_aspect_decode_fallback_rewrites_input (RT := Interp.runtime)
              Ex.msg_n_params
              [Ex.str_fn; Ex.flag; Ex.raw_ab; Ex.utf8] 4 None
              2 Ex.str_fn Ex.raw_ab (Some Ex.utf8) None true false
              ["a"%byte; "b"%byte] (mkPyObject 900 (PyUnicode "ab"))
              (mkPyObject 27 (PyUnicode "b'ab'")) Ex.st_bytes 0)
    as (st' & H1 & H2).
  - reflexivity.
  - reflexivity.
  - split; [|repeat constructor].
    apply map_Forall_insert_2; [simpl; lia|]. apply map_Forall_empty.
  - reflexivity.
  - reflexivity.
  - lia.
  - reflexivity.
  - reflexivity.
  - reflexivity.
  - left. reflexivity.
  - reflexivity.
  - reflexivity.
  - reflexivity.
  - vm_compute. reflexivity.
  - vm_compute. discriminate.
  - vm_compute. lia.
  - exists st'. split; [exact H1|]. split; [vm_compute; reflexivity|].
    rewrite H2. vm_compute. reflexivity.
Defined.

(* ===================================================================== *)
(** * The profile uploader: what it writes, drops, cancels and sends *)
(* ===================================================================== *)

Section UploaderFacts.
Import Uploader.
Context `{LD : Libdatadog} `{OS : System}.
#[local] Existing Instances Uploader.M_ret Uploader.M_bind.

Ltac urun := unfold mbind, Uploader.M_bind, mret, Uploader.M_ret.

(** The calls a run added to the record. *)
Lemma new_calls_app (st st' : State) (news : list call) :
  calls st' = calls st ++ news → new_calls st st' = news.
Proof. intros H. unfold new_calls. rewrite H. by rewrite drop_app_length. Qed.

(** The steps of the uploader's computations, one by one. *)
Lemma bind_run {A B} (m : M A) (k : A → M B) (st s1 : State) (a : A) :
  m st = (Ret a, s1) → (m ≫= k) st = k a s1.
Proof. intros H. unfold mbind, Uploader.M_bind. by rewrite H. Qed.

Lemma bind_blocked {A B} (m : M A) (k : A → M B) (st s1 : State) :
  m st = (Blocked, s1) → (m ≫= k) st = (Blocked, s1).
Proof. intros H. unfold mbind, Uploader.M_bind. by rewrite H. Qed.

Lemma log_run (c : call) (st : State) :
  log c st = (Ret (), with_calls (calls st ++ [c]) st).
Proof. reflexivity. Qed.

Lemma gets_run {A} (f : State → A) (st : State) : gets f st = (Ret (f st), st).
Proof. reflexivity. Qed.

Lemma modify_run (f : State → State) (st : State) : modify f st = (Ret (), f st).
Proof. reflexivity. Qed.

Lemma mret_run {A} (a : A) (st : State) : (mret a : M A) st = (Ret a, st).
Proof. reflexivity. Qed.

Lemma lock_run (st : State) :
  upload_lock st = false →
  lock st = (Ret (), with_upload_lock true (with_calls (calls st ++ [mutex_lock]) st)).
Proof. intros H. unfold lock. by rewrite H. Qed.

Lemma lock_blocked (st : State) :
  upload_lock st = true → lock st = (Blocked, st).
Proof. intros H. unfold lock. by rewrite H. Qed.

Lemma unlock_run (st : State) :
  upload_lock st = true →
  unlock st
  = (Ret (), with_upload_lock false (with_calls (calls st ++ [mutex_unlock]) st)).
Proof. intros H. unfold unlock. by rewrite H. Qed.

Lemma Deleter_run (token : nat) (st : State) :
  DdogCancellationTokenDeleter (Some token) st
  = (Ret (), with_calls (calls st ++ [CancellationToken_cancel token;
                                      CancellationToken_drop token]) st).
Proof.
  unfold DdogCancellationTokenDeleter, log, modify, mbind, Uploader.M_bind. simpl.
  by rewrite <- app_assoc.
Qed.

Lemma Deleter_null (st : State) :
  DdogCancellationTokenDeleter None st = (Ret (), st).
Proof. reflexivity. Qed.

Lemma cancel_reset_null (ptr : option nat) (st : State) :
  cancel st = None → cancel_reset ptr st = (Ret (), with_cancel ptr st).
Proof.
  intros H. unfold cancel_reset, gets, modify, mbind, Uploader.M_bind. by rewrite H.
Qed.

Lemma cancel_reset_run (ptr : option nat) (old : nat) (st : State) :
  cancel st = Some old →
  cancel_reset ptr st
  = (Ret (), with_calls (calls st ++ [CancellationToken_cancel old;
                                      CancellationToken_drop old])
               (with_cancel ptr st)).
Proof.
  intros H. unfold cancel_reset, gets, modify.
  unfold mbind at 1 2, Uploader.M_bind at 1 2.
  rewrite H. by rewrite Deleter_run.
Qed.

Lemma ddog_CancellationToken_new_run (st : State) :
  ddog_CancellationToken_new st
  = (Ret (next_token st),
     with_calls (calls st ++ [CancellationToken_new (next_token st)])
       (with_next_token (S (next_token st)) st)).
Proof. reflexivity. Qed.

Lemma ddog_CancellationToken_clone_run (token : nat) (st : State) :
  ddog_CancellationToken_clone (Some token) st
  = (Ret (Some (next_token st)),
     with_calls (calls st ++ [CancellationToken_clone token (next_token st)])
       (with_next_token (S (next_token st)) st)).
Proof. reflexivity. Qed.

Lemma report_error_run (err : ddog_Error) (context : string) (st : State) :
  report_error err context st
  = (Ret (),
     with_calls (calls st ++ [Error_drop err])
       (with_cerr (cerr st ++ [err_to_msg err context])
          (with_errmsg (err_to_msg err context) st))).
Proof. reflexivity. Qed.

(** [export_to_file], outcome by outcome. *)
Lemma export_to_file_run (encoded : ddog_prof_EncodedProfile) (st : State) :
  ∃ ret st',
    export_to_file encoded st = (Ret ret, st')
    ∧ output_filename st' = output_filename st
    ∧ ddog_exporter st' = ddog_exporter st
    ∧ errmsg st' = errmsg st
    ∧ upload_seq st' = upload_seq st
    ∧ upload_lock st' = upload_lock st
    ∧ cancel st' = cancel st
    ∧ calls st' = calls st
    ∧ next_token st' = next_token st
    ∧ (ret = true ↔ ofstream_open (export_filename st) = None
                    ∧ ofstream_write (export_filename st) (buffer encoded) = None)
    ∧ (∀ f, f ≠ export_filename st → files st' !! f = files st !! f)
    ∧ files st' !! export_filename st
      = match ofstream_open (export_filename st) with
        | None => Some (ofstream_close (export_filename st) (buffer encoded))
        | Some _ => files st !! export_filename st
        end
    ∧ (if ret then cerr st' = cerr st else ∃ line, cerr st' = cerr st ++ [line]).
Proof.
  unfold export_to_file. urun. unfold gets.
  destruct (ofstream_open (export_filename st)) as [err|] eqn:Hopen.
  { eexists false, _. split; [reflexivity|]. simpl.
    repeat (split; [done|]). split; [by split; [|intros [? _]]|].
    split; [done|]. split; [done|]. by eexists. }
  simpl.
  destruct (ofstream_write (export_filename st) (buffer encoded)) as [err|] eqn:Hwrite.
  { eexists false, _. split; [reflexivity|]. simpl.
    repeat (split; [done|]). split; [by split; [|intros [_ ?]]|].
    split; [intros f Hf; by rewrite !lookup_insert_ne|].
    split; [by rewrite lookup_insert_eq | by eexists]. }
  eexists true, _. split; [reflexivity|]. simpl.
  repeat (split; [done|]). split.
  - intros f Hf. by rewrite !lookup_insert_ne.
  - by rewrite lookup_insert_eq.
Qed.

(** [upload] of a profile that serializes, by an uploader with an output
    file name. *)
Lemma upload_to_file_run (profile : ddog_prof_Profile)
    (encoded : ddog_prof_EncodedProfile) (st : State) :
  output_filename st ≠ "" →
  ddog_prof_Profile_serialize profile = SERIALIZE_RESULT_OK encoded →
  ∃ ret st',
    upload profile st = (Ret ret, st')
    ∧ calls st' = calls st ++ [Profile_serialize; EncodedProfile_drop encoded]
    ∧ output_filename st' = output_filename st
    ∧ errmsg st' = errmsg st
    ∧ upload_seq st' = upload_seq st
    ∧ upload_lock st' = upload_lock st
    ∧ cancel st' = cancel st
    ∧ (ret = true ↔ ofstream_open (export_filename st) = None
                    ∧ ofstream_write (export_filename st) (buffer encoded) = None)
    ∧ (∀ f, f ≠ export_filename st → files st' !! f = files st !! f)
    ∧ files st' !! export_filename st
      = match ofstream_open (export_filename st) with
        | None => Some (ofstream_close (export_filename st) (buffer encoded))
        | Some _ => files st !! export_filename st
        end
    ∧ (if ret then cerr st' = cerr st else ∃ line, cerr st' = cerr st ++ [line]).
Proof.
  intros Hname Hser. unfold upload. rewrite Hser.
  urun. unfold log, modify, gets. simpl.
  apply String.eqb_neq in Hname. rewrite Hname. simpl.
  destruct (export_to_file_run encoded (with_calls (calls st ++ [Profile_serialize]) st))
    as (ret & s1 & Hrun & Hf & He & Hm & Hs & Hl & Hc & Hcalls & Hn & Hret & Hfiles
        & Hfile & Hout).
  rewrite Hrun. simpl. exists ret. eexists. split; [reflexivity|]. simpl.
  rewrite Hcalls. simpl. rewrite <- app_assoc. simpl.
  repeat (split; [done|]). done.
Qed.

(** X14.  An uploader with an output file name never talks to the backend.
    Once the profile is serialized, [upload] writes it to
    [<output_filename>.<pid>.<upload_seq>] and drops the encoded profile,
    and that is all it does with libdatadog: no request is built or
    sent, no cancellation token is touched and the mutex is not taken,
    so the export also goes through while the mutex is held. It returns
    true exactly when the file could be opened and the stream reported
    no failure right after the write; then nothing went to [std::cerr],
    otherwise one line went there. Once the file is open, what it holds
    afterwards is what the flush at the stream's close delivered, which
    [upload] does not check: true is returned also when bytes were lost
    there. A file that could not be opened is as it was, and no other
    file changes. *)
Theorem upload_to_file (profile : ddog_prof_Profile)
    (encoded : ddog_prof_EncodedProfile) (st : State) :
  output_filename st ≠ "" →
  ddog_prof_Profile_serialize profile = SERIALIZE_RESULT_OK encoded →
  ∃ ret st',
    upload profile st = (Ret ret, st')
    ∧ new_calls st st' = [Profile_serialize; EncodedProfile_drop encoded]
    ∧ upload_lock st' = upload_lock st
    ∧ cancel st' = cancel st
    ∧ (ret = true ↔ ofstream_open (export_filename st) = None
                    ∧ ofstream_write (export_filename st) (buffer encoded) = None)
    ∧ (∀ f, f ≠ export_filename st → files st' !! f = files st !! f)
    ∧ files st' !! export_filename st
      = match ofstream_open (export_filename st) with
        | None => Some (ofstream_close (export_filename st) (buffer encoded))
        | Some _ => files st !! export_filename st
        end
    ∧ (if ret then cerr st' = cerr st else ∃ line, cerr st' = cerr st ++ [line]).
Proof.
  intros Hname Hser.
  destruct (upload_to_file_run profile encoded st Hname Hser)
    as (ret & st' & Hrun & Hcalls & _ & _ & _ & Hl & Hc & Hret & Hfiles & Hfile & Hout).
  exists ret, st'. split; [done|]. split.
  { unfold new_calls. rewrite Hcalls. by rewrite drop_app_length. }
  done.
Qed.

End UploaderFacts.

(** Running an uploader computation on a state given field by field:
    one step of the computation, then the state is put back in that
    form. *)
Ltac ucbv :=
  cbv beta iota zeta delta
    [Uploader.output_filename Uploader.ddog_exporter Uploader.errmsg
     Uploader.upload_seq Uploader.upload_lock Uploader.cancel Uploader.files
     Uploader.cerr Uploader.calls Uploader.next_token
     Uploader.with_uploader Uploader.with_errmsg Uploader.with_upload_seq
     Uploader.with_upload_lock Uploader.with_cancel Uploader.with_files
     Uploader.with_cerr Uploader.with_calls Uploader.with_next_token
     Uploader.buffer Uploader.start Uploader.end_ Uploader.endpoints_stats
     negb String.eqb Ascii.eqb Bool.eqb].

Ltac urun_prim :=
  first
    [ apply log_run
    | apply gets_run
    | apply modify_run
    | apply report_error_run
    | apply ddog_CancellationToken_new_run
    | apply ddog_CancellationToken_clone_run
    | apply Deleter_run
    | apply Deleter_null
    | apply lock_run; reflexivity
    | apply unlock_run; reflexivity
    | apply cancel_reset_null; reflexivity
    | apply cancel_reset_run; reflexivity ].

Ltac ustep :=
  first
    [ erewrite bind_run by urun_prim
    | erewrite bind_blocked by (apply lock_blocked; reflexivity)
    | rewrite mret_run ];
  ucbv.

Ltac uoracle :=
  match goal with
  | H : Uploader.ddog_prof_Profile_serialize _ = _ |- _ => rewrite H; ucbv
  | H : Uploader.ddog_prof_Exporter_Request_build _ _ _ _ _ _ = _ |- _ =>
      rewrite H; ucbv
  | H : Uploader.ddog_prof_Exporter_send _ _ _ = _ |- _ => rewrite H; ucbv
  end.

Ltac uploader_eval :=
  unfold Uploader.upload, Uploader.cancel_inflight, Uploader.prefork,
    Uploader.postfork_parent, Uploader.postfork_child;
  repeat first [ustep | uoracle].

Section UploaderSend.
Import Uploader.
Context `{LD : Libdatadog} `{OS : System}.
#[local] Existing Instances Uploader.M_ret Uploader.M_bind.

(** [upload] by an uploader without an output file name, when the
    request builds and the mutex is free: the whole run. *)
Lemma upload_send_run (profile : ddog_prof_Profile)
    (encoded : ddog_prof_EncodedProfile) (req : ddog_prof_Exporter_Request)
    (st : State) :
  output_filename st = "" →
  upload_lock st = false →
  ddog_prof_Profile_serialize profile = SERIALIZE_RESULT_OK encoded →
  ddog_prof_Exporter_Request_build (ddog_exporter st) (start encoded) (end_ encoded)
    [] [mk_File "auto.pprof" (buffer encoded)] (endpoints_stats encoded)
  = REQUEST_BUILD_RESULT_OK req →
  let token := next_token st in
  let clone := S (next_token st) in
  let res := ddog_prof_Exporter_send (ddog_exporter st) req (Some clone) in
  ∃ st',
    upload profile st
    = (Ret (match res with SEND_RESULT_ERR _ => false | _ => true end), st')
    ∧ calls st'
      = calls st
        ++ [Profile_serialize;
            Exporter_Request_build (ddog_exporter st)
              [mk_File "auto.pprof" (buffer encoded)];
            EncodedProfile_drop encoded]
        ++ match cancel st with
           | Some old => [CancellationToken_cancel old; CancellationToken_drop old]
           | None => []
           end
        ++ [CancellationToken_new token;
            CancellationToken_clone token clone;
            mutex_lock;
            Exporter_send (ddog_exporter st) req (Some clone);
            match res with
            | SEND_RESULT_ERR err => Error_drop err
            | _ => Exporter_Request_drop req
            end;
            mutex_unlock;
            CancellationToken_cancel clone;
            CancellationToken_drop clone]
    ∧ cancel st' = Some token
    ∧ upload_lock st' = false
    ∧ files st' = files st.
Proof.
  intros Hname Hlock Hser Hbuild. cbv zeta.
  destruct st as [f e m sq l c fs ce cs nt], encoded as [buf s0 e0 es].
  simpl in *. subst f l.
  destruct c as [old|];
    destruct (ddog_prof_Exporter_send e req (Some (S nt))) as [code|err] eqn:Hsend;
    (eexists; split; [uploader_eval; reflexivity|];
     simpl; repeat rewrite <- app_assoc; repeat split; done).
Qed.

(** X15.  An uploader without an output file name, when the request builds
    and the mutex is free, makes these calls and no others, in this
    order: serialize, build the request, drop the encoded profile;
    cancel and drop the token of an earlier upload, if one is held;
    create a token and clone it; lock the mutex, send the request with
    the clone, drop the request (or, if sending failed, the error),
    unlock; cancel and drop the clone. So an upload in flight is
    cancelled before the next request is sent, the request is sent under
    the mutex, the token handed to [send] is not cancelled before [send]
    has returned, and afterwards the mutex is free and [cancel] holds the
    new token. [upload] returns whether sending succeeded. *)
Theorem upload_send_sequence (profile : ddog_prof_Profile)
    (encoded : ddog_prof_EncodedProfile) (req : ddog_prof_Exporter_Request)
    (st : State) :
  output_filename st = "" →
  upload_lock st = false →
  ddog_prof_Profile_serialize profile = SERIALIZE_RESULT_OK encoded →
  ddog_prof_Exporter_Request_build (ddog_exporter st) (start encoded) (end_ encoded)
    [] [mk_File "auto.pprof" (buffer encoded)] (endpoints_stats encoded)
  = REQUEST_BUILD_RESULT_OK req →
  let token := next_token st in
  let clone := S (next_token st) in
  let res := ddog_prof_Exporter_send (ddog_exporter st) req (Some clone) in
  ∃ st',
    upload profile st
    = (Ret (match res with SEND_RESULT_ERR _ => false | _ => true end), st')
    ∧ new_calls st st'
      = [Profile_serialize;
         Exporter_Request_build (ddog_exporter st)
           [mk_File "auto.pprof" (buffer encoded)];
         EncodedProfile_drop encoded]
        ++ match cancel st with
           | Some old => [CancellationToken_cancel old; CancellationToken_drop old]
           | None => []
           end
        ++ [CancellationToken_new token;
            CancellationToken_clone token clone;
            mutex_lock;
            Exporter_send (ddog_exporter st) req (Some clone);
            match res with
            | SEND_RESULT_ERR err => Error_drop err
            | _ => Exporter_Request_drop req
            end;
            mutex_unlock;
            CancellationToken_cancel clone;
            CancellationToken_drop clone]
    ∧ cancel st' = Some token
    ∧ upload_lock st' = false.
Proof.
  intros Hname Hlock Hser Hbuild token clone res.
  destruct (upload_send_run profile encoded req st Hname Hlock Hser Hbuild)
    as (st' & Hrun & Hcalls & Hc & Hl & _).
  exists st'. split; [exact Hrun|]. split; [|done].
  by apply new_calls_app.
Qed.

(** Every run of [upload] that does not export to a file, outcome by
    outcome: what it returns, the calls it adds, and what it leaves in
    [std::cerr] and [errmsg]. *)
Lemma upload_exporter_runs (profile : ddog_prof_Profile) (st : State) :
  output_filename st = "" ∨ (∃ err, ddog_prof_Profile_serialize profile
                                    = SERIALIZE_RESULT_ERR err) →
  ∃ o st' news,
    upload profile st = (o, st')
    ∧ calls st' = calls st ++ news
    ∧ filter (λ c, is_EncodedProfile_drop c = true) news
      = match ddog_prof_Profile_serialize profile with
        | SERIALIZE_RESULT_OK encoded => [EncodedProfile_drop encoded]
        | SERIALIZE_RESULT_ERR _ => []
        end
    ∧ match o with
      | Ret true =>
          cerr st' = cerr st ∧ errmsg st' = errmsg st
          ∧ filter (λ c, is_Error_drop c = true) news = []
          ∧ upload_lock st = false ∧ upload_lock st' = false
      | Ret false =>
          ∃ err context,
            cerr st' = cerr st ++ [err_to_msg err context]
            ∧ errmsg st' = err_to_msg err context
            ∧ filter (λ c, is_Error_drop c = true) news = [Error_drop err]
            ∧ upload_lock st' = upload_lock st
      | Blocked => upload_lock st = true ∧ upload_lock st' = true
      | Undefined => False
      end
    ∧ (upload_lock st = true → filter (λ c, is_Exporter_send c = true) news = [])
    ∧ (o = Ret true → ∃ encoded,
         ddog_prof_Profile_serialize profile = SERIALIZE_RESULT_OK encoded).
Proof.
  intros Hmode.
  destruct st as [f e m sq l c fs ce cs nt]. simpl in *.
  destruct (ddog_prof_Profile_serialize profile) as [[buf s0 e0 es]|err] eqn:Hser.
  2:{ clear Hmode. eexists _, _, _. split; [uploader_eval; reflexivity|].
      simpl. repeat rewrite <- app_assoc. simpl.
      split; [reflexivity|]. split; [reflexivity|]. split; [|done].
      by exists err, "Error serializing pprof". }
  assert (Hok : ∀ o : outcome bool, o = Ret true → ∃ encoded,
            SERIALIZE_RESULT_OK (mk_EncodedProfile buf s0 e0 es)
            = SERIALIZE_RESULT_OK encoded) by (intros; by eexists).
  destruct Hmode as [->|[? ?]]; [|done].
  destruct (ddog_prof_Exporter_Request_build e s0 e0 [] [mk_File "auto.pprof" buf] es)
    as [req|err] eqn:Hbuild.
  2:{ eexists _, _, _. split; [uploader_eval; reflexivity|].
      simpl. repeat rewrite <- app_assoc. simpl.
      split; [reflexivity|]. split; [reflexivity|]. split; [|by split; [|apply Hok]].
      by exists err, "Error building request". }
  destruct l.
  { destruct c as [old|];
      (eexists _, _, _; split; [uploader_eval; reflexivity|];
       simpl; repeat rewrite <- app_assoc; simpl;
       split; [reflexivity|]; split; [reflexivity|];
       split; [done|]; split; [done|]; apply Hok). }
  destruct c as [old|];
    destruct (ddog_prof_Exporter_send e req (Some (S nt))) as [code|err] eqn:Hsend;
    (eexists _, _, _; split; [uploader_eval; reflexivity|];
     simpl; repeat rewrite <- app_assoc; simpl;
     split; [reflexivity|]; split; [reflexivity|];
     split; [|by split; [|apply Hok]]).
  1,3: done.
  all: by exists err, "Error uploading".
Qed.

(** X16.  On every path [upload] drops the encoded profile exactly once if
    serializing produced one, and never otherwise: when the file was
    written or could not be, when the request was built or could not be,
    when sending succeeded or failed, and when the upload is left
    waiting for the mutex. It never unlocks a mutex it does not hold. *)
Theorem upload_drops_encoded_profile_once (profile : ddog_prof_Profile) (st : State) :
  (upload profile st).1 ≠ Undefined
  ∧ filter (λ c, is_EncodedProfile_drop c = true) (new_calls st (upload profile st).2)
    = match ddog_prof_Profile_serialize profile with
      | SERIALIZE_RESULT_OK encoded => [EncodedProfile_drop encoded]
      | SERIALIZE_RESULT_ERR _ => []
      end.
Proof.
  assert (Hexp : output_filename st = ""
                 ∨ (∃ err, ddog_prof_Profile_serialize profile = SERIALIZE_RESULT_ERR err) →
                 (upload profile st).1 ≠ Undefined
                 ∧ filter (λ c, is_EncodedProfile_drop c = true)
                     (new_calls st (upload profile st).2)
                   = match ddog_prof_Profile_serialize profile with
                     | SERIALIZE_RESULT_OK encoded => [EncodedProfile_drop encoded]
                     | SERIALIZE_RESULT_ERR _ => []
                     end).
  { intros Hmode.
    destruct (upload_exporter_runs profile st Hmode)
      as (o & st' & news & Hrun & Hcalls & Hdrop & Ho & _).
    rewrite Hrun. simpl. rewrite (new_calls_app _ _ _ Hcalls).
    split; [|exact Hdrop]. by destruct o. }
  destruct (decide (output_filename st = "")) as [Hname|Hname]; [by apply Hexp; left|].
  destruct (ddog_prof_Profile_serialize profile) as [encoded|err] eqn:Hser.
  - destruct (upload_to_file_run profile encoded st Hname Hser)
      as (ret & st' & Hrun & Hcalls & _).
    rewrite Hrun. simpl. by rewrite (new_calls_app _ _ _ Hcalls).
  - apply Hexp. right. by exists err.
Qed.

(** X17.  When [upload] returns true it has written nothing to
    [std::cerr], left [errmsg] alone and dropped no error. When it
    returns false exactly one line went to [std::cerr]: either
    libdatadog handed back an error, which is then the line and the new
    [errmsg] (through [err_to_msg]) and is dropped exactly once, or the
    uploader has an output file name, and then no error is dropped and
    [errmsg] stays as it was. *)
Theorem upload_reports_errors (profile : ddog_prof_Profile)
    (st st' : State) (ret : bool) :
  upload profile st = (Ret ret, st') →
  if ret
  then cerr st' = cerr st ∧ errmsg st' = errmsg st
       ∧ filter (λ c, is_Error_drop c = true) (new_calls st st') = []
  else ∃ line,
      cerr st' = cerr st ++ [line]
      ∧ ((∃ err context,
            line = err_to_msg err context ∧ errmsg st' = line
            ∧ filter (λ c, is_Error_drop c = true) (new_calls st st') = [Error_drop err])
         ∨ (output_filename st ≠ "" ∧ errmsg st' = errmsg st
            ∧ filter (λ c, is_Error_drop c = true) (new_calls st st') = [])).
Proof.
  intros Hup.
  assert (Hexp : output_filename st = ""
                 ∨ (∃ err, ddog_prof_Profile_serialize profile = SERIALIZE_RESULT_ERR err) →
                 if ret
                 then cerr st' = cerr st ∧ errmsg st' = errmsg st
                      ∧ filter (λ c, is_Error_drop c = true) (new_calls st st') = []
                 else ∃ line,
                     cerr st' = cerr st ++ [line]
                     ∧ ((∃ err context,
                           line = err_to_msg err context ∧ errmsg st' = line
                           ∧ filter (λ c, is_Error_drop c = true) (new_calls st st')
                             = [Error_drop err])
                        ∨ (output_filename st ≠ "" ∧ errmsg st' = errmsg st
                           ∧ filter (λ c, is_Error_drop c = true) (new_calls st st')
                             = []))).
  { intros Hmode.
    destruct (upload_exporter_runs profile st Hmode)
      as (o & s1 & news & Hrun & Hcalls & _ & Ho & _).
    rewrite Hup in Hrun. injection Hrun as <- <-.
    rewrite (new_calls_app _ _ _ Hcalls). destruct ret.
    - by destruct Ho as (? & ? & ? & _).
    - destruct Ho as (err & context & Hce & Hm & Hd & _).
      eexists. split; [exact Hce|]. left. by exists err, context. }
  destruct (decide (output_filename st = "")) as [Hname|Hname]; [by apply Hexp; left|].
  destruct (ddog_prof_Profile_serialize profile) as [encoded|err] eqn:Hser;
    [|by apply Hexp; right; exists err].
  clear Hexp.
  destruct (upload_to_file_run profile encoded st Hname Hser)
    as (ret' & s1 & Hrun & Hcalls & _ & Hmsg & _ & _ & _ & _ & _ & _ & Hout).
  rewrite Hup in Hrun. injection Hrun as <- <-.
  rewrite (new_calls_app _ _ _ Hcalls). destruct ret.
  - by rewrite Hout.
  - destruct Hout as [line ->]. exists line. split; [done|]. by right.
Qed.

End UploaderSend.

Section UploaderFork.
Import Uploader.
Context `{LD : Libdatadog} `{OS : System}.
#[local] Existing Instances Uploader.M_ret Uploader.M_bind.

(** [prefork] on a free mutex: the whole run. *)
Lemma prefork_run (st : State) :
  upload_lock st = false →
  ∃ st',
    prefork st = (Ret (), st')
    ∧ calls st'
      = calls st ++ mutex_lock
        :: match cancel st with
           | Some old => [CancellationToken_cancel old; CancellationToken_drop old]
           | None => []
           end
    ∧ upload_lock st' = true
    ∧ cancel st' = None
    ∧ output_filename st' = output_filename st
    ∧ ddog_exporter st' = ddog_exporter st
    ∧ errmsg st' = errmsg st
    ∧ upload_seq st' = upload_seq st
    ∧ files st' = files st
    ∧ cerr st' = cerr st
    ∧ next_token st' = next_token st.
Proof.
  intros Hlock. destruct st as [f e m sq l c fs ce cs nt]. simpl in *. subst l.
  destruct c as [old|];
    (eexists; split; [uploader_eval; reflexivity|];
     simpl; repeat rewrite <- app_assoc; simpl; repeat split; done).
Qed.

(** X18.  [prefork] takes the mutex and cancels and drops the token of the
    upload in flight, if there is one. From then on an uploader without
    an output file name sends nothing: whatever the profile, [upload]
    does not return true, no [ddog_prof_Exporter_send] is made and the
    mutex stays held. *)
Theorem prefork_holds_back_uploads (st : State) :
  upload_lock st = false →
  output_filename st = "" →
  ∃ st',
    prefork st = (Ret (), st')
    ∧ new_calls st st'
      = mutex_lock
        :: match cancel st with
           | Some old => [CancellationToken_cancel old; CancellationToken_drop old]
           | None => []
           end
    ∧ cancel st' = None
    ∧ ∀ profile,
        (upload profile st').1 ≠ Ret true
        ∧ filter (λ c, is_Exporter_send c = true)
            (new_calls st' (upload profile st').2) = []
        ∧ upload_lock (upload profile st').2 = true.
Proof.
  intros Hlock Hname.
  destruct (prefork_run st Hlock)
    as (st' & Hrun & Hcalls & Hl & Hc & Hf & _).
  exists st'. split; [exact Hrun|]. split; [by apply new_calls_app|].
  split; [exact Hc|]. intros profile.
  rewrite <- Hf in Hname.
  destruct (upload_exporter_runs profile st' (or_introl Hname))
    as (o & s2 & news & Hup & Hnews & _ & Ho & Hsend).
  rewrite Hup. simpl. rewrite (new_calls_app _ _ _ Hnews).
  split; [|split; [by apply Hsend|]].
  - destruct o as [[|]| |]; try done.
    destruct Ho as (_ & _ & _ & Hfree & _). congruence.
  - destruct o as [[|]| |]; try done.
    + destruct Ho as (_ & _ & _ & Hfree & _). congruence.
    + destruct Ho as (? & ? & _ & _ & _ & ->). exact Hl.
    + by destruct Ho.
Qed.

(** X19.  [postfork_parent] and [postfork_child] undo [prefork]: after
    [prefork] on a free mutex either one returns with the mutex free
    again, and apart from the cancelled token and the record of calls
    the uploader is as it was. Out of that order the mutex is misused: a
    second [prefork] waits for good, and a postfork with no [prefork]
    before it unlocks a mutex that is not held. *)
Theorem prefork_postfork_round_trip (st : State) :
  upload_lock st = false →
  ∃ st1 st2,
    prefork st = (Ret (), st1)
    ∧ postfork_parent st1 = (Ret (), st2)
    ∧ postfork_child st1 = (Ret (), st2)
    ∧ upload_lock st2 = false
    ∧ cancel st2 = None
    ∧ upload_seq st2 = upload_seq st
    ∧ files st2 = files st
    ∧ cerr st2 = cerr st
    ∧ errmsg st2 = errmsg st
    ∧ (prefork st1).1 = Blocked
    ∧ (postfork_parent st).1 = Undefined
    ∧ (postfork_child st).1 = Undefined.
Proof.
  intros Hlock.
  destruct (prefork_run st Hlock)
    as (st1 & Hrun & Hcalls & Hl & Hc & Hf & He & Hm & Hs & Hfs & Hce & Hn).
  exists st1, (with_upload_lock false (with_calls (calls st1 ++ [mutex_unlock]) st1)).
  split; [exact Hrun|].
  unfold postfork_parent, postfork_child, prefork.
  rewrite (bind_blocked _ _ _ _ (lock_blocked _ Hl)).
  rewrite (unlock_run _ Hl). unfold unlock. rewrite Hlock. simpl.
  repeat split; congruence.
Qed.

End UploaderFork.

Section UploaderFiles.
Import Uploader.
Context `{LD : Libdatadog} `{OS : System}.
#[local] Existing Instances Uploader.M_ret Uploader.M_bind.

(** Uploaders with the same output file name export to the same file
    only at the same sequence number. *)
Lemma export_filename_inj (st st' : State) :
  output_filename st' = output_filename st →
  export_filename st' = export_filename st →
  upload_seq st' = upload_seq st.
Proof.
  unfold export_filename. intros -> H.
  do 4 apply (inj (String.append _)) in H.
  by apply (inj pretty) in H.
Qed.

(** X20.  An uploader built after an export to a file does not touch that
    file. When [upload] has exported a profile and the next uploader,
    built with the same output file name, exports another, the second
    export goes to a file of another name, the sequence number in the
    name having moved on, and the first file is left as the first export
    left it: if it could be opened it holds what the flush at the close
    of the first stream delivered. *)
Theorem later_export_keeps_earlier_file
    (profile1 profile2 : ddog_prof_Profile)
    (encoded1 encoded2 : ddog_prof_EncodedProfile)
    (exporter : nat) (st st1 : State) (ret1 : bool) :
  (1 < upload_seq_modulus)%N →
  (upload_seq st < upload_seq_modulus)%N →
  output_filename st ≠ "" →
  ddog_prof_Profile_serialize profile1 = SERIALIZE_RESULT_OK encoded1 →
  ddog_prof_Profile_serialize profile2 = SERIALIZE_RESULT_OK encoded2 →
  upload profile1 st = (Ret ret1, st1) →
  export_filename (Uploader (output_filename st) exporter st1).2 ≠ export_filename st
  ∧ ∃ ret2 st2,
      upload profile2 (Uploader (output_filename st) exporter st1).2 = (Ret ret2, st2)
      ∧ files st2 !! export_filename st = files st1 !! export_filename st
      ∧ (ofstream_open (export_filename st) = None →
         files st2 !! export_filename st
         = Some (ofstream_close (export_filename st) (buffer encoded1))).
Proof.
  intros Hmod Hseq Hname Hser1 Hser2 Hup1.
  destruct (upload_to_file_run profile1 encoded1 st Hname Hser1)
    as (ret & s1 & Hrun & _ & Hf1 & _ & Hs1 & _ & _ & _ & _ & Hfile & _).
  rewrite Hup1 in Hrun. injection Hrun as <- <-.
  set (s := (Uploader (output_filename st) exporter st1).2) in *.
  assert (Hsf : output_filename s = output_filename st) by done.
  assert (Hss : upload_seq s = ((upload_seq st + 1) mod upload_seq_modulus)%N).
  { unfold s, Uploader, modify, mbind, Uploader.M_bind. simpl. by rewrite Hs1. }
  assert (Hne : export_filename s ≠ export_filename st).
  { intros Heq. apply export_filename_inj in Heq; [|done].
    rewrite Hss in Heq.
    destruct (decide (upload_seq st + 1 = upload_seq_modulus)%N) as [Hwrap|Hno].
    - rewrite Hwrap, N.Div0.mod_same in Heq. lia.
    - rewrite N.mod_small in Heq by lia. lia. }
  split; [exact Hne|].
  assert (Hname2 : output_filename s ≠ "") by (by rewrite Hsf).
  destruct (upload_to_file_run profile2 encoded2 s Hname2 Hser2)
    as (ret2 & s2 & Hrun & _ & _ & _ & _ & _ & _ & _ & Hfiles & _).
  exists ret2, s2. split; [exact Hrun|].
  assert (Hkeep : files s2 !! export_filename st = files st1 !! export_filename st).
  { by rewrite Hfiles by done. }
  split; [exact Hkeep|]. intros Hopen. rewrite Hkeep, Hfile. by rewrite Hopen.
Qed.

End UploaderFiles.

Section UploaderWitnesses.
Import Uploader.
#[local] Existing Instances Ex.libdatadog Ex.system.

Lemma upload_to_file_witness :
  ∃ st',
    upload (LD := Ex.libdatadog) (OS := Ex.system_full) Ex.profile Ex.st_file
    = (Ret true, st')
    ∧ new_calls Ex.st_file st'
      = [Profile_serialize; EncodedProfile_drop (mk_EncodedProfile Ex.profile 0 60 0)]
    ∧ files st' !! export_filename (OS := Ex.system_full) Ex.st_file = Some []
    ∧ cerr st' = cerr Ex.st_file.
Proof.
  destruct (upload_to_file (LD := Ex.libdatadog) (OS := Ex.system_full)
              Ex.profile (mk_EncodedProfile Ex.profile 0 60 0) Ex.st_file)
    as (ret & st' & Hrun & Hcalls & _ & _ & Hret & _ & Hfile & Hcerr).
  - vm_compute. discriminate.
  - reflexivity.
  - assert (Htrue : ret = true) by (apply Hret; split; reflexivity).
    subst ret. exists st'. split; [exact Hrun|]. split; [exact Hcalls|].
    split; [|exact Hcerr]. rewrite Hfile. reflexivity.
Defined.

Lemma upload_send_sequence_witness :
  ∃ st',
    upload (LD := Ex.libdatadog) (OS := Ex.system) Ex.profile Ex.st_send = (Ret true, st')
    ∧ new_calls Ex.st_send st'
      = [Profile_serialize;
         Exporter_Request_build 7 [mk_File "auto.pprof" Ex.profile];
         EncodedProfile_drop (mk_EncodedProfile Ex.profile 0 60 0);
         CancellationToken_cancel 0;
         CancellationToken_drop 0;
         CancellationToken_new 1;
         CancellationToken_clone 1 2;
         mutex_lock;
         Exporter_send 7 (mk_Request 1) (Some 2);
         Exporter_Request_drop (mk_Request 1);
         mutex_unlock;
         CancellationToken_cancel 2;
         CancellationToken_drop 2]
    ∧ cancel st' = Some 1
    ∧ upload_lock st' = false.
Proof.
  apply (upload_send_sequence (LD := Ex.libdatadog) (OS := Ex.system)
           Ex.profile (mk_EncodedProfile Ex.profile 0 60 0) (mk_Request 1) Ex.st_send).
  - reflexivity.
  - reflexivity.
  - reflexivity.
  - reflexivity.
Defined.

Lemma upload_reports_errors_witness :
  ∃ line,
    cerr (upload (LD := Ex.libdatadog) (OS := Ex.system) []
            (with_uploader "" 0 "" Ex.st0)).2
    = cerr (with_uploader "" 0 "" Ex.st0) ++ [line]
    ∧ ((∃ err context,
          line = err_to_msg (Libdatadog := Ex.libdatadog) err context
          ∧ errmsg (upload (LD := Ex.libdatadog) (OS := Ex.system) []
                      (with_uploader "" 0 "" Ex.st0)).2 = line
          ∧ filter (λ c, is_Error_drop c = true)
              (new_calls (with_uploader "" 0 "" Ex.st0)
                 (upload (LD := Ex.libdatadog) (OS := Ex.system) []
                    (with_uploader "" 0 "" Ex.st0)).2)
            = [Error_drop err])
       ∨ (output_filename (with_uploader "" 0 "" Ex.st0) ≠ ""
          ∧ errmsg (upload (LD := Ex.libdatadog) (OS := Ex.system) []
                      (with_uploader "" 0 "" Ex.st0)).2
            = errmsg (with_uploader "" 0 "" Ex.st0)
          ∧ filter (λ c, is_Error_drop c = true)
              (new_calls (with_uploader "" 0 "" Ex.st0)
                 (upload (LD := Ex.libdatadog) (OS := Ex.system) []
                    (with_uploader "" 0 "" Ex.st0)).2)
            = [])).
Proof.
  apply (upload_reports_errors (LD := Ex.libdatadog) (OS := Ex.system) []
           (with_uploader "" 0 "" Ex.st0)
           (upload (LD := Ex.libdatadog) (OS := Ex.system) []
              (with_uploader "" 0 "" Ex.st0)).2 false).
  reflexivity.
Defined.

Lemma prefork_holds_back_uploads_witness :
  ∃ st',
    prefork Ex.st_send = (Ret (), st')
    ∧ new_calls Ex.st_send st'
      = [mutex_lock; CancellationToken_cancel 0; CancellationToken_drop 0]
    ∧ cancel st' = None
    ∧ ∀ profile,
        (upload (LD := Ex.libdatadog) (OS := Ex.system) profile st').1 ≠ Ret true
        ∧ filter (λ c, is_Exporter_send c = true)
            (new_calls st'
               (upload (LD := Ex.libdatadog) (OS := Ex.system) profile st').2) = []
        ∧ upload_lock (upload (LD := Ex.libdatadog) (OS := Ex.system) profile st').2
          = true.
Proof.
  apply (prefork_holds_back_uploads (LD := Ex.libdatadog) (OS := Ex.system) Ex.st_send).
  - reflexivity.
  - reflexivity.
Defined.

Lemma prefork_postfork_round_trip_witness :
  ∃ st1 st2,
    prefork Ex.st_send = (Ret (), st1)
    ∧ postfork_parent st1 = (Ret (), st2)
    ∧ postfork_child st1 = (Ret (), st2)
    ∧ upload_lock st2 = false
    ∧ cancel st2 = None
    ∧ upload_seq st2 = upload_seq Ex.st_send
    ∧ files st2 = files Ex.st_send
    ∧ cerr st2 = cerr Ex.st_send
    ∧ errmsg st2 = errmsg Ex.st_send
    ∧ (prefork st1).1 = Blocked
    ∧ (postfork_parent Ex.st_send).1 = Undefined
    ∧ (postfork_child Ex.st_send).1 = Undefined.
Proof.
  apply (prefork_postfork_round_trip Ex.st_send). reflexivity.
Defined.

Lemma later_export_keeps_earlier_file_witness :
  export_filename (OS := Ex.system)
    (Uploader (OS := Ex.system) (output_filename Ex.st_file) 7
       (upload (LD := Ex.libdatadog) (OS := Ex.system) Ex.profile Ex.st_file).2).2
  ≠ export_filename (OS := Ex.system) Ex.st_file
  ∧ ∃ ret2 st2,
      upload (LD := Ex.libdatadog) (OS := Ex.system) ["q"%byte]
        (Uploader (OS := Ex.system) (output_filename Ex.st_file) 7
           (upload (LD := Ex.libdatadog) (OS := Ex.system) Ex.profile Ex.st_file).2).2
      = (Ret ret2, st2)
      ∧ files st2 !! export_filename (OS := Ex.system) Ex.st_file = Some Ex.profile.
Proof.
  destruct (later_export_keeps_earlier_file (LD := Ex.libdatadog) (OS := Ex.system)
              Ex.profile ["q"%byte] (mk_EncodedProfile Ex.profile 0 60 0)
              (mk_EncodedProfile ["q"%byte] 0 60 0) 7 Ex.st_file
              (upload (LD := Ex.libdatadog) (OS := Ex.system) Ex.profile Ex.st_file).2
              true)
    as [Hne (ret2 & st2 & Hrun & _ & Hfile)].
  - reflexivity.
  - reflexivity.
  - vm_compute. discriminate.
  - reflexivity.
  - reflexivity.
  - vm_compute. reflexivity.
  - split; [exact Hne|]. exists ret2, st2. split; [exact Hrun|].
    apply Hfile. reflexivity.
Defined.

End UploaderWitnesses.
